(** * GitHub repository summarizer: content selection, context assembly,
    response recovery and URL parsing

  A shallow embedding of the pure functions of [app/content_filter.py],
  [app/llm_client.py] and [app/github_fetcher.py], with the properties
  that the specification states about them.

  Python values are modelled as follows.
  - [str] is [string]; a character is one code point in U+0000..U+00FF,
    so [String.length] is Python's [len].  Text with code points above
    U+00FF is outside the model.
  - [int] is [Z].
  - [set[str]] is [gset string], [dict[str, str]] is [gmap string string].
  - a function that can raise returns a sum or an inductive result type
    listing the exceptions it can raise. *)

From Stdlib Require Import String Ascii List ZArith Lia Bool.
From Stdlib Require Import DecimalString Sorted Permutation.
From stdpp Require Import gmap strings list.

Open Scope string_scope.
Open Scope list_scope.
Open Scope stdpp_scope.
Open Scope Z_scope.

(** ** The fragment of the Python runtime that the code uses *)

Module Py.

Definition code (c : ascii) : N := N_of_ascii c.

Definition between (lo hi : N) (c : ascii) : bool :=
  (lo <=? code c)%N && (code c <=? hi)%N.

(** [str.lower] on U+0000..U+00FF: A-Z and the Latin-1 capitals
    U+00C0..U+00DE (without the multiplication sign U+00D7) move up
    by 32, every other character is kept. *)
Definition lower_char (c : ascii) : ascii :=
  if between 65 90 c || (between 192 222 c && negb (code c =? 215)%N)
  then ascii_of_N (code c + 32)
  else c.

Fixpoint lower (s : string) : string :=
  match s with
  | EmptyString => EmptyString
  | String c s' => String (lower_char c) (lower s')
  end.

(** [str.isspace] of one character, which is also the class [\s] of
    [re] on [str] patterns. *)
Definition isspace (c : ascii) : bool :=
  between 9 13 c || between 28 32 c || (code c =? 133)%N || (code c =? 160)%N.

(** The line feed, as a character and as a string. *)
Definition LF : ascii := "010"%char.
Definition nl : string := String LF EmptyString.

(** [len(s)] *)
Definition len (s : string) : Z := Z.of_nat (String.length s).

(** [s.split(sep)] for a separator of one character: the pieces between
    the occurrences of [sep], always at least one piece. *)
Fixpoint split (sep : ascii) (s : string) : list string :=
  match s with
  | EmptyString => [EmptyString]
  | String c s' =>
      if Ascii.eqb c sep then EmptyString :: split sep s'
      else match split sep s' with
           | piece :: rest => String c piece :: rest
           | [] => [String c EmptyString]
           end
  end.

(** [sep.join(l)] *)
Definition join (sep : string) (l : list string) : string :=
  String.concat sep l.

(** [c in s] for a character [c] *)
Fixpoint contains_char (c : ascii) (s : string) : bool :=
  match s with
  | EmptyString => false
  | String d s' => Ascii.eqb c d || contains_char c s'
  end.

(** [s.startswith(p)] *)
Definition startswith (p s : string) : bool := String.prefix p s.

(** [s[n:]] and [s[:n]] for [n >= 0] *)
Fixpoint drop (n : nat) (s : string) : string :=
  match n, s with
  | O, _ => s
  | S n', String _ s' => drop n' s'
  | S _, EmptyString => EmptyString
  end.

Fixpoint take (n : nat) (s : string) : string :=
  match n, s with
  | S n', String c s' => String c (take n' s')
  | _, _ => EmptyString
  end.

(** [s[:n]] for any integer [n]: a negative bound counts from the end. *)
Definition slice_to (n : Z) (s : string) : string :=
  if 0 <=? n then take (Z.to_nat n) s
  else take (String.length s - Z.to_nat (- n)) s.

(** [l[:n]] on a list, for any integer [n]. *)
Definition list_slice_to {A} (n : Z) (l : list A) : list A :=
  if 0 <=? n then firstn (Z.to_nat n) l
  else firstn (length l - Z.to_nat (- n)) l.

Fixpoint rev_string_aux (s acc : string) : string :=
  match s with
  | EmptyString => acc
  | String c s' => rev_string_aux s' (String c acc)
  end.

Definition rev_string (s : string) : string := rev_string_aux s EmptyString.

(** [s.endswith(p)] *)
Definition endswith (p s : string) : bool :=
  String.prefix (rev_string p) (rev_string s).

(** [s.lstrip(chars)], [s.rstrip(chars)], [s.strip(chars)] for a character
    class; [s.strip()] is [strip isspace]. *)
Fixpoint lstrip (p : ascii -> bool) (s : string) : string :=
  match s with
  | EmptyString => EmptyString
  | String c s' => if p c then lstrip p s' else s
  end.

Definition rstrip (p : ascii -> bool) (s : string) : string :=
  rev_string (lstrip p (rev_string s)).

Definition strip (p : ascii -> bool) (s : string) : string :=
  rstrip p (lstrip p s).

(** [s.find(c)] and [s.rfind(c)] for a character: the index of the first
    and of the last occurrence, [-1] when there is none. *)
Fixpoint find_from (i : Z) (c : ascii) (s : string) : Z :=
  match s with
  | EmptyString => -1
  | String d s' => if Ascii.eqb c d then i else find_from (i + 1) c s'
  end.

Definition find (c : ascii) (s : string) : Z := find_from 0 c s.

Fixpoint rfind_from (i : Z) (c : ascii) (s : string) : Z :=
  match s with
  | EmptyString => -1
  | String d s' =>
      let r := rfind_from (i + 1) c s' in
      if 0 <=? r then r else if Ascii.eqb c d then i else -1
  end.

Definition rfind (c : ascii) (s : string) : Z := rfind_from 0 c s.

(** [s[i:j]] for [0 <= i] and [0 <= j] *)
Definition slice (i j : Z) (s : string) : string :=
  take (Z.to_nat (j - i)) (drop (Z.to_nat i) s).

(** [str(n)] for an [int] *)
Definition str_int (n : Z) : string := NilZero.string_of_int (Z.to_int n).

(** [os.path.basename] of [posixpath]: what follows the last slash. *)
Definition basename (p : string) : string :=
  drop (Z.to_nat (rfind "/" p + 1)) p.

(** [os.path.splitext] of [posixpath] ([genericpath._splitext] with
    separator [/] and extension separator [.]): the extension starts at
    the last dot of the last component, unless only dots precede it in
    that component. *)
Fixpoint all_dots (s : string) : bool :=
  match s with
  | EmptyString => true
  | String c s' => Ascii.eqb c "." && all_dots s'
  end.

Definition splitext (p : string) : string * string :=
  let sepIndex := rfind "/" p in
  let dotIndex := rfind "." p in
  if (sepIndex <? dotIndex)
     && negb (all_dots (slice (sepIndex + 1) dotIndex p))
  then (take (Z.to_nat dotIndex) p, drop (Z.to_nat dotIndex) p)
  else (p, EmptyString).

(** [s * n] for a string [s] and [n >= 0] *)
Fixpoint repeat_string (s : string) (n : nat) : string :=
  match n with
  | O => EmptyString
  | S n' => s +:+ repeat_string s n'
  end.

(** The double quote, the backslash and the backtick fence. *)
Definition DQ : ascii := "034"%char.
Definition BACKSLASH : ascii := "092"%char.

(** *** Exceptions *)

(** The exceptions that the modelled functions raise: the two error
    classes of the application, with message and status code, and
    Python's [ValueError] and [RecursionError]. *)
Inductive exn :=
| LLMError (message : string) (status_code : Z)
| GitHubFetchError (message : string) (status_code : Z)
| ValueError
| RecursionError.

Inductive result (A : Type) :=
| Ok (a : A)
| Raise (e : exn).

Arguments Ok {A} a.
Arguments Raise {A} e.

(** *** Regular expressions *)

(** The constructs of [re] that the code's patterns use, matched by
    backtracking as [re] does: a greedy construct tries its longest
    match first, the lazy group its shortest. *)
Inductive re_atom :=
| RLit (s : string)              (* the literal [s] *)
| ROptLit (s : string)           (* [(?:s)?] *)
| RStar (p : ascii -> bool)      (* [c*] for a character class [c] *)
| RGroupLazyAny.                 (* [(.*?)] under [re.DOTALL], the group *)

Fixpoint star_greedy (p : ascii -> bool) (k : string -> option string)
    (s : string) : option string :=
  match s with
  | String c s' =>
      if p c then
        match star_greedy p k s' with
        | Some g => Some g
        | None => k s
        end
      else k s
  | EmptyString => k EmptyString
  end.

(** [start] is where the group begins and [n] the number of characters
    it has taken so far; [s] is what follows them. *)
Fixpoint lazy_any (k : string -> string -> option string)
    (start : string) (n : nat) (s : string) : option string :=
  match k (take n start) s with
  | Some g => Some g
  | None =>
      match s with
      | String _ s' => lazy_any k start (S n) s'
      | EmptyString => None
      end
  end.

(** [re_match rs group s]: the pattern [rs] matches a prefix of [s]; the
    result is the text of the group. *)
Fixpoint re_match (rs : list re_atom) (group : string) (s : string)
    : option string :=
  match rs with
  | [] => Some group
  | RLit l :: rs' =>
      if String.prefix l s then re_match rs' group (drop (String.length l) s)
      else None
  | ROptLit l :: rs' =>
      match (if String.prefix l s
             then re_match rs' group (drop (String.length l) s)
             else None) with
      | Some g => Some g
      | None => re_match rs' group s
      end
  | RStar p :: rs' => star_greedy p (re_match rs' group) s
  | RGroupLazyAny :: rs' => lazy_any (fun g rest => re_match rs' g rest) s 0 s
  end.

(** [re.search(pattern, s)]: the match at the leftmost position that has
    one; the result is [match.group(1)]. *)
Fixpoint re_search (rs : list re_atom) (s : string) : option string :=
  match re_match rs EmptyString s with
  | Some g => Some g
  | None =>
      match s with
      | String _ s' => re_search rs s'
      | EmptyString => None
      end
  end.

(** [x in S] for a set of strings *)
Definition mem (x : string) (S : gset string) : bool := bool_decide (x ∈ S).

End Py.

(** ** app/config.py *)

Module config.

Definition MAX_CONTEXT_CHARS : Z := 200000.
Definition MAX_TREE_LINES : Z := 500.
Definition MAX_FILE_LINES : Z := 300.

End config.

(** ** app/content_filter.py *)

Module content_filter.

Import Py config.

(** *** Skip rules *)

Definition SKIP_DIRS : gset string := list_to_set [
  "node_modules"; "vendor"; "dist"; "build"; ".git"; "__pycache__";
  ".next"; ".nuxt"; ".output"; ".cache"; ".tox"; ".nox"; ".mypy_cache";
  ".ruff_cache"; ".pytest_cache"; ".eggs"; "eggs"; ".venv"; "venv"; "env";
  ".env"; "site-packages"; "coverage"; "htmlcov"; ".terraform"; ".gradle";
  ".idea"; ".vscode"; "target"; "out"; "bin"; "obj" ].

Definition SKIP_EXTENSIONS : gset string := list_to_set [
  ".png"; ".jpg"; ".jpeg"; ".gif"; ".ico"; ".svg"; ".bmp"; ".webp"; ".tiff";
  ".woff"; ".woff2"; ".ttf"; ".otf"; ".eot";
  ".pyc"; ".pyo"; ".pyd"; ".so"; ".dll"; ".exe"; ".o"; ".a"; ".lib";
  ".class"; ".jar"; ".war"; ".ear";
  ".zip"; ".tar"; ".gz"; ".bz2"; ".xz"; ".rar"; ".7z";
  ".mp3"; ".mp4"; ".avi"; ".mov"; ".wav"; ".flac";
  ".pdf"; ".doc"; ".docx"; ".xls"; ".xlsx"; ".ppt"; ".pptx";
  ".sqlite"; ".sqlite3"; ".db";
  ".map"; ".min.js"; ".min.css";
  ".DS_Store"; ".lock" ].

Definition SKIP_FILES : gset string := list_to_set [
  "package-lock.json"; "yarn.lock"; "pnpm-lock.yaml"; "Pipfile.lock";
  "poetry.lock"; "Cargo.lock"; "composer.lock"; "Gemfile.lock"; "go.sum";
  "flake.lock"; ".gitattributes"; ".editorconfig"; ".browserslistrc";
  "thumbs.db" ].

(** *** Priority tiers *)

Definition TIER_1_FILES : gset string := list_to_set [
  "readme.md"; "readme.rst"; "readme.txt"; "readme" ].

Definition TIER_2_FILES : gset string := list_to_set [
  "package.json"; "pyproject.toml"; "setup.py"; "setup.cfg"; "cargo.toml";
  "go.mod"; "pom.xml"; "build.gradle"; "build.gradle.kts"; "gemfile";
  "composer.json"; "mix.exs"; "project.clj"; "requirements.txt";
  "requirements-dev.txt"; "requirements_dev.txt"; "pipfile";
  "environment.yml" ].

Definition TIER_3_FILES : gset string := list_to_set [
  "dockerfile"; "docker-compose.yml"; "docker-compose.yaml"; ".env.example";
  ".env.sample"; "makefile"; "procfile"; "tsconfig.json";
  "webpack.config.js"; "vite.config.ts"; "vite.config.js"; "next.config.js";
  "next.config.mjs"; "rollup.config.js"; "babel.config.js"; ".babelrc";
  "jest.config.js"; "jest.config.ts"; "vitest.config.ts"; "tox.ini";
  "noxfile.py"; "justfile"; "taskfile.yml"; "vercel.json"; "netlify.toml";
  "fly.toml"; "render.yaml"; "app.yaml"; "serverless.yml"; "cdk.json";
  "terraform.tf"; "ansible.cfg" ].

Definition TIER_4_BASENAMES : gset string := list_to_set [
  "main"; "app"; "index"; "server"; "cli"; "run"; "manage"; "__main__";
  "wsgi"; "asgi" ].

Definition SOURCE_EXTENSIONS : gset string := list_to_set [
  ".py"; ".js"; ".ts"; ".jsx"; ".tsx"; ".go"; ".rs"; ".rb"; ".java"; ".kt";
  ".c"; ".cpp"; ".h"; ".hpp"; ".cs"; ".swift"; ".scala"; ".clj"; ".ex";
  ".exs"; ".php"; ".lua"; ".r"; ".jl"; ".sh"; ".bash"; ".zsh"; ".fish";
  ".sql"; ".graphql"; ".gql"; ".proto" ].

Definition TIER_6_FILES : gset string := list_to_set [
  "contributing.md"; "changelog.md"; "changes.md"; "history.md";
  "authors.md"; "code_of_conduct.md"; "security.md"; "license";
  "license.md"; "license.txt"; "notice" ].

(** *** Filtering logic *)

(** [parts[-1]] of a list that [split] returned (never empty). *)
Definition last_part (parts : list string) : string := List.last parts "".

Definition _should_skip (path : string) : bool :=
  let parts := split "/" (lower path) in
  if existsb (fun part => mem part SKIP_DIRS) (removelast parts) then true
  else
    let filename := last_part parts in
    let ext := snd (splitext filename) in
    if mem filename SKIP_FILES then true
    else if mem ext SKIP_EXTENSIONS then true
    else false.

Definition _get_tier (path : string) (size : Z) : Z :=
  let filename := lower (basename path) in
  let basename_no_ext := fst (splitext filename) in
  let ext := snd (splitext filename) in
  if mem filename TIER_1_FILES then 1
  else if mem filename TIER_2_FILES then 2
  else if mem filename TIER_3_FILES then 3
  else if mem basename_no_ext TIER_4_BASENAMES && mem ext SOURCE_EXTENSIONS
  then 4
  else if String.eqb filename "__init__.py" && negb (contains_char "/" path)
  then 4
  else if mem ext SOURCE_EXTENSIONS then 5
  else if mem filename TIER_6_FILES then 6
  else 99.

(** An entry of the repository tree: a dict with the keys [path], [type]
    and, for blobs, [size]. *)
Record item := Item {
  item_path : string;
  item_type : string;
  item_size : option Z
}.

(** [item.get("size", 0)] *)
Definition get_size (it : item) : Z := default 0 (item_size it).

(** A selected file: a dict with the keys [path], [size] and [tier]. *)
Record candidate := Candidate {
  path : string;
  size : Z;
  tier : Z
}.

(** The sort key [(f["tier"], f["path"])] and the order of such tuples:
    integers first, then strings by code point. *)
Definition key_leb (a b : candidate) : bool :=
  (tier a <? tier b) || ((tier a =? tier b) && String.leb (path a) (path b)).

(** [list.sort(key=...)]: a stable sort, here by insertion from the
    right, which keeps entries of equal key in their order. *)
Fixpoint insert_sorted (x : candidate) (l : list candidate) : list candidate :=
  match l with
  | [] => [x]
  | y :: l' => if key_leb x y then x :: y :: l' else y :: insert_sorted x l'
  end.

Fixpoint sort_candidates (l : list candidate) : list candidate :=
  match l with
  | [] => []
  | x :: l' => insert_sorted x (sort_candidates l')
  end.

(** The loop of [select_files], which appends to [candidates]. *)
Fixpoint collect_candidates (tree : list item) : list candidate :=
  match tree with
  | [] => []
  | it :: rest =>
      if negb (String.eqb (item_type it) "blob") then collect_candidates rest
      else
        let path := item_path it in
        let size := get_size it in
        if _should_skip path then collect_candidates rest
        else
          let tier := _get_tier path size in
          if tier =? 99 then collect_candidates rest
          else Candidate path size tier :: collect_candidates rest
  end.

Definition select_files (tree : list item) : list candidate :=
  sort_candidates (collect_candidates tree).

(** *** Directory tree formatting *)

(** [f"{x / d:.1f}"] for integers [0 <= x] and [0 < d]: the quotient
    rounded to one decimal, ties to even.  The source divides as floats;
    for [d] a power of two and [x < 2^53] the float quotient is exact and
    its rendering is this one. *)
Definition format_1f (x d : Z) : string :=
  let q := (10 * x) / d in
  let r := (10 * x) mod d in
  let q := if (d <? 2 * r) || ((d =? 2 * r) && Z.odd q) then q + 1 else q in
  str_int (q / 10) +:+ "." +:+ str_int (q mod 10).

Definition _format_size (size_bytes : Z) : string :=
  if size_bytes <? 1024 then str_int size_bytes +:+ " B"
  else if size_bytes <? 1024 * 1024 then format_1f size_bytes 1024 +:+ " KB"
  else format_1f size_bytes (1024 * 1024) +:+ " MB".

(** The loop of [format_tree]; [n_tree] is [len(tree)] and [lines] the
    lines appended so far.  Leaving the loop by [break] returns. *)
Fixpoint format_tree_loop (n_tree : Z) (tree : list item)
    (lines : list string) : list string :=
  match tree with
  | [] => lines
  | it :: rest =>
      let path := item_path it in
      let parts := split "/" path in
      if existsb (fun p => mem (lower p) SKIP_DIRS) (removelast parts)
      then format_tree_loop n_tree rest lines
      else
        let filename := lower (last_part parts) in
        let ext := snd (splitext filename) in
        if mem ext SKIP_EXTENSIONS || mem filename SKIP_FILES
        then format_tree_loop n_tree rest lines
        else
          let depth := Z.of_nat (length parts) - 1 in
          let prefix := repeat_string "  " (Z.to_nat depth) in
          let name := last_part parts in
          let line :=
            if String.eqb (item_type it) "tree" then prefix +:+ name +:+ "/"
            else
              let size := get_size it in
              if 0 <? size
              then prefix +:+ name +:+ "  (" +:+ _format_size size +:+ ")"
              else prefix +:+ name in
          let lines := lines ++ [line] in
          if MAX_TREE_LINES <=? Z.of_nat (length lines)
          then lines ++ ["  ... (truncated, " +:+ str_int n_tree
                           +:+ " total entries)"]
          else format_tree_loop n_tree rest lines
  end.

Definition format_tree (tree : list item) : string :=
  join nl (format_tree_loop (Z.of_nat (length tree)) tree []).

(** *** Context building *)

Definition truncate_file_content (content : string) (max_lines : Z) : string :=
  let lines := split LF content in
  if Z.of_nat (length lines) <=? max_lines then content
  else
    let truncated := join nl (list_slice_to max_lines lines) in
    truncated +:+ nl +:+ nl +:+ "... (truncated, "
      +:+ str_int (Z.of_nat (length lines)) +:+ " total lines)".

(** The metadata dict that [fetch_repo_metadata] builds.  A field is
    [None] when its key is absent; for [description] and [language] also
    when the value is [None] (both make the test [if desc:] fail). *)
Record metadata := Metadata {
  md_name : option string;
  md_owner : option string;
  md_description : option string;
  md_language : option string;
  md_topics : list string;
  md_stars : option Z
}.

(** [if s:] for a string that may be absent *)
Definition truthy (s : option string) : bool :=
  match s with
  | Some (String _ _) => true
  | _ => false
  end.

Definition _build_metadata_section (md : metadata) : string :=
  let lines := [ "=== REPOSITORY METADATA ===";
                 "Name: " +:+ default "Unknown" (md_name md);
                 "Owner: " +:+ default "Unknown" (md_owner md) ] in
  let desc := md_description md in
  let lines :=
    if truthy desc then lines ++ ["Description: " +:+ default "" desc]
    else lines in
  let lang := md_language md in
  let lines :=
    if truthy lang then lines ++ ["Primary Language: " +:+ default "" lang]
    else lines in
  let topics := md_topics md in
  let lines :=
    match topics with
    | [] => lines
    | _ => lines ++ ["Topics: " +:+ join ", " topics]
    end in
  let stars := default 0 (md_stars md) in
  let lines := lines ++ ["Stars: " +:+ str_int stars] in
  let lines := lines ++ [""] in
  join nl lines.

(** [f"--- {path} ---\n{content}\n\n"] *)
Definition file_block (path content : string) : string :=
  "--- " +:+ path +:+ " ---" +:+ nl +:+ content +:+ nl +:+ nl.

(** [f"--- {path} (truncated to fit budget) ---\n{content}\n\n"] *)
Definition truncated_block (path content : string) : string :=
  "--- " +:+ path +:+ " (truncated to fit budget) ---" +:+ nl
    +:+ content +:+ nl +:+ nl.

(** The count [remaining] that the source computes on leaving the loop:
    the entries of the whole of [selected_files] that have a body and
    whose path is not the current one. *)
Definition remaining_count (file_contents : gmap string string)
    (selected_files : list candidate) (current : string) : Z :=
  Z.of_nat (length (filter
    (fun f => bool_decide (is_Some (file_contents !! path f))
              && negb (String.eqb (path f) current))
    selected_files)).

Definition omitted_notice (remaining : Z) : string :=
  "... (" +:+ str_int remaining
    +:+ " additional files omitted due to context budget)" +:+ nl.

(** The loop over [selected_files] in [build_context].  [todo] is what
    is left to iterate, [sections] and [total_chars] are the two
    variables the loop updates; [continue] recurses, [break] returns. *)
Fixpoint file_loop (file_contents : gmap string string)
    (selected_files todo : list candidate)
    (sections : list string) (total_chars : Z) : list string :=
  match todo with
  | [] => sections
  | file_info :: rest =>
      let path := path file_info in
      match file_contents !! path with
      | None => file_loop file_contents selected_files rest sections total_chars
      | Some content =>
          let content := truncate_file_content content MAX_FILE_LINES in
          let block := file_block path content in
          let block_len := len block in
          if MAX_CONTEXT_CHARS <? total_chars + block_len then
            let sections :=
              if tier file_info <=? 3 then
                let available := MAX_CONTEXT_CHARS - total_chars - 200 in
                if 500 <? available
                then sections ++ [truncated_block path (slice_to available content)]
                else sections
              else sections in
            let remaining := remaining_count file_contents selected_files path in
            sections ++ [omitted_notice remaining]
          else
            file_loop file_contents selected_files rest
              (sections ++ [block]) (total_chars + block_len)
      end
  end.

(** The list [sections] when [build_context] joins it. *)
Definition build_sections (md : metadata) (tree : list item)
    (file_contents : gmap string string)
    (selected_files : list candidate) : list string :=
  let meta_section := _build_metadata_section md in
  let total_chars := len meta_section in
  let tree_str := format_tree tree in
  let tree_section := "=== DIRECTORY STRUCTURE ===" +:+ nl +:+ tree_str +:+ nl in
  let total_chars := total_chars + len tree_section in
  let file_section_header := "=== FILE CONTENTS ===" +:+ nl in
  let total_chars := total_chars + len file_section_header in
  file_loop file_contents selected_files selected_files
    [meta_section; tree_section; file_section_header] total_chars.

Definition build_context (md : metadata) (tree : list item)
    (file_contents : gmap string string)
    (selected_files : list candidate) : string :=
  join nl (build_sections md tree file_contents selected_files).

End content_filter.

(** ** app/llm_client.py *)

Module llm_client.

Import Py.

(** *** JSON values and [json.loads] *)

(** What [json.loads] returns.  A number with a fraction or an exponent,
    and the constants [NaN], [Infinity] and [-Infinity], become a [float],
    kept here as the literal that denotes it.  A [dict] keeps its keys in
    the order of their first insertion. *)
#[warnings="-register-all"]
Inductive value :=
| VNone
| VBool (b : bool)
| VInt (n : Z)
| VFloat (literal : string)
| VStr (s : string)
| VList (l : list value)
| VDict (d : list (string * value)).

(** [d[key] = v] *)
Fixpoint dict_set (key : string) (v : value) (d : list (string * value))
    : list (string * value) :=
  match d with
  | [] => [(key, v)]
  | (k, w) :: d' =>
      if String.eqb k key then (k, v) :: d' else (k, w) :: dict_set key v d'
  end.

(** [d.get(key)]: [None] of Python when the key is absent. *)
Fixpoint dict_get (key : string) (d : list (string * value)) : value :=
  match d with
  | [] => VNone
  | (k, w) :: d' => if String.eqb k key then w else dict_get key d'
  end.

(** The outcome of a parsing function: a result with the rest of the
    text, or what ends the parsing.  [Malformed] is [json.JSONDecodeError];
    [TooManyDigits] is the [ValueError] of [int] on a literal of more
    digits than the limit; [TooDeep] is [RecursionError]; [Beyond] is a
    string that holds a character above U+00FF, which the strings of the
    model do not have; [NoFuel] is the end of the model's budget of
    calls. *)
Inductive parse (A : Type) :=
| Parsed (a : A) (rest : string)
| Malformed
| TooManyDigits
| TooDeep
| Beyond
| NoFuel.

Arguments Parsed {A} a rest.
Arguments Malformed {A}.
Arguments TooManyDigits {A}.
Arguments TooDeep {A}.
Arguments Beyond {A}.
Arguments NoFuel {A}.

(** The whitespace of JSON: space, tab, line feed, carriage return. *)
Definition is_json_ws (c : ascii) : bool :=
  Ascii.eqb c " " || Ascii.eqb c "009" || Ascii.eqb c "010" || Ascii.eqb c "013".

Definition skip_ws (s : string) : string := lstrip is_json_ws s.

Definition is_digit (c : ascii) : bool := between 48 57 c.

Definition hex_digit (c : ascii) : option N :=
  if between 48 57 c then Some (code c - 48)%N
  else if between 97 102 c then Some (code c - 87)%N
  else if between 65 70 c then Some (code c - 55)%N
  else None.

Definition hex4 (a b c d : ascii) : option N :=
  match hex_digit a, hex_digit b, hex_digit c, hex_digit d with
  | Some x, Some y, Some z, Some w => Some (((x * 16 + y) * 16 + z) * 16 + w)%N
  | _, _, _, _ => None
  end.

(** The character that follows a backslash in a JSON string. *)
Definition escape_char (e : ascii) : option ascii :=
  if Ascii.eqb e DQ then Some DQ
  else if Ascii.eqb e BACKSLASH then Some BACKSLASH
  else if Ascii.eqb e "/" then Some "/"%char
  else if Ascii.eqb e "b" then Some "008"%char
  else if Ascii.eqb e "f" then Some "012"%char
  else if Ascii.eqb e "n" then Some "010"%char
  else if Ascii.eqb e "r" then Some "013"%char
  else if Ascii.eqb e "t" then Some "009"%char
  else None.

Definition cons_char (c : ascii) (r : parse string) : parse string :=
  match r with
  | Parsed str rest => Parsed (String c str) rest
  | other => other
  end.

(** [scanstring] in strict mode, from the character after the opening
    quote.  An escape [\uXXXX] above U+00FF denotes a character that the
    strings of the model do not have: the outcome is [Beyond], and the
    model says nothing about such a text. *)
Fixpoint scanstring (s : string) : parse string :=
  match s with
  | EmptyString => Malformed
  | String c rest =>
      if Ascii.eqb c DQ then Parsed EmptyString rest
      else if Ascii.eqb c BACKSLASH then
        match rest with
        | EmptyString => Malformed
        | String e rest' =>
            if Ascii.eqb e "u" then
              match rest' with
              | String h1 (String h2 (String h3 (String h4 rest''))) =>
                  match hex4 h1 h2 h3 h4 with
                  | Some n =>
                      if (n <=? 255)%N then cons_char (ascii_of_N n) (scanstring rest'')
                      else Beyond
                  | None => Malformed
                  end
              | _ => Malformed
              end
            else
              match escape_char e with
              | Some ch => cons_char ch (scanstring rest')
              | None => Malformed
              end
        end
      else if (code c <? 32)%N then Malformed
      else cons_char c (scanstring rest)
  end.

(** The longest run of digits at the head of [s], and what follows. *)
Fixpoint take_digits (s : string) : string * string :=
  match s with
  | String c s' =>
      if is_digit c then
        let '(ds, rest) := take_digits s' in (String c ds, rest)
      else (EmptyString, s)
  | EmptyString => (EmptyString, EmptyString)
  end.

(** The value of a run of digits. *)
Fixpoint digits_value (acc : Z) (ds : string) : Z :=
  match ds with
  | EmptyString => acc
  | String c ds' => digits_value (10 * acc + Z.of_N (code c - 48)) ds'
  end.

(** The integer part of a number, without its sign: [0], or a digit
    from 1 to 9 followed by digits. *)
Definition scan_int_part (s : string) : option (string * string) :=
  match s with
  | String c s' =>
      if Ascii.eqb c "0" then Some ("0", s')
      else if between 49 57 c then
        let '(ds, rest) := take_digits s' in Some (String c ds, rest)
      else None
  | EmptyString => None
  end.

(** The fraction: a dot and at least one digit; empty when the dot has
    no digit after it. *)
Definition scan_frac (s : string) : string * string :=
  match s with
  | String c s' =>
      if Ascii.eqb c "." then
        match take_digits s' with
        | (EmptyString, _) => (EmptyString, s)
        | (ds, rest) => (String c ds, rest)
        end
      else (EmptyString, s)
  | EmptyString => (EmptyString, s)
  end.

(** The exponent: [e] or [E], an optional sign and at least one digit;
    empty when it has no digit. *)
Definition scan_exp (s : string) : string * string :=
  match s with
  | String e s' =>
      if Ascii.eqb e "e" || Ascii.eqb e "E" then
        let '(sign, s'') :=
          match s' with
          | String g t =>
              if Ascii.eqb g "+" || Ascii.eqb g "-"
              then (String g EmptyString, t) else (EmptyString, s')
          | EmptyString => (EmptyString, s')
          end in
        match take_digits s'' with
        | (EmptyString, _) => (EmptyString, s)
        | (ds, rest) => (String e (sign +:+ ds), rest)
        end
      else (EmptyString, s)
  | EmptyString => (EmptyString, s)
  end.

(** [sys.get_int_max_str_digits()], at its default: [int] raises
    [ValueError] on a literal of more digits. *)
Definition int_max_str_digits : nat := 4300.

(** The number at the head of [s]: an [int] when there is neither
    fraction nor exponent, else a [float]; [None] when no number starts
    there. *)
Definition scan_number (s : string) : option (parse value) :=
  let '(neg, s1) :=
    match s with
    | String c t => if Ascii.eqb c "-" then (true, t) else (false, s)
    | EmptyString => (false, s)
    end in
  match scan_int_part s1 with
  | None => None
  | Some (int_part, s2) =>
      let '(frac, s3) := scan_frac s2 in
      let '(exp, s4) := scan_exp s3 in
      match frac, exp with
      | EmptyString, EmptyString =>
          if (int_max_str_digits <? String.length int_part)%nat
          then Some TooManyDigits
          else
            let n := digits_value 0 int_part in
            Some (Parsed (VInt (if neg then - n else n)) s4)
      | _, _ =>
          Some (Parsed
                  (VFloat ((if neg then "-" else "") +:+ int_part +:+ frac +:+ exp))
                  s4)
      end
  end.

(** [scan_once], [JSONObject] and [JSONArray] of the scanner of [json].
    [object_items] starts after the opening quote of a key, [array_items]
    at a value.  [depth] is the number of nested calls that the
    interpreter still allows: the scanner enters one for each object and
    each array, and raises [RecursionError] when none is left.  [fuel]
    bounds the calls of the model. *)
Fixpoint scan_once (fuel depth : nat) (s : string) : parse value :=
  match fuel with
  | O => NoFuel
  | S fuel' =>
      match s with
      | EmptyString => Malformed
      | String c rest =>
          if Ascii.eqb c DQ then
            match scanstring rest with
            | Parsed str r => Parsed (VStr str) r
            | Malformed => Malformed
            | TooManyDigits => TooManyDigits
            | TooDeep => TooDeep
            | Beyond => Beyond
            | NoFuel => NoFuel
            end
          else if Ascii.eqb c "{" then
            match depth with
            | O => TooDeep
            | S depth' =>
                match skip_ws rest with
                | String c1 r1 =>
                    if Ascii.eqb c1 "}" then Parsed (VDict []) r1
                    else if Ascii.eqb c1 DQ then object_items fuel' depth' [] r1
                    else Malformed
                | EmptyString => Malformed
                end
            end
          else if Ascii.eqb c "[" then
            match depth with
            | O => TooDeep
            | S depth' =>
                match skip_ws rest with
                | String c1 r1 =>
                    if Ascii.eqb c1 "]" then Parsed (VList []) r1
                    else array_items fuel' depth' [] (String c1 r1)
                | EmptyString => Malformed
                end
            end
          else if String.prefix "null" s then Parsed VNone (drop 4 s)
          else if String.prefix "true" s then Parsed (VBool true) (drop 4 s)
          else if String.prefix "false" s then Parsed (VBool false) (drop 5 s)
          else
            match scan_number s with
            | Some r => r
            | None =>
                if String.prefix "NaN" s then Parsed (VFloat "NaN") (drop 3 s)
                else if String.prefix "Infinity" s
                then Parsed (VFloat "Infinity") (drop 8 s)
                else if String.prefix "-Infinity" s
                then Parsed (VFloat "-Infinity") (drop 9 s)
                else Malformed
            end
      end
  end

with object_items (fuel depth : nat) (pairs : list (string * value))
    (s : string) : parse value :=
  match fuel with
  | O => NoFuel
  | S fuel' =>
      match scanstring s with
      | Parsed key r =>
          match skip_ws r with
          | String c1 r1 =>
              if Ascii.eqb c1 ":" then
                match scan_once fuel' depth (skip_ws r1) with
                | Parsed v r2 =>
                    let pairs := dict_set key v pairs in
                    match skip_ws r2 with
                    | String c3 r3 =>
                        if Ascii.eqb c3 "}" then Parsed (VDict pairs) r3
                        else if Ascii.eqb c3 "," then
                          match skip_ws r3 with
                          | String c4 r4 =>
                              if Ascii.eqb c4 DQ
                              then object_items fuel' depth pairs r4
                              else Malformed
                          | EmptyString => Malformed
                          end
                        else Malformed
                    | EmptyString => Malformed
                    end
                | other => other
                end
              else Malformed
          | EmptyString => Malformed
          end
      | Malformed => Malformed
      | TooManyDigits => TooManyDigits
      | TooDeep => TooDeep
      | Beyond => Beyond
      | NoFuel => NoFuel
      end
  end

with array_items (fuel depth : nat) (values : list value) (s : string)
    : parse value :=
  match fuel with
  | O => NoFuel
  | S fuel' =>
      match scan_once fuel' depth s with
      | Parsed v r =>
          let values := values ++ [v] in
          match skip_ws r with
          | String c1 r1 =>
              if Ascii.eqb c1 "]" then Parsed (VList values) r1
              else if Ascii.eqb c1 ","
              then array_items fuel' depth values (skip_ws r1)
              else Malformed
          | EmptyString => Malformed
          end
      | other => other
      end
  end.

(** What a call of [json.loads] comes to: a value; [json.JSONDecodeError],
    which the code catches; another exception, which it does not; or no
    answer of the model. *)
Inductive loaded :=
| Loaded (v : value)
| DecodeError
| Raised (e : exn)
| Unmodelled.

(** [json.loads(text)]: one value between optional whitespace.
    [recursion_limit] is the number of nested calls left to the scanner
    when it starts, which depends on the depth of the call stack.  The
    budget of calls is never used up, so that the model has no answer
    only where a string holds a character above U+00FF. *)
Definition json_loads (recursion_limit : nat) (text : string) : loaded :=
  match scan_once (2 * String.length text + 2) recursion_limit (skip_ws text) with
  | Parsed v rest =>
      match skip_ws rest with
      | EmptyString => Loaded v
      | _ => DecodeError
      end
  | Malformed => DecodeError
  | TooManyDigits => Raised ValueError
  | TooDeep => Raised RecursionError
  | Beyond => Unmodelled
  | NoFuel => Unmodelled
  end.

(** *** Extraction *)

(** [r"```(?:json)?\s*\n?(.*?)\n?\s*```"] *)
Definition fence_pattern : list re_atom :=
  [ RLit "```"; ROptLit "json"; RStar isspace; ROptLit nl; RGroupLazyAny;
    ROptLit nl; RStar isspace; RLit "```" ].

(** The message of the error that [_extract_json] raises.  Its dash is
    U+2014, written here as it is encoded in the source file. *)
Definition UNPARSABLE : string :=
  "LLM returned a response that could not be parsed as JSON. "
  +:+ "This is usually transient — please try again.".

(** [_extract_json], for a text and the number of nested calls left to
    the scanner of [json].  The two calls of [json.loads] are made from
    the same frame.  The result is [None] where the model has no answer.
    Only [json.JSONDecodeError] is caught: the other exceptions of
    [json.loads] leave the function. *)
Definition _extract_json (recursion_limit : nat) (text : string)
    : option (result value) :=
  let text := strip isspace text in
  let text :=
    match re_search fence_pattern text with
    | Some group => strip isspace group
    | None => text
    end in
  match json_loads recursion_limit text with
  | Loaded v => Some (Ok v)
  | Raised e => Some (Raise e)
  | Unmodelled => None
  | DecodeError =>
      let brace_start := find "{" text in
      let brace_end := rfind "}" text in
      if negb (brace_start =? -1) && (brace_start <? brace_end) then
        match json_loads recursion_limit
                (slice brace_start (brace_end + 1) text) with
        | Loaded v => Some (Ok v)
        | Raised e => Some (Raise e)
        | Unmodelled => None
        | DecodeError => Some (Raise (LLMError UNPARSABLE 502))
        end
      else Some (Raise (LLMError UNPARSABLE 502))
  end.

(** *** Validation *)

Section Validation.

(** [bool(x)] and [str(x)] of the float that a literal denotes: the
    arithmetic of floats is not modelled. *)
Variable float_truthy : string -> bool.
Variable float_str : string -> string.

(** [bool(v)] *)
Definition py_truthy (v : value) : bool :=
  match v with
  | VNone => false
  | VBool b => b
  | VInt n => negb (n =? 0)
  | VFloat literal => float_truthy literal
  | VStr s => negb (String.eqb s "")
  | VList l => match l with [] => false | _ => true end
  | VDict d => match d with [] => false | _ => true end
  end.

Definition hex_char (n : N) : ascii :=
  if (n <? 10)%N then ascii_of_N (48 + n) else ascii_of_N (87 + n).

(** One character of [repr(s)] inside the quote [q]. *)
Definition repr_char (q c : ascii) : string :=
  if Ascii.eqb c q || Ascii.eqb c BACKSLASH then String BACKSLASH (String c "")
  else if Ascii.eqb c "009" then "\t"
  else if Ascii.eqb c "010" then "\n"
  else if Ascii.eqb c "013" then "\r"
  else if (code c <? 32)%N || between 127 160 c || (code c =? 173)%N
  then "\x" +:+ String (hex_char (code c / 16)) (String (hex_char (code c mod 16)) "")
  else String c "".

Fixpoint repr_chars (q : ascii) (s : string) : string :=
  match s with
  | EmptyString => EmptyString
  | String c s' => repr_char q c +:+ repr_chars q s'
  end.

(** [repr(s)] of a string: single quotes, unless the string has a single
    quote and no double quote. *)
Definition repr_str (s : string) : string :=
  let q := if contains_char "'" s && negb (contains_char DQ s)
           then DQ else "'"%char in
  String q (repr_chars q s) +:+ String q "".

(** [repr(v)] *)
Fixpoint py_repr (v : value) : string :=
  match v with
  | VNone => "None"
  | VBool true => "True"
  | VBool false => "False"
  | VInt n => str_int n
  | VFloat literal => float_str literal
  | VStr s => repr_str s
  | VList l => "[" +:+ join ", " (map py_repr l) +:+ "]"
  | VDict d =>
      "{" +:+ join ", "
                (map (fun kv => match kv with
                                | (k, w) => repr_str k +:+ ": " +:+ py_repr w
                                end) d)
          +:+ "}"
  end.

(** [str(v)] *)
Definition py_str (v : value) : string :=
  match v with
  | VStr s => s
  | _ => py_repr v
  end.

(** The cleaned dict that [_validate_response] returns. *)
Record summary := Summary {
  summary_text : string;
  technologies : list string;
  structure : string
}.

(** [f"LLM response is missing a valid '{field}' field."], with the
    default status code of [LLMError]. *)
Definition missing_field (field : string) : exn :=
  LLMError ("LLM response is missing a valid '" +:+ field +:+ "' field.") 502.

(** [isinstance(v, str) and v.strip()] *)
Definition nonblank_str (v : value) : option string :=
  match v with
  | VStr s => if String.eqb (strip isspace s) "" then None else Some s
  | _ => None
  end.

Definition _validate_response (data : list (string * value)) : result summary :=
  let summary := dict_get "summary" data in
  let technologies := dict_get "technologies" data in
  let structure := dict_get "structure" data in
  match nonblank_str summary with
  | None => Raise (missing_field "summary")
  | Some summary =>
      match technologies with
      | VList technologies =>
          match nonblank_str structure with
          | None => Raise (missing_field "structure")
          | Some structure =>
              let technologies := map py_str (filter py_truthy technologies) in
              Ok (Summary (strip isspace summary) technologies
                    (strip isspace structure))
          end
      | _ => Raise (missing_field "technologies")
      end
  end.

End Validation.

End llm_client.

(** ** app/github_fetcher.py *)

Module github_fetcher.

Import Py.

(** *** [urllib.parse.urlparse] *)

Section Urlparse.

(** [_check_bracketed_netloc]: whether the bracketed host of a netloc is
    an IPv6 or IPvFuture address.  The parsing of IP addresses is not
    modelled. *)
Variable bracketed_netloc_ok : string -> bool.

(** The fields of [ParseResult] that the code reads, with the netloc
    from which [hostname] is computed. *)
Record ParseResult := {
  scheme : string;
  netloc : string;
  url_path : string
}.

Definition is_c0_or_space (c : ascii) : bool := (code c <=? 32)%N.

(** [url.replace(b, "")] for the three characters that [urlsplit]
    removes: tab, carriage return, line feed. *)
Fixpoint remove_unsafe (s : string) : string :=
  match s with
  | EmptyString => EmptyString
  | String c s' =>
      if Ascii.eqb c "009" || Ascii.eqb c "013" || Ascii.eqb c "010"
      then remove_unsafe s' else String c (remove_unsafe s')
  end.

Definition is_ascii_alpha (c : ascii) : bool := between 65 90 c || between 97 122 c.

(** [c in scheme_chars] *)
Definition is_scheme_char (c : ascii) : bool :=
  is_ascii_alpha c || between 48 57 c
  || Ascii.eqb c "+" || Ascii.eqb c "-" || Ascii.eqb c ".".

Fixpoint all_chars (p : ascii -> bool) (s : string) : bool :=
  match s with
  | EmptyString => true
  | String c s' => p c && all_chars p s'
  end.

(** The part of [s] before the first character of the class [p], and the
    rest from that character on. *)
Fixpoint break_at (p : ascii -> bool) (s : string) : string * string :=
  match s with
  | EmptyString => (EmptyString, EmptyString)
  | String c s' =>
      if p c then (EmptyString, s)
      else let '(a, b) := break_at p s' in (String c a, b)
  end.

(** [s.partition(c)[0]] and [s.partition(c)[2]] *)
Definition before (c : ascii) (s : string) : string :=
  fst (break_at (Ascii.eqb c) s).

Definition after (c : ascii) (s : string) : string :=
  drop 1 (snd (break_at (Ascii.eqb c) s)).

(** [s.rpartition(c)[2]]: what follows the last [c], all of [s] when
    there is none. *)
Definition after_last (c : ascii) (s : string) : string :=
  drop (Z.to_nat (rfind c s + 1)) s.

(** The scheme and what follows it, when [url] starts with a scheme. *)
Definition split_scheme (url : string) : string * string :=
  let i := find ":" url in
  match url with
  | String c0 _ =>
      if (0 <? i) && is_ascii_alpha c0
         && all_chars is_scheme_char (take (Z.to_nat i) url)
      then (lower (take (Z.to_nat i) url), drop (Z.to_nat (i + 1)) url)
      else (EmptyString, url)
  | EmptyString => (EmptyString, url)
  end.

Definition is_netloc_delim (c : ascii) : bool :=
  Ascii.eqb c "/" || Ascii.eqb c "?" || Ascii.eqb c "#".

(** [urlsplit], up to the path; the query and the fragment are dropped.
    [None] stands for [ValueError]. *)
Definition urlsplit (url : string) : option ParseResult :=
  let url := lstrip is_c0_or_space url in
  let url := remove_unsafe url in
  let '(scheme, url) := split_scheme url in
  let '(netloc, url) :=
    if String.prefix "//" url then break_at is_netloc_delim (drop 2 url)
    else (EmptyString, url) in
  let has_open := contains_char "[" netloc in
  let has_close := contains_char "]" netloc in
  if (has_open && negb has_close) || (has_close && negb has_open) then None
  else if has_open && has_close && negb (bracketed_netloc_ok netloc) then None
  else
    let url := before "#" url in
    let url := before "?" url in
    Some {| scheme := scheme; netloc := netloc; url_path := url |}.

(** [scheme in uses_params] *)
Definition uses_params (scheme : string) : bool :=
  existsb (String.eqb scheme)
    [ ""; "ftp"; "hdl"; "prospero"; "http"; "imap"; "https"; "shttp"; "rtsp";
      "rtspu"; "sip"; "sips"; "mms"; "sftp"; "tel" ].

(** [_splitparams(url)[0]]: the path without the parameters of its last
    segment. *)
Definition strip_params (url : string) : string :=
  let last_slash := rfind "/" url in
  let head := take (Z.to_nat (last_slash + 1)) url in
  let tail := drop (Z.to_nat (last_slash + 1)) url in
  head +:+ before ";" tail.

Definition urlparse (url : string) : option ParseResult :=
  match urlsplit url with
  | None => None
  | Some r =>
      if uses_params (scheme r) && contains_char ";" (url_path r)
      then Some {| scheme := scheme r; netloc := netloc r;
                   url_path := strip_params (url_path r) |}
      else Some r
  end.

(** The property [hostname]: [None] when the netloc has no host. *)
Definition hostname (r : ParseResult) : option string :=
  let hostinfo := after_last "@" (netloc r) in
  let host :=
    if contains_char "[" hostinfo then before "]" (after "[" hostinfo)
    else before ":" hostinfo in
  match host with
  | EmptyString => None
  | _ => Some (lower (before "%" host) +:+ snd (break_at (Ascii.eqb "%") host))
  end.

(** *** URL parsing *)

(** The class [\w] of [re] on [str] patterns, on U+0000..U+00FF. *)
Definition is_word_char (c : ascii) : bool :=
  between 48 57 c || between 65 90 c || between 97 122 c || Ascii.eqb c "_"
  || (code c =? 170)%N || (code c =? 178)%N || (code c =? 179)%N
  || (code c =? 181)%N || (code c =? 185)%N || (code c =? 186)%N
  || between 188 190 c || between 192 214 c || between 216 246 c
  || between 248 255 c.

Definition is_name_char (c : ascii) : bool :=
  is_word_char c || Ascii.eqb c "." || Ascii.eqb c "-".

(** [name_pattern.match(s)] for the pattern [^[\w.\-]+$]: at least one
    character of the class up to the end of [s], or up to a line feed
    that ends [s]. *)
Definition name_pattern_match (s : string) : bool :=
  match s with
  | EmptyString => false
  | _ => all_chars is_name_char s
         || (endswith nl s && negb (String.eqb s nl)
             && all_chars is_name_char (slice_to (-1) s))
  end.

Definition NOT_GITHUB : string := "URL must be a github.com repository URL.".

Definition NO_OWNER_REPO : string :=
  "Could not extract owner/repo from the URL. "
  +:+ "Expected format: https://github.com/{owner}/{repo}".

Definition parse_github_url (url : string) : result (string * string) :=
  let url := rstrip (Ascii.eqb "/") (strip isspace url) in
  let url := if endswith ".git" url then slice_to (-4) url else url in
  match urlparse url with
  | None => Raise ValueError
  | Some parsed =>
      let host := hostname parsed in
      if negb (bool_decide (host = Some "github.com")
               || bool_decide (host = Some "www.github.com"))
      then Raise (GitHubFetchError NOT_GITHUB 400)
      else
        let parts :=
          filter (fun p => negb (String.eqb p ""))
                 (split "/" (strip (Ascii.eqb "/") (url_path parsed))) in
        match parts with
        | owner :: repo :: _ =>
            if negb (name_pattern_match owner) || negb (name_pattern_match repo)
            then Raise (GitHubFetchError
                          ("Invalid owner or repo name: " +:+ owner +:+ "/" +:+ repo)
                          400)
            else Ok (owner, repo)
        | _ => Raise (GitHubFetchError NO_OWNER_REPO 400)
        end
  end.

End Urlparse.

(** *** Fetching the contents of the selected files *)

Section Fetching.

(** [fetch_file_content] for the repository and the branch of the call:
    the content of the file at a path, [None] when it cannot be fetched.
    The requests of a batch run concurrently under [asyncio.gather]; what
    a request returns is taken to depend on its path only. *)
Variable fetch_file_content : string -> option string.

Definition batch_size : nat := 10.

(** [range(0, n, step)] for a positive step. *)
Definition range_step (n step : nat) : list nat :=
  map (fun k => (k * step)%nat) (seq 0 ((n + step - 1) / step)).

(** The loop over [zip(batch, contents)]. *)
Fixpoint store_contents (pairs : list (string * option string))
    (results : gmap string string) : gmap string string :=
  match pairs with
  | [] => results
  | (fp, Some content) :: rest => store_contents rest (<[fp := content]> results)
  | (fp, None) :: rest => store_contents rest results
  end.

(** The loop over the batches; [starts] is what is left of the range. *)
Fixpoint batches_loop (starts : list nat) (file_paths : list string)
    (results : gmap string string) : gmap string string :=
  match starts with
  | [] => results
  | i :: rest =>
      let batch := firstn batch_size (skipn i file_paths) in
      let contents := map fetch_file_content batch in
      batches_loop rest file_paths
        (store_contents (combine batch contents) results)
  end.

Definition fetch_files_content (file_paths : list string)
    : gmap string string :=
  batches_loop (range_step (length file_paths) batch_size) file_paths ∅.

End Fetching.

End github_fetcher.

(** ** [app/models.py] *)

Module models.

Import Py.

(** The constructs of the pattern of [validate_github_url], each taking
    what follows it in the pattern as a continuation, matched by
    backtracking as [re] does. *)

(** A literal. *)
Definition lit (l : string) (k : string -> option string) (s : string)
    : option string :=
  if String.prefix l s then k (drop (String.length l) s) else None.

(** [l?]: with [l] first, then without. *)
Definition opt_lit (l : string) (k : string -> option string) (s : string)
    : option string :=
  match lit l k s with
  | Some g => Some g
  | None => k s
  end.

(** [c+] for a character class: one character of the class, then [c*]. *)
Definition plus_greedy (p : ascii -> bool) (k : string -> option string)
    (s : string) : option string :=
  match s with
  | String c s' => if p c then star_greedy p k s' else None
  | EmptyString => None
  end.

(** [$] without [re.MULTILINE]: the end of the string, or a line feed
    that ends it. *)
Definition at_end (s : string) : option string :=
  if String.eqb s "" || String.eqb s nl then Some EmptyString else None.

(** [re.match(pattern, s)] for the pattern
    [^https?://github\.com/[\w.\-]+/[\w.\-]+/?$]. *)
Definition url_pattern_match (s : string) : bool :=
  match lit "http" (opt_lit "s" (lit "://github.com/"
          (plus_greedy github_fetcher.is_name_char (lit "/"
            (plus_greedy github_fetcher.is_name_char
              (opt_lit "/" at_end)))))) s with
  | Some _ => true
  | None => false
  end.

(** The validator of the field [github_url] of [SummarizeRequest]. *)
Definition validate_github_url (v : string) : result string :=
  if negb (url_pattern_match (strip isspace v)) then Raise ValueError
  else Ok (rstrip (Ascii.eqb "/") (strip isspace v)).

End models.

(** ** Predicates and sample inputs used in the statements *)

Module Spec.

Import Py config content_filter.

(** The order on sort keys [(tier, path)]: by tier, then by path in the
    lexicographic order of the code points. *)
Definition key_le (a b : candidate) : Prop :=
  tier a < tier b \/ (tier a = tier b /\ String.compare (path a) (path b) <> Gt).

(** What the loop of [select_files] lets through. *)
Definition eligible (tree : list item) (c : candidate) : Prop :=
  exists it, In it tree /\ item_type it = "blob" /\ item_path it = path c
    /\ get_size it = size c
    /\ _should_skip (path c) = false
    /\ tier c = _get_tier (path c) (size c) /\ tier c <> 99.

Definition sample_tree : list item :=
  [ Item "src/utils.py" "blob" (Some 1000);
    Item "README.md" "blob" (Some 5000);
    Item "src" "tree" None;
    Item "package.json" "blob" (Some 2000);
    Item "logo.png" "blob" (Some 50000);
    Item "src/main.py" "blob" (Some 1024);
    Item "node_modules/lib.js" "blob" (Some 900) ].

(** The pieces of a path that [_get_tier] looks at. *)
Definition filename_of (path : string) : string := lower (basename path).
Definition stem_of (path : string) : string := fst (splitext (filename_of path)).
Definition ext_of (path : string) : string := snd (splitext (filename_of path)).

Definition in_tiers_1_to_3 (path : string) : Prop :=
  filename_of path ∈ TIER_1_FILES \/ filename_of path ∈ TIER_2_FILES
  \/ filename_of path ∈ TIER_3_FILES.

Definition entry_point (path : string) : Prop :=
  stem_of path ∈ TIER_4_BASENAMES /\ ext_of path ∈ SOURCE_EXTENSIONS.

Definition root_init (path : string) : Prop :=
  filename_of path = "__init__.py" /\ contains_char "/" path = false.

(** The order of the checks of the tier classifier, as first-match rules:
    each rule carries the failure of the rules before it. *)
Inductive tier_rule (path : string) : Z -> Prop :=
| rule_tier_1 :
    filename_of path ∈ TIER_1_FILES -> tier_rule path 1
| rule_tier_2 :
    filename_of path ∉ TIER_1_FILES -> filename_of path ∈ TIER_2_FILES ->
    tier_rule path 2
| rule_tier_3 :
    filename_of path ∉ TIER_1_FILES -> filename_of path ∉ TIER_2_FILES ->
    filename_of path ∈ TIER_3_FILES -> tier_rule path 3
| rule_entry_point :
    ~ in_tiers_1_to_3 path -> entry_point path -> tier_rule path 4
| rule_root_init :
    ~ in_tiers_1_to_3 path -> ~ entry_point path -> root_init path ->
    tier_rule path 4
| rule_source :
    ~ in_tiers_1_to_3 path -> ~ entry_point path -> ~ root_init path ->
    ext_of path ∈ SOURCE_EXTENSIONS -> tier_rule path 5
| rule_docs :
    ~ in_tiers_1_to_3 path -> ~ root_init path ->
    ext_of path ∉ SOURCE_EXTENSIONS -> filename_of path ∈ TIER_6_FILES ->
    tier_rule path 6
| rule_excluded :
    ~ in_tiers_1_to_3 path -> ~ root_init path ->
    ext_of path ∉ SOURCE_EXTENSIONS -> filename_of path ∉ TIER_6_FILES ->
    tier_rule path 99.

(** The chain of checks as the specification's testable property lists
    it: tier-1 set, tier-2 set, tier-3 set, entry-point basename with a
    source extension, source extension, supplementary docs, else
    excluded. *)
Definition claimed_tier_order (path : string) : Z :=
  if mem (filename_of path) TIER_1_FILES then 1
  else if mem (filename_of path) TIER_2_FILES then 2
  else if mem (filename_of path) TIER_3_FILES then 3
  else if mem (stem_of path) TIER_4_BASENAMES && mem (ext_of path) SOURCE_EXTENSIONS
  then 4
  else if mem (ext_of path) SOURCE_EXTENSIONS then 5
  else if mem (filename_of path) TIER_6_FILES then 6
  else 99.

(** The line that closes a truncated file. *)
Definition truncation_notice (total_lines : Z) : string :=
  "... (truncated, " +:+ str_int total_lines +:+ " total lines)".

(** [c * n]: the string of [n] characters [c]. *)
Fixpoint replicate_char (n : nat) (c : ascii) : string :=
  match n with
  | O => ""
  | S n' => String c (replicate_char n' c)
  end.

(** The three sections that [build_context] emits before the file loop,
    and the value of [total_chars] when the loop starts. *)
Definition leading_sections (md : metadata) (tree : list item) : list string :=
  [ _build_metadata_section md;
    "=== DIRECTORY STRUCTURE ===" +:+ nl +:+ format_tree tree +:+ nl;
    "=== FILE CONTENTS ===" +:+ nl ].

Definition total_len (sections : list string) : Z :=
  fold_right (fun s acc => len s + acc) 0 sections.

(** The blocks of the candidates of [todo] that have a body, untruncated
    by the budget. *)
Fixpoint plain_blocks (file_contents : gmap string string)
    (todo : list candidate) : list string :=
  match todo with
  | [] => []
  | f :: rest =>
      match file_contents !! path f with
      | None => plain_blocks file_contents rest
      | Some content =>
          file_block (path f) (truncate_file_content content MAX_FILE_LINES)
            :: plain_blocks file_contents rest
      end
  end.

(** The number of candidates of [todo] that have a body. *)
Definition count_with_body (file_contents : gmap string string)
    (todo : list candidate) : Z :=
  Z.of_nat (length (filter
    (fun f => bool_decide (is_Some (file_contents !! path f))) todo)).

(** The file loop as the specification words it: a block that fits is
    appended; a block that does not fit, of a candidate of tier at most 3
    with more than the threshold left after the reserve, is cut to the room
    left, appended with its label, and the loop goes on; otherwise one line
    states how many of the candidates after the current one have a body,
    and the loop stops. *)
Fixpoint file_loop_as_specified (file_contents : gmap string string)
    (todo : list candidate) (sections : list string) (total_chars : Z)
    : list string :=
  match todo with
  | [] => sections
  | f :: rest =>
      match file_contents !! path f with
      | None => file_loop_as_specified file_contents rest sections total_chars
      | Some content =>
          let content := truncate_file_content content MAX_FILE_LINES in
          let block := file_block (path f) content in
          if MAX_CONTEXT_CHARS <? total_chars + len block then
            let available := MAX_CONTEXT_CHARS - total_chars - 200 in
            if (tier f <=? 3) && (500 <? available) then
              let cut := truncated_block (path f) (slice_to available content) in
              file_loop_as_specified file_contents rest
                (sections ++ [cut]) (total_chars + len cut)
            else sections ++ [omitted_notice (count_with_body file_contents rest)]
          else
            file_loop_as_specified file_contents rest
              (sections ++ [block]) (total_chars + len block)
      end
  end.

Definition sections_as_specified (md : metadata) (tree : list item)
    (file_contents : gmap string string) (selected_files : list candidate)
    : list string :=
  file_loop_as_specified file_contents selected_files
    (leading_sections md tree) (total_len (leading_sections md tree)).

(** Sample inputs of [build_context]. *)
Definition sample_metadata : metadata :=
  Metadata (Some "repo") (Some "owner") None None [] (Some 0).

(** A tree of one blob whose path is [n] letters long. *)
Definition long_path_tree (n : nat) : list item :=
  [ Item (replicate_char n "a") "blob" None ].

(** A README longer than the budget, followed by a one-line source file. *)
Definition big_readme_contents : gmap string string :=
  <["README.md" := replicate_char (Z.to_nat 250000) "x"]> (<["b.py" := "y"]> ∅).

Definition big_readme_selection : list candidate :=
  [ Candidate "README.md" 250000 1; Candidate "b.py" 1 5 ].

(** A short README, followed by a source file longer than the budget. *)
Definition big_source_contents : gmap string string :=
  <["README.md" := "hi"]> (<["main.py" := replicate_char (Z.to_nat 250000) "x"]> ∅).

Definition big_source_selection : list candidate :=
  [ Candidate "README.md" 2 1; Candidate "main.py" 250000 4 ].

(** *** The response recoverer *)







Definition response_with_falsy_technologies : list (string * llm_client.value) :=
  [ ("summary", llm_client.VStr "a");
    ("technologies",
     llm_client.VList [ llm_client.VStr "x"; llm_client.VStr "";
                        llm_client.VNone; llm_client.VStr "y" ]);
    ("structure", llm_client.VStr "b") ].





(** [p in s] for strings: [p] occurs in [s]. *)
Fixpoint contains_str (p s : string) : bool :=
  String.prefix p s
  || match s with
     | String _ s' => contains_str p s'
     | EmptyString => false
     end.

(** The text of a JSON object: an opening brace, a body, a closing brace. *)
Definition braced (body : string) : string := String "{" (body +:+ "}").

(** The text that [_extract_json] parses: the input trimmed, or, when a
    fence is found in it, the trimmed inside of the fence. *)
Definition fence_stripped (text : string) : string :=
  match re_search llm_client.fence_pattern (strip isspace text) with
  | Some group => strip isspace group
  | None => strip isspace text
  end.

(** The text from the first opening brace to the last closing brace,
    when the first comes before the last. *)
Definition brace_span (t : string) : option string :=
  if negb (find "{" t =? -1) && (find "{" t <? rfind "}" t)
  then Some (slice (find "{" t) (rfind "}" t + 1) t)
  else None.

(** The end of the fence pattern: an optional line feed, whitespace and
    the closing fence. *)
Definition closing : list re_atom := [ROptLit nl; RStar isspace; RLit "```"].

(** A text wrapped in a fenced code block with the language tag [tag]. *)
Definition fenced (tag text : string) : string :=
  "```" +:+ tag +:+ nl +:+ text +:+ nl +:+ "```".

(** Sample texts for the extraction: the object with the key a and the
    value 1, and the object with the key a whose value is a string that
    holds a fenced x. *)
Definition quoted (s : string) : string := String DQ s +:+ String DQ "".

Definition sample_object : string := braced (quoted "a" +:+ ": 1").

Definition object_with_fence : string :=
  braced (quoted "a" +:+ ": " +:+ quoted "```x```").

(** The forms of URL that the docstring of [parse_github_url] lists:
    what comes before the owner, and what may follow the repository
    name. *)
Definition repo_url_prefixes : list string :=
  [ "https://github.com/"; "http://github.com/";
    "https://www.github.com/"; "http://www.github.com/" ].

Definition repo_url_suffixes : list string := [ ""; "/"; ".git"; ".git/" ].

End Spec.

(** * Properties *)

Import Py config content_filter Spec.

(** ** Evaluation of membership in the constant tables *)

Lemma mem_true (x : string) (S : gset string) : mem x S = true <-> x ∈ S.
Proof. unfold mem. apply bool_decide_eq_true. Qed.

Lemma mem_false (x : string) (S : gset string) : mem x S = false <-> x ∉ S.
Proof. unfold mem. apply bool_decide_eq_false. Qed.

(** ** File selection *)

Section Selection.

Lemma key_leb_le a b : key_leb a b = true -> key_le a b.
Proof.
  unfold key_leb, key_le, String.leb. intros H.
  apply orb_true_iff in H as [H | H].
  - left. lia.
  - apply andb_true_iff in H as [Ht Hp]. right. split; [lia |].
    destruct (String.compare (path a) (path b)); congruence.
Qed.

Lemma key_leb_total a b : key_leb a b = false -> key_le b a.
Proof.
  unfold key_leb, key_le, String.leb. intros H.
  apply orb_false_iff in H as [Ht H].
  apply Z.ltb_ge in Ht.
  destruct (Z.eq_dec (tier a) (tier b)) as [E | NE]; [| left; lia].
  right. split; [lia |].
  rewrite (proj2 (Z.eqb_eq _ _) E) in H. simpl in H.
  rewrite String.compare_antisym.
  destruct (String.compare (path a) (path b)); simpl; congruence.
Qed.

Lemma insert_sorted_perm x l : Permutation (insert_sorted x l) (x :: l).
Proof.
  induction l as [| y l IH]; simpl; [reflexivity |].
  destruct (key_leb x y); [reflexivity |].
  rewrite IH. apply perm_swap.
Qed.

Lemma sort_candidates_perm l : Permutation (sort_candidates l) l.
Proof.
  induction l as [| x l IH]; simpl; [reflexivity |].
  rewrite insert_sorted_perm. now constructor.
Qed.

Lemma insert_sorted_hd a x l :
  key_le a x -> HdRel key_le a l -> HdRel key_le a (insert_sorted x l).
Proof.
  intros Hax Hl. destruct l as [| y l]; simpl.
  - now constructor.
  - destruct (key_leb x y); constructor; trivial.
    now inversion Hl.
Qed.

Lemma insert_sorted_sorted x l :
  Sorted key_le l -> Sorted key_le (insert_sorted x l).
Proof.
  induction l as [| y l IH]; intros Hs; simpl.
  - repeat constructor.
  - destruct (key_leb x y) eqn:E.
    + constructor; [assumption |]. constructor. now apply key_leb_le.
    + inversion Hs; subst. constructor; [now apply IH |].
      apply insert_sorted_hd; [now apply key_leb_total | assumption].
Qed.

Lemma sort_candidates_sorted l : Sorted key_le (sort_candidates l).
Proof.
  induction l as [| x l IH]; simpl; [constructor |].
  now apply insert_sorted_sorted.
Qed.

Lemma collect_candidates_eligible tree c :
  In c (collect_candidates tree) -> eligible tree c.
Proof.
  induction tree as [| it rest IH]; simpl; [tauto |].
  assert (Hrec : In c (collect_candidates rest) -> eligible (it :: rest) c).
  { intros H. destruct (IH H) as [it' [Hin Hp]]. exists it'. split; [now right | exact Hp]. }
  destruct (String.eqb_spec (item_type it) "blob") as [Hb | Hb]; simpl; [| exact Hrec].
  destruct (_should_skip (item_path it)) eqn:Hskip; [exact Hrec |].
  destruct (_get_tier (item_path it) (get_size it) =? 99) eqn:Ht; [exact Hrec |].
  intros [<- | H]; [| now apply Hrec].
  exists it. simpl. apply Z.eqb_neq in Ht. repeat split; auto.
Qed.

Lemma collect_candidates_paths tree p :
  In p (map path (collect_candidates tree)) -> In p (map item_path tree).
Proof.
  induction tree as [| it rest IH]; simpl; [tauto |].
  destruct (negb _); [auto |].
  destruct (_should_skip _); [auto |].
  destruct (_ =? 99); [auto |].
  simpl. intros [H | H]; auto.
Qed.

Lemma collect_candidates_nodup tree :
  List.NoDup (map item_path tree) -> List.NoDup (map path (collect_candidates tree)).
Proof.
  induction tree as [| it rest IH]; simpl; intros Hnd; [constructor |].
  apply List.NoDup_cons_iff in Hnd as [Hnotin Hnd].
  destruct (negb _); [auto |].
  destruct (_should_skip _); [auto |].
  destruct (_ =? 99); [auto |].
  simpl. constructor; [| auto].
  intros Hin. apply Hnotin. now apply collect_candidates_paths.
Qed.

(** C6: for a tree whose entries have pairwise distinct paths, every
    candidate that [select_files] returns comes from a blob entry that is
    neither skipped nor excluded (tier 99), the candidates have pairwise
    distinct paths, and the list is sorted ascending by [(tier, path)]:
    each candidate's key is at most the key of the next one. *)
Theorem select_files_sorted_unique (tree : list item) :
  List.NoDup (map item_path tree) ->
  (forall c, In c (select_files tree) -> eligible tree c)
  /\ List.NoDup (map path (select_files tree))
  /\ Sorted key_le (select_files tree).
Proof.
  intros Hnd. unfold select_files. split; [| split].
  - intros c Hin. apply collect_candidates_eligible.
    eapply Permutation_in; [apply sort_candidates_perm | exact Hin].
  - eapply Permutation_NoDup.
    + apply Permutation_map. symmetry. apply sort_candidates_perm.
    + now apply collect_candidates_nodup.
  - apply sort_candidates_sorted.
Qed.

Lemma select_files_sorted_unique_witness :
  List.NoDup (map item_path sample_tree)
  /\ (forall c, In c (select_files sample_tree) -> eligible sample_tree c)
  /\ List.NoDup (map path (select_files sample_tree))
  /\ Sorted key_le (select_files sample_tree).
Proof.
  assert (H : List.NoDup (map item_path sample_tree)).
  { simpl. repeat (constructor; [simpl; intuition discriminate |]). constructor. }
  split; [exact H | exact (select_files_sorted_unique sample_tree H)].
Defined.

End Selection.


(** ** Skip rules *)

Section Skip.

(** Where the lower-cased extension that [os.path.splitext] finds is
    literally in [SKIP_EXTENSIONS], the path is skipped, whatever its
    directory. *)
Lemma should_skip_listed_extension (path : string) :
  snd (splitext (last_part (split "/" (lower path)))) ∈ SKIP_EXTENSIONS ->
  _should_skip path = true.
Proof.
  intros H. unfold _should_skip.
  destruct (existsb _ _); [reflexivity |].
  destruct (mem (last_part _) SKIP_FILES); [reflexivity |].
  apply mem_true in H. now rewrite H.
Qed.

(** C4: three members of [SKIP_EXTENSIONS] never match.  [.min.js] and
    [.min.css] have two dots, and [splitext] returns only what follows the
    last one; [.DS_Store] has capitals, and the extension is compared after
    lower-casing the path.  Files with these extensions are not skipped. *)
Theorem should_skip_misses_listed_extensions :
  (".min.js" ∈ SKIP_EXTENSIONS /\ _should_skip "app.min.js" = false)
  /\ (".min.css" ∈ SKIP_EXTENSIONS /\ _should_skip "static/site.min.css" = false)
  /\ (".DS_Store" ∈ SKIP_EXTENSIONS /\ _should_skip ".DS_Store" = false
      /\ _should_skip "docs/x.DS_Store" = false).
Proof.
  split; [split; [apply mem_true |]; vm_compute; reflexivity |].
  split; [split; [apply mem_true |]; vm_compute; reflexivity |].
  split; [apply mem_true; vm_compute; reflexivity |].
  split; vm_compute; reflexivity.
Qed.

End Skip.

(** ** Tier classification *)

Section Tiers.

Lemma not_in_tiers_1_to_3 path :
  filename_of path ∉ TIER_1_FILES -> filename_of path ∉ TIER_2_FILES ->
  filename_of path ∉ TIER_3_FILES -> ~ in_tiers_1_to_3 path.
Proof. unfold in_tiers_1_to_3. tauto. Qed.

Lemma get_tier_follows_rules (path : string) (size : Z) :
  tier_rule path (_get_tier path size).
Proof.
  unfold _get_tier. fold (filename_of path). fold (stem_of path). fold (ext_of path).
  destruct (mem (filename_of path) TIER_1_FILES) eqn:H1.
  { apply rule_tier_1. now apply mem_true. }
  apply mem_false in H1.
  destruct (mem (filename_of path) TIER_2_FILES) eqn:H2.
  { apply rule_tier_2; [assumption | now apply mem_true]. }
  apply mem_false in H2.
  destruct (mem (filename_of path) TIER_3_FILES) eqn:H3.
  { apply rule_tier_3; [assumption | assumption | now apply mem_true]. }
  apply mem_false in H3.
  pose proof (not_in_tiers_1_to_3 path H1 H2 H3) as H123.
  destruct (mem (stem_of path) TIER_4_BASENAMES && mem (ext_of path) SOURCE_EXTENSIONS) eqn:H4.
  { apply andb_true_iff in H4 as [Ha Hb].
    apply rule_entry_point; [assumption |]. split; now apply mem_true. }
  assert (Hne : ~ entry_point path).
  { intros [Ha Hb]. apply mem_true in Ha, Hb. rewrite Ha, Hb in H4. discriminate. }
  destruct ((filename_of path =? "__init__.py")%string && negb (contains_char "/" path)) eqn:H5.
  { apply andb_true_iff in H5 as [Ha Hb].
    apply rule_root_init; [assumption | assumption |]. split.
    - now apply String.eqb_eq.
    - now apply negb_true_iff. }
  assert (Hnr : ~ root_init path).
  { intros [Ha Hb]. apply String.eqb_eq in Ha. rewrite Ha, Hb in H5. discriminate. }
  destruct (mem (ext_of path) SOURCE_EXTENSIONS) eqn:H6.
  { apply rule_source; try assumption. now apply mem_true. }
  apply mem_false in H6.
  destruct (mem (filename_of path) TIER_6_FILES) eqn:H7.
  { apply rule_docs; try assumption. now apply mem_true. }
  apply mem_false in H7.
  now apply rule_excluded.
Qed.

(** The rules determine the tier: they overlap nowhere. *)
Lemma tier_rule_functional (path : string) (t1 t2 : Z) :
  tier_rule path t1 -> tier_rule path t2 -> t1 = t2.
Proof.
  intros R1 R2; destruct R1; destruct R2; try reflexivity; exfalso;
    unfold in_tiers_1_to_3, entry_point in *;
    repeat match goal with
           | H : context [?x ∈ ?S] |- _ =>
               let P := fresh "P" in set (P := x ∈ S) in *; clearbody P
           end;
    tauto.
Qed.

(** C5, as amended: for every size the classifier returns 1 for README.md,
    2 for package.json, 3 for Dockerfile, 4 for main.py, 5 for src/utils.py,
    6 for LICENSE and the excluded sentinel 99 for data.csv; and for every
    path its result follows the first-match rules in the order tier-1 set,
    tier-2 set, tier-3 set, entry-point basename with a source extension
    (4), root-level [__init__.py] (4), source extension (5), supplementary
    docs (6), else excluded. *)
Theorem get_tier_examples_and_order (size : Z) :
  _get_tier "README.md" size = 1
  /\ _get_tier "package.json" size = 2
  /\ _get_tier "Dockerfile" size = 3
  /\ _get_tier "main.py" size = 4
  /\ _get_tier "src/utils.py" size = 5
  /\ _get_tier "LICENSE" size = 6
  /\ _get_tier "data.csv" size = 99
  /\ (forall path t, _get_tier path size = t <-> tier_rule path t).
Proof.
  do 7 (split; [vm_compute; reflexivity |]).
  intros path t. split.
  - intros <-. apply get_tier_follows_rules.
  - intros R. eapply tier_rule_functional; [apply get_tier_follows_rules | exact R].
Qed.

(** C5 as stated fails: a root-level [__init__.py] is tier 4, where the
    listed chain of checks, which has no rule for it, gives tier 5. *)
Lemma get_tier_root_init_off_claimed_order :
  _get_tier "__init__.py" 0 = 4 /\ claimed_tier_order "__init__.py" = 5
  /\ _get_tier "__init__.py" 0 <> claimed_tier_order "__init__.py".
Proof.
  split; [vm_compute; reflexivity |]. split; [vm_compute; reflexivity |].
  vm_compute. discriminate.
Qed.

End Tiers.

(** ** Strings: splitting and joining *)

Section Strings.

Lemma append_cons c (s t : string) : String c s +:+ t = String c (s +:+ t).
Proof. reflexivity. Qed.

Lemma append_nil_l (s : string) : "" +:+ s = s.
Proof. reflexivity. Qed.

Lemma append_nil_r (s : string) : s +:+ "" = s.
Proof.
  induction s as [| c s IH]; [reflexivity |].
  now rewrite append_cons, IH.
Qed.

Lemma append_assoc (a b c : string) : (a +:+ b) +:+ c = a +:+ (b +:+ c).
Proof.
  induction a as [| x a IH]; [reflexivity |].
  now rewrite !append_cons, IH.
Qed.

Lemma length_append (a b : string) :
  String.length (a +:+ b) = (String.length a + String.length b)%nat.
Proof.
  induction a as [| x a IH]; [reflexivity |].
  rewrite append_cons. simpl. now rewrite IH.
Qed.

Lemma len_append (a b : string) : len (a +:+ b) = len a + len b.
Proof. unfold len. rewrite length_append. lia. Qed.

Lemma len_nonneg (s : string) : 0 <= len s.
Proof. unfold len. lia. Qed.

Lemma contains_char_append c (a b : string) :
  contains_char c (a +:+ b) = contains_char c a || contains_char c b.
Proof.
  induction a as [| x a IH]; [reflexivity |].
  rewrite append_cons. simpl. rewrite IH. now rewrite orb_assoc.
Qed.

Lemma split_not_nil c s : split c s <> [].
Proof.
  destruct s as [| x s]; simpl; [discriminate |].
  destruct (Ascii.eqb x c); [discriminate |].
  destruct (split c s); discriminate.
Qed.

Lemma split_app_sep c (s1 s2 : string) :
  split c (s1 +:+ String c s2) = split c s1 ++ split c s2.
Proof.
  induction s1 as [| x s1 IH]; [rewrite append_nil_l | rewrite append_cons]; simpl.
  - now rewrite Ascii.eqb_refl.
  - destruct (Ascii.eqb x c); rewrite IH; [reflexivity |].
    destruct (split c s1) eqn:E; [now apply split_not_nil in E | reflexivity].
Qed.

Lemma split_no_sep c s : contains_char c s = false -> split c s = [s].
Proof.
  induction s as [| x s IH]; simpl; [reflexivity |].
  intros H. apply orb_false_iff in H as [Hx Hs].
  rewrite Ascii.eqb_sym, Hx. now rewrite (IH Hs).
Qed.

Lemma split_pieces c s : Forall (fun x => contains_char c x = false) (split c s).
Proof.
  induction s as [| x s IH]; simpl; [repeat constructor |].
  destruct (Ascii.eqb x c) eqn:E; [constructor; [reflexivity | exact IH] |].
  destruct (split c s) as [| piece rest]; [repeat constructor; simpl |].
  - now rewrite Ascii.eqb_sym, E.
  - inversion IH; subst. constructor; [| assumption].
    simpl. now rewrite Ascii.eqb_sym, E.
Qed.

Lemma split_join c (l : list string) :
  l <> [] -> Forall (fun x => contains_char c x = false) l ->
  split c (join (String c "") l) = l.
Proof.
  induction l as [| x l IH]; [congruence |].
  intros _ Hall. inversion Hall as [| ? ? Hx Hl]; subst.
  destruct l as [| y l].
  - simpl. now apply split_no_sep.
  - change (join (String c "") (x :: y :: l))
      with (x +:+ String c (join (String c "") (y :: l))).
    rewrite split_app_sep, (split_no_sep _ _ Hx), IH; [reflexivity | discriminate | assumption].
Qed.

Lemma Forall_firstn {A} (P : A -> Prop) n (l : list A) :
  Forall P l -> Forall P (firstn n l).
Proof.
  revert n. induction l as [| x l IH]; intros [| n] H; simpl; try constructor.
  - now inversion H.
  - apply IH. now inversion H.
Qed.

(** Decimal numerals hold no line feed. *)
Lemma string_of_uint_no_LF (d : Decimal.uint) :
  contains_char LF (NilEmpty.string_of_uint d) = false.
Proof. induction d; simpl; auto. Qed.

Lemma str_int_no_LF (n : Z) : contains_char LF (str_int n) = false.
Proof.
  unfold str_int, NilZero.string_of_int, NilZero.string_of_uint.
  destruct (Z.to_int n) as [d | d].
  - destruct d; try reflexivity; apply (string_of_uint_no_LF (_ d)) || apply string_of_uint_no_LF.
  - destruct d; try reflexivity; simpl; apply (string_of_uint_no_LF (_ d)) || apply string_of_uint_no_LF.
Qed.

End Strings.

(** ** Per-file truncation *)

Section Truncation.

Lemma truncation_notice_no_LF n : contains_char LF (truncation_notice n) = false.
Proof.
  unfold truncation_notice.
  rewrite !contains_char_append, str_int_no_LF. reflexivity.
Qed.

Lemma truncate_file_content_over (content : string) (max_lines : Z) :
  max_lines < Z.of_nat (length (split LF content)) ->
  truncate_file_content content max_lines
  = join nl (list_slice_to max_lines (split LF content))
    +:+ String LF (String LF (truncation_notice (Z.of_nat (length (split LF content))))).
Proof.
  intros H. unfold truncate_file_content.
  destruct (Z.leb_spec (Z.of_nat (length (split LF content))) max_lines); [lia |].
  reflexivity.
Qed.

(** C7, as amended: content of at most [max_lines] lines is returned
    unchanged; content of more than [max_lines] lines (for a limit of at
    least one line) is returned as exactly its first [max_lines] lines, one
    empty line and one truncation-notice line that states the original
    number of lines. *)
Theorem truncate_file_content_lines (content : string) (max_lines : Z) :
  (Z.of_nat (length (split LF content)) <= max_lines ->
   truncate_file_content content max_lines = content)
  /\ (1 <= max_lines < Z.of_nat (length (split LF content)) ->
      split LF (truncate_file_content content max_lines)
      = firstn (Z.to_nat max_lines) (split LF content)
        ++ [""; truncation_notice (Z.of_nat (length (split LF content)))]).
Proof.
  split.
  - intros H. unfold truncate_file_content.
    destruct (Z.leb_spec (Z.of_nat (length (split LF content))) max_lines); [reflexivity | lia].
  - intros [Hlo Hhi].
    rewrite truncate_file_content_over by lia.
    unfold list_slice_to. destruct (Z.leb_spec 0 max_lines); [| lia].
    rewrite split_app_sep. f_equal.
    + apply split_join.
      * destruct (split LF content) as [| x l] eqn:E; [now apply split_not_nil in E |].
        destruct (Z.to_nat max_lines) eqn:En; [lia | discriminate].
      * apply Forall_firstn, split_pieces.
    + change (split LF (String LF ?x)) with ("" :: split LF x). f_equal.
      apply split_no_sep, truncation_notice_no_LF.
Qed.

Lemma truncate_file_content_lines_witness :
  truncate_file_content ("a" +:+ nl +:+ "b") 300 = "a" +:+ nl +:+ "b"
  /\ split LF (truncate_file_content ("a" +:+ nl +:+ "b" +:+ nl +:+ "c") 2)
     = ["a"; "b"; ""; "... (truncated, 3 total lines)"].
Proof.
  split.
  - apply (proj1 (truncate_file_content_lines ("a" +:+ nl +:+ "b") 300)).
    vm_compute. discriminate.
  - apply (proj2 (truncate_file_content_lines ("a" +:+ nl +:+ "b" +:+ nl +:+ "c") 2)).
    vm_compute. split; [discriminate | reflexivity].
Defined.

(** C7 as stated fails: the result of truncating two lines to one is not
    the first line followed by the notice line alone; an empty line stands
    between them. *)
Lemma truncate_file_content_has_blank_line :
  split LF (truncate_file_content ("a" +:+ nl +:+ "b") 1)
  = ["a"; ""; "... (truncated, 2 total lines)"]
  /\ split LF (truncate_file_content ("a" +:+ nl +:+ "b") 1)
     <> firstn 1 (split LF ("a" +:+ nl +:+ "b")) ++ [truncation_notice 2].
Proof.
  split; [vm_compute; reflexivity | vm_compute; discriminate].
Qed.

End Truncation.

(** ** Context assembly *)

Section Context.

Lemma build_sections_unfold md tree fc sel :
  build_sections md tree fc sel
  = file_loop fc sel sel (leading_sections md tree) (total_len (leading_sections md tree)).
Proof.
  unfold build_sections, leading_sections, total_len. simpl.
  f_equal. lia.
Qed.

Lemma total_len_app l1 l2 : total_len (l1 ++ l2) = total_len l1 + total_len l2.
Proof.
  unfold total_len. induction l1 as [| x l1 IH]; simpl; [reflexivity |].
  rewrite IH. lia.
Qed.

Lemma total_len_nonneg l : 0 <= total_len l.
Proof.
  unfold total_len. induction l as [| x l IH]; simpl; [lia |].
  pose proof (len_nonneg x). lia.
Qed.

(** While the blocks fit, the loop appends them one after the other and
    [total_chars] is the length of all that was appended. *)
Lemma file_loop_fitting fc all pre rest sections total :
  total + total_len (plain_blocks fc pre) <= MAX_CONTEXT_CHARS ->
  file_loop fc all (pre ++ rest) sections total
  = file_loop fc all rest (sections ++ plain_blocks fc pre)
      (total + total_len (plain_blocks fc pre)).
Proof.
  revert sections total.
  induction pre as [| f pre IH]; intros sections total Hfit; simpl.
  - rewrite app_nil_r. f_equal. unfold total_len. simpl. lia.
  - simpl in Hfit. destruct (fc !! path f) as [content |] eqn:E.
    + change (total_len (?b :: ?l)) with (len b + total_len l) in *.
      pose proof (total_len_nonneg (plain_blocks fc pre)).
      destruct (Z.ltb_spec MAX_CONTEXT_CHARS
                  (total + len (file_block (path f)
                     (truncate_file_content content MAX_FILE_LINES)))); [lia |].
      rewrite IH by lia. rewrite <- app_assoc. simpl. f_equal. lia.
    + now apply IH.
Qed.

(** When the block of a candidate of tier at most 3 does not fit and more
    than 500 characters are left after the reserve of 200, the loop appends
    the cut block and the omission notice and stops: no candidate after it
    is considered. *)
Lemma build_sections_truncates_then_stops md tree fc pre f rest content :
  let total := total_len (leading_sections md tree) + total_len (plain_blocks fc pre) in
  let body := truncate_file_content content MAX_FILE_LINES in
  total <= MAX_CONTEXT_CHARS ->
  fc !! path f = Some content ->
  MAX_CONTEXT_CHARS < total + len (file_block (path f) body) ->
  tier f <= 3 ->
  500 < MAX_CONTEXT_CHARS - total - 200 ->
  build_sections md tree fc (pre ++ f :: rest)
  = leading_sections md tree ++ plain_blocks fc pre
    ++ [ truncated_block (path f) (slice_to (MAX_CONTEXT_CHARS - total - 200) body);
         omitted_notice (remaining_count fc (pre ++ f :: rest) (path f)) ].
Proof.
  intros total body Hfit Hbody Hover Htier Hroom.
  rewrite build_sections_unfold, file_loop_fitting by exact Hfit.
  fold total. simpl. rewrite Hbody. fold body.
  destruct (Z.ltb_spec MAX_CONTEXT_CHARS (total + len (file_block (path f) body))); [| lia].
  destruct (Z.leb_spec (tier f) 3); [| lia].
  destruct (Z.ltb_spec 500 (MAX_CONTEXT_CHARS - total - 200)); [| lia].
  simpl. now rewrite <- app_assoc.
Qed.

(** *** A path of [n] letters in the tree *)

Lemma replicate_char_length n c : String.length (replicate_char n c) = n.
Proof. induction n as [| n IH]; simpl; [reflexivity | now rewrite IH]. Qed.

Lemma len_replicate_char n c : len (replicate_char n c) = Z.of_nat n.
Proof. unfold len. now rewrite replicate_char_length. Qed.

Lemma replicate_a_no_slash n : contains_char "/" (replicate_char n "a") = false.
Proof. induction n as [| n IH]; simpl; [reflexivity | exact IH]. Qed.

Lemma replicate_a_lower n : lower (replicate_char n "a") = replicate_char n "a".
Proof. induction n as [| n IH]; simpl; [reflexivity | now rewrite IH]. Qed.

Lemma replicate_a_rfind_from_dot n i :
  rfind_from i "." (replicate_char n "a") = -1.
Proof.
  revert i. induction n as [| n IH]; intros i; simpl; [reflexivity |].
  now rewrite IH.
Qed.

Lemma replicate_a_splitext n :
  splitext (replicate_char n "a") = (replicate_char n "a", "").
Proof.
  unfold splitext, rfind. rewrite replicate_a_rfind_from_dot.
  destruct (rfind_from 0 "/" (replicate_char n "a") <? -1) eqn:E; [| reflexivity].
  exfalso. apply Z.ltb_lt in E.
  assert (H : forall m i, -1 <= rfind_from i "/" (replicate_char m "a")).
  { induction m as [| m IH]; intros i; simpl; [lia |].
    specialize (IH (i + 1)). destruct (0 <=? _); lia. }
  specialize (H n 0). lia.
Qed.

Lemma replicate_a_not_skip_file n : mem (replicate_char n "a") SKIP_FILES = false.
Proof.
  apply mem_false. unfold SKIP_FILES. intros H.
  apply elem_of_list_to_set in H.
  repeat (apply elem_of_cons in H as [H | H]; [destruct n; discriminate |]).
  now apply elem_of_nil in H.
Qed.

Lemma format_tree_long_path n :
  format_tree (long_path_tree n) = replicate_char n "a".
Proof.
  unfold format_tree, long_path_tree, format_tree_loop, last_part.
  cbv zeta. unfold item_path, item_type, get_size, item_size.
  rewrite (split_no_sep _ _ (replicate_a_no_slash n)).
  unfold removelast, existsb, List.last.
  rewrite replicate_a_lower, replicate_a_splitext.
  unfold snd. rewrite replicate_a_not_skip_file.
  reflexivity.
Qed.

(** C1: the length of the result of [build_context] has no bound of the
    form budget plus a constant.  The metadata and tree sections are
    counted in [total_chars] but emitted unchecked: for every proposed
    slack, a tree of one blob whose path has [MAX_CONTEXT_CHARS + slack]
    letters gives a context longer than the budget plus that slack. *)
Theorem build_context_exceeds_any_slack (slack : nat) :
  MAX_CONTEXT_CHARS + Z.of_nat slack
  < len (build_context sample_metadata
           (long_path_tree (Z.to_nat MAX_CONTEXT_CHARS + slack)) ∅ []).
Proof.
  unfold build_context. rewrite build_sections_unfold.
  unfold file_loop, leading_sections.
  rewrite format_tree_long_path.
  unfold join, String.concat.
  rewrite !len_append.
  rewrite len_replicate_char.
  rewrite Nat2Z.inj_add, Z2Nat.id by (unfold MAX_CONTEXT_CHARS; lia).
  pose proof (len_nonneg (_build_metadata_section sample_metadata)).
  pose proof (len_nonneg "=== FILE CONTENTS ===").
  pose proof (len_nonneg "=== DIRECTORY STRUCTURE ===").
  assert (len nl = 1) by reflexivity.
  lia.
Qed.

(** *** The budget cut at concrete inputs *)

(** C2: a README (tier 1) longer than the budget is followed by a source
    file of one line.  The README is cut to the room left and appended with
    its label; then the omission notice follows and the loop has ended: the
    source file is reported as omitted although its block fits in what is
    left of the budget, and although the loop as specified appends it. *)
Theorem build_context_stops_after_truncated_block :
  let sections :=
    build_sections sample_metadata [] big_readme_contents big_readme_selection in
  length sections = 5%nat
  /\ startswith "--- README.md (truncated to fit budget) ---" (nth 3 sections "") = true
  /\ nth 4 sections "" = omitted_notice 1
  /\ total_len (firstn 4 sections) + len (file_block "b.py" "y") <= MAX_CONTEXT_CHARS
  /\ List.last (sections_as_specified sample_metadata []
                  big_readme_contents big_readme_selection) ""
     = file_block "b.py" "y".
Proof.
  cbv zeta.
  split; [vm_compute; reflexivity |].
  split; [vm_compute; reflexivity |].
  split; [vm_compute; reflexivity |].
  split; [apply Z.leb_le; vm_compute; reflexivity |].
  vm_compute; reflexivity.
Qed.

(** C9: a short README (tier 1) is followed by a source file (tier 4)
    longer than the budget.  The README is included, the source file stops
    the loop, and no candidate is left after it; yet the notice states one
    omitted file, because the count runs over the whole selection and so
    takes in the README that was included.  The loop as specified states
    zero. *)
Theorem build_context_counts_included_files_as_omitted :
  build_sections sample_metadata [] big_source_contents big_source_selection
  = leading_sections sample_metadata []
    ++ [file_block "README.md" "hi"; omitted_notice 1]
  /\ count_with_body big_source_contents [] = 0
  /\ sections_as_specified sample_metadata [] big_source_contents big_source_selection
     = leading_sections sample_metadata []
       ++ [file_block "README.md" "hi"; omitted_notice 0].
Proof.
  split; [vm_compute; reflexivity |].
  split; [vm_compute; reflexivity |].
  vm_compute; reflexivity.
Qed.

End Context.


(** ** Validation of the model's response *)

Section Validation.

Import llm_client.

Variable float_truthy : string -> bool.
Variable float_str : string -> string.

Lemma nonblank_str_some v s :
  nonblank_str v = Some s <-> v = VStr s /\ strip isspace s <> "".
Proof.
  unfold nonblank_str. destruct v; try (split; [discriminate | intros [[=] _]]).
  destruct (String.eqb_spec (strip isspace s0) "") as [E | NE].
  - split; [discriminate |]. intros [[= ->] H]. contradiction.
  - split.
    + intros [= ->]. auto.
    + intros [[= ->] _]. reflexivity.
Qed.







End Validation.

(** ** Parsing of the repository URL *)

Section Url.

Import github_fetcher.

Variable bracketed_netloc_ok : string -> bool.

(** C10: [urlparse] raises [ValueError] on a netloc with an unmatched
    bracket, and [parse_github_url] lets it through: on such a URL it
    neither raises its error with status 400 nor returns an owner and a
    repository. *)
Theorem parse_github_url_unmatched_bracket :
  parse_github_url bracketed_netloc_ok "https://[github.com/owner/repo"
  = Raise ValueError
  /\ parse_github_url bracketed_netloc_ok "https://github.com]/owner/repo"
     = Raise ValueError.
Proof. split; reflexivity. Qed.

End Url.

(** ** Strings: reversal, trimming, searching *)

Section Trimming.

Lemma rev_string_aux_app (s acc : string) :
  rev_string_aux s acc = rev_string s +:+ acc.
Proof.
  unfold rev_string. revert acc.
  induction s as [| c s IH]; intros acc; simpl; [reflexivity |].
  rewrite (IH (String c acc)), (IH (String c "")).
  now rewrite append_assoc.
Qed.

Lemma rev_string_cons c (s : string) :
  rev_string (String c s) = rev_string s +:+ String c "".
Proof. unfold rev_string at 1. simpl. apply rev_string_aux_app. Qed.

Lemma rev_string_app (a b : string) :
  rev_string (a +:+ b) = rev_string b +:+ rev_string a.
Proof.
  induction a as [| c a IH].
  - rewrite append_nil_l. change (rev_string "") with "". now rewrite append_nil_r.
  - rewrite append_cons, !rev_string_cons, IH. now rewrite append_assoc.
Qed.

Lemma rev_string_involutive (s : string) : rev_string (rev_string s) = s.
Proof.
  induction s as [| c s IH]; [reflexivity |].
  rewrite rev_string_cons, rev_string_app, IH. reflexivity.
Qed.

Lemma lstrip_app_stop p (a : string) c (b : string) :
  p c = false -> lstrip p (a +:+ String c b) = lstrip p a +:+ String c b.
Proof.
  intros Hc. induction a as [| x a IH].
  - rewrite append_nil_l. simpl. now rewrite Hc.
  - rewrite append_cons. simpl. destruct (p x); [exact IH | reflexivity].
Qed.

Lemma rstrip_app_stop p (a : string) c (b : string) :
  p c = false -> rstrip p (a +:+ String c b) = a +:+ String c (rstrip p b).
Proof.
  intros Hc. unfold rstrip.
  rewrite rev_string_app, rev_string_cons, append_assoc.
  change (String c "" +:+ rev_string a) with (String c (rev_string a)).
  rewrite (lstrip_app_stop p _ c _ Hc).
  rewrite rev_string_app, rev_string_cons, rev_string_involutive.
  rewrite append_assoc. reflexivity.
Qed.

Lemma all_chars_app p (a b : string) :
  github_fetcher.all_chars p (a +:+ b)
  = github_fetcher.all_chars p a && github_fetcher.all_chars p b.
Proof.
  induction a as [| x a IH]; [reflexivity |].
  rewrite append_cons. simpl. rewrite IH. now rewrite andb_assoc.
Qed.

Lemma all_chars_rev p (s : string) :
  github_fetcher.all_chars p (rev_string s) = github_fetcher.all_chars p s.
Proof.
  induction s as [| c s IH]; [reflexivity |].
  rewrite rev_string_cons, all_chars_app, IH. simpl.
  rewrite andb_true_r. apply andb_comm.
Qed.

Lemma lstrip_all p (s : string) :
  github_fetcher.all_chars p s = true -> lstrip p s = "".
Proof.
  induction s as [| c s IH]; simpl; [reflexivity |].
  intros H. apply andb_true_iff in H as [Hc Hs]. rewrite Hc. auto.
Qed.

Lemma rstrip_all p (s : string) :
  github_fetcher.all_chars p s = true -> rstrip p s = "".
Proof.
  intros H. unfold rstrip. rewrite lstrip_all; [reflexivity |].
  now rewrite all_chars_rev.
Qed.

(** A string is what [lstrip] removes followed by what it keeps, and what
    [rstrip] keeps followed by what it removes. *)
Lemma lstrip_decomp p (s : string) : exists w, s = w +:+ lstrip p s.
Proof.
  induction s as [| c s [w IH]]; simpl; [now exists "" |].
  destruct (p c); [| now exists ""].
  exists (String c w). rewrite append_cons. now rewrite <- IH.
Qed.

Lemma rstrip_decomp p (s : string) : exists w, s = rstrip p s +:+ w.
Proof.
  unfold rstrip. destruct (lstrip_decomp p (rev_string s)) as [w Hw].
  exists (rev_string w).
  rewrite <- rev_string_app, <- Hw. now rewrite rev_string_involutive.
Qed.

Lemma contains_char_rev c (s : string) :
  contains_char c (rev_string s) = contains_char c s.
Proof.
  induction s as [| x s IH]; [reflexivity |].
  rewrite rev_string_cons, contains_char_append, IH. simpl.
  rewrite orb_false_r. apply orb_comm.
Qed.

Lemma contains_char_lstrip c p (s : string) :
  contains_char c s = false -> contains_char c (lstrip p s) = false.
Proof.
  intros H. destruct (lstrip_decomp p s) as [w Hw].
  rewrite Hw, contains_char_append in H. now apply orb_false_iff in H.
Qed.

Lemma contains_char_rstrip c p (s : string) :
  contains_char c s = false -> contains_char c (rstrip p s) = false.
Proof.
  intros H. destruct (rstrip_decomp p s) as [w Hw].
  rewrite Hw, contains_char_append in H. now apply orb_false_iff in H.
Qed.

(** *** [find], [rfind] and slices over a concatenation *)

Lemma find_from_app i c (a b : string) :
  contains_char c a = false ->
  find_from i c (a +:+ String c b) = i + len a.
Proof.
  revert i. induction a as [| x a IH]; intros i H.
  - rewrite append_nil_l. simpl. rewrite Ascii.eqb_refl. unfold len. simpl. lia.
  - rewrite append_cons. simpl in *. apply orb_false_iff in H as [Hx Ha].
    rewrite Hx, (IH _ Ha). unfold len. simpl String.length. lia.
Qed.

Lemma rfind_from_none i c (s : string) :
  contains_char c s = false -> rfind_from i c s = -1.
Proof.
  revert i. induction s as [| x s IH]; intros i H; simpl in *; [reflexivity |].
  apply orb_false_iff in H as [Hx Hs]. now rewrite (IH _ Hs), Hx.
Qed.

Lemma rfind_from_app i c (a b : string) :
  0 <= i -> contains_char c b = false ->
  rfind_from i c (a +:+ String c b) = i + len a.
Proof.
  revert i. induction a as [| x a IH]; intros i Hi H.
  - rewrite append_nil_l. simpl. rewrite (rfind_from_none _ _ _ H).
    simpl. rewrite Ascii.eqb_refl. unfold len. simpl. lia.
  - rewrite append_cons. simpl. rewrite (IH (i + 1)) by (lia || assumption).
    pose proof (len_nonneg a).
    destruct (Z.leb_spec 0 (i + 1 + len a)); [| lia].
    unfold len. simpl String.length. lia.
Qed.

Lemma drop_app_length (a b : string) : drop (String.length a) (a +:+ b) = b.
Proof. induction a as [| x a IH]; [reflexivity | rewrite append_cons; exact IH]. Qed.

Lemma take_app_length (a b : string) : take (String.length a) (a +:+ b) = a.
Proof.
  induction a as [| x a IH]; [now destruct b |].
  rewrite append_cons. simpl. now rewrite IH.
Qed.

Lemma slice_middle (a s b : string) :
  slice (len a) (len a + len s) (a +:+ s +:+ b) = s.
Proof.
  unfold slice, len.
  replace (Z.to_nat (Z.of_nat (String.length a) + Z.of_nat (String.length s)
                     - Z.of_nat (String.length a))) with (String.length s) by lia.
  rewrite Nat2Z.id, drop_app_length. apply take_app_length.
Qed.

End Trimming.

(** ** The fence pattern *)

Section Fence.

Import llm_client.

Lemma prefix_app_mono (p a b : string) :
  String.prefix p a = true -> String.prefix p (a +:+ b) = true.
Proof.
  revert a. induction p as [| x p IH]; intros a H.
  - now destruct (a +:+ b).
  - destruct a as [| y a]; [discriminate |].
    rewrite append_cons. simpl in *.
    destruct (ascii_dec x y); [now apply IH | discriminate].
Qed.

Lemma contains_str_tail p c (s : string) :
  contains_str p (String c s) = false ->
  String.prefix p (String c s) = false /\ contains_str p s = false.
Proof. intros H. simpl in H. now apply orb_false_iff in H. Qed.

Lemma contains_str_prefix p (s : string) :
  contains_str p s = false -> String.prefix p s = false.
Proof.
  destruct s; intros H.
  - simpl in H. now apply orb_false_iff in H.
  - now apply contains_str_tail in H.
Qed.

Lemma contains_str_app_r p (a b : string) :
  contains_str p (a +:+ b) = false -> contains_str p b = false.
Proof.
  induction a as [| x a IH]; [now rewrite append_nil_l |].
  rewrite append_cons. intros H. apply contains_str_tail in H. tauto.
Qed.

Lemma contains_str_app_l p (a b : string) :
  contains_str p (a +:+ b) = false -> contains_str p a = false.
Proof.
  induction a as [| x a IH]; intros H.
  - apply contains_str_prefix in H.
    cbn [contains_str]. rewrite orb_false_r.
    destruct (String.prefix p "") eqn:E; [| reflexivity].
    now rewrite (prefix_app_mono _ _ b E) in H.
  - rewrite append_cons in H. apply contains_str_tail in H as [Hp Hs].
    cbn [contains_str]. rewrite (IH Hs), orb_false_r.
    destruct (String.prefix p (String x a)) eqn:E; [| reflexivity].
    apply (prefix_app_mono _ _ b) in E. rewrite append_cons in E. congruence.
Qed.

(** A text without a fence has no match of the fence pattern. *)
Lemma re_search_no_fence (s : string) :
  contains_str "```" s = false -> re_search fence_pattern s = None.
Proof.
  induction s as [| c s IH]; intros H.
  - reflexivity.
  - apply contains_str_tail in H as [Hp Hs].
    unfold re_search; fold re_search.
    unfold fence_pattern at 1. cbn [re_match]. rewrite Hp. now apply IH.
Qed.

(** The end of the pattern, [\n?\s*] and the closing fence, matches only
    where a fence follows optional whitespace. *)
Lemma star_then_fence g g' (x : string) :
  star_greedy isspace (re_match [RLit "```"] g) x = Some g' ->
  g' = g /\ String.prefix "```" (lstrip isspace x) = true.
Proof.
  induction x as [| c x IH].
  - simpl. discriminate.
  - unfold star_greedy; fold star_greedy. simpl lstrip.
    destruct (isspace c) eqn:Hc.
    + destruct (star_greedy isspace (re_match [RLit "```"] g) x) as [r |] eqn:E.
      * intros [= <-]. now apply IH.
      * cbn [re_match]. destruct (String.prefix "```" (String c x)) eqn:Hp; [| discriminate].
        intros _. exfalso. cbn [String.prefix] in Hp.
        destruct (ascii_dec "`" c) as [<- |]; [vm_compute in Hc |]; congruence.
    + cbn [re_match]. destruct (String.prefix "```" (String c x)) eqn:Hp; [| discriminate].
      intros [= <-]. auto.
Qed.

Lemma closing_sound g g' (rest : string) :
  re_match closing g rest = Some g' ->
  g' = g /\ String.prefix "```" (lstrip isspace rest) = true.
Proof.
  unfold closing. unfold re_match at 1; fold re_match.
  change (re_match [RStar isspace; RLit "```"] g)
    with (star_greedy isspace (re_match [RLit "```"] g)).
  destruct (String.prefix nl rest) eqn:Hn; cbv iota.
  - destruct rest as [| c rest']; [discriminate Hn |].
    unfold nl in Hn. cbn [String.prefix] in Hn.
    destruct (ascii_dec LF c) as [<- |]; [| congruence].
    change (drop (String.length nl) (String LF rest')) with rest'.
    change (lstrip isspace (String LF rest')) with (lstrip isspace rest').
    destruct (star_greedy isspace _ rest') as [r |] eqn:E; cbv iota.
    + intros [= <-]. exact (star_then_fence g r rest' E).
    + intros H. exact (star_then_fence g g' (String LF rest') H).
  - intros H. exact (star_then_fence g g' rest H).
Qed.

Lemma closing_complete g (tail : string) :
  re_match closing g (String LF (String "`" (String "`" (String "`" tail))))
  = Some g.
Proof. destruct tail; reflexivity. Qed.

Lemma fence_not_at_brace (v X : string) :
  String.prefix "```" (v +:+ "}") = false ->
  String.prefix "```" (v +:+ String "}" X) = false.
Proof.
  destruct v as [| a [| b [| c v]]];
    rewrite ?append_cons, ?append_nil_l; cbn [String.prefix]; intros H.
  - reflexivity.
  - destruct (ascii_dec "`" a); reflexivity.
  - destruct (ascii_dec "`" a); [| reflexivity].
    destruct (ascii_dec "`" b); reflexivity.
  - destruct (ascii_dec "`" a); [| reflexivity].
    destruct (ascii_dec "`" b); [| reflexivity].
    destruct (ascii_dec "`" c); [| reflexivity].
    destruct (v +:+ "}"); discriminate H.
Qed.

Lemma no_fence_after_whitespace (u X : string) :
  contains_str "```" (u +:+ "}") = false ->
  String.prefix "```" (lstrip isspace (u +:+ String "}" X)) = false.
Proof.
  intros H. rewrite lstrip_app_stop by reflexivity.
  destruct (lstrip_decomp isspace u) as [w Hw].
  rewrite Hw, append_assoc in H. apply contains_str_app_r in H.
  apply fence_not_at_brace. now apply contains_str_prefix.
Qed.

(** The lazy group grows until the closing fence follows: over a text
    without a fence that ends in a brace it takes exactly that text. *)
Lemma lazy_any_fenced (m pre tail : string) :
  contains_str "```" (m +:+ "}") = false ->
  lazy_any (fun g rest => re_match closing g rest)
    (pre +:+ m +:+ String "}" (String LF (String "`" (String "`" (String "`" tail)))))
    (String.length pre)
    (m +:+ String "}" (String LF (String "`" (String "`" (String "`" tail)))))
  = Some (pre +:+ m +:+ "}").
Proof.
  revert pre. induction m as [| c m IH]; intros pre H.
  - rewrite !append_nil_l.
    unfold lazy_any; fold lazy_any.
    destruct (re_match closing _ (String "}" _)) as [r |] eqn:E.
    { apply closing_sound in E as [_ E]. simpl in E. discriminate. }
    change (String "}" ?x) with ("}" +:+ x) at 1.
    rewrite <- append_assoc.
    replace (S (String.length pre)) with (String.length (pre +:+ "}"))
      by (rewrite length_append; simpl; lia).
    rewrite take_app_length. now rewrite closing_complete.
  - rewrite !append_cons in *.
    unfold lazy_any; fold lazy_any.
    destruct (re_match closing _ (String c _)) as [r |] eqn:E.
    { apply closing_sound in E as [_ E].
      rewrite <- append_cons in E.
      rewrite (no_fence_after_whitespace (String c m)) in E; [discriminate |].
      now rewrite append_cons. }
    apply contains_str_tail in H as [_ H].
    specialize (IH (pre +:+ String c "") H).
    rewrite !append_assoc in IH. rewrite length_append in IH. simpl in IH.
    replace (String.length pre + 1)%nat with (S (String.length pre)) in IH by lia.
    exact IH.
Qed.

Lemma re_match_after_tag (body : string) :
  contains_str "```" (braced body) = false ->
  re_match [RStar isspace; ROptLit nl; RGroupLazyAny;
            ROptLit nl; RStar isspace; RLit "```"] ""
    (nl +:+ braced body +:+ nl +:+ "```")
  = Some (braced body).
Proof.
  intros H. unfold braced in *.
  set (X := body +:+ String "}" (String LF "```")).
  assert (Hk : re_match (ROptLit nl :: RGroupLazyAny :: closing) "" (String "{" X)
               = Some (String "{" (body +:+ "}"))).
  { change (re_match (ROptLit nl :: RGroupLazyAny :: closing) "" (String "{" X))
      with (lazy_any (fun g rest => re_match closing g rest)
              (String "{" X) 0 (String "{" X)).
    pose proof (lazy_any_fenced (String "{" body) "" "" H) as L.
    rewrite !append_nil_l, !append_cons in L. exact L. }
  replace (nl +:+ String "{" (body +:+ "}") +:+ nl +:+ "```")
    with (String LF (String "{" X)).
  2:{ unfold X. change (nl +:+ ?x) with (String LF x).
      rewrite append_cons, append_assoc. reflexivity. }
  change (re_match [RStar isspace; ROptLit nl; RGroupLazyAny;
                    ROptLit nl; RStar isspace; RLit "```"] ""
            (String LF (String "{" X)))
    with (match re_match (ROptLit nl :: RGroupLazyAny :: closing) "" (String "{" X) with
          | Some g => Some g
          | None => re_match (ROptLit nl :: RGroupLazyAny :: closing) ""
                      (String LF (String "{" X))
          end).
  now rewrite Hk.
Qed.

End Fence.

(** ** Extraction of the JSON object *)

Section Extraction.

Import llm_client.

(** [_extract_json] in terms of the text that it parses and of the span
    between the braces of that text. *)
Lemma extract_json_unfold (limit : nat) (text : string) :
  _extract_json limit text
  = match json_loads limit (fence_stripped text) with
    | Loaded v => Some (Ok v)
    | Raised e => Some (Raise e)
    | Unmodelled => None
    | DecodeError =>
        match brace_span (fence_stripped text) with
        | Some sub =>
            match json_loads limit sub with
            | Loaded v => Some (Ok v)
            | Raised e => Some (Raise e)
            | Unmodelled => None
            | DecodeError => Some (Raise (LLMError UNPARSABLE 502))
            end
        | None => Some (Raise (LLMError UNPARSABLE 502))
        end
    end.
Proof.
  unfold _extract_json. cbv zeta.
  change (match re_search fence_pattern (strip isspace text) with
          | Some group => strip isspace group
          | None => strip isspace text
          end) with (fence_stripped text).
  set (t := fence_stripped text). unfold brace_span.
  destruct (json_loads limit t); try reflexivity.
  now destruct (negb (find "{" t =? -1) && (find "{" t <? rfind "}" t)).
Qed.

Lemma braced_app (body p2 : string) :
  braced body +:+ p2 = String "{" (body +:+ String "}" p2).
Proof.
  unfold braced. rewrite append_cons, append_assoc. reflexivity.
Qed.

Lemma app_braced (a body p2 : string) :
  a +:+ braced body +:+ p2 = (a +:+ String "{" body) +:+ String "}" p2.
Proof.
  rewrite braced_app, append_assoc, append_cons. reflexivity.
Qed.

Lemma strip_braced (p1 body p2 : string) :
  strip isspace (p1 +:+ braced body +:+ p2)
  = lstrip isspace p1 +:+ braced body +:+ rstrip isspace p2.
Proof.
  unfold strip.
  rewrite braced_app, lstrip_app_stop by reflexivity.
  rewrite <- braced_app, app_braced.
  rewrite rstrip_app_stop by reflexivity.
  now rewrite <- app_braced.
Qed.

Lemma strip_braced_id (body : string) :
  strip isspace (braced body) = braced body.
Proof.
  pose proof (strip_braced "" body "") as H.
  change (lstrip isspace "") with "" in H.
  change (rstrip isspace "") with "" in H.
  rewrite !append_nil_l, append_nil_r in H. exact H.
Qed.

Lemma fence_stripped_no_fence (text : string) :
  contains_str "```" (strip isspace text) = false ->
  fence_stripped text = strip isspace text.
Proof.
  intros H. unfold fence_stripped. now rewrite re_search_no_fence.
Qed.

(** Trimming keeps a text free of fences. *)
Lemma contains_str_strip p (s : string) :
  contains_str p s = false -> contains_str p (strip isspace s) = false.
Proof.
  intros H. unfold strip.
  destruct (lstrip_decomp isspace s) as [w Hw].
  destruct (rstrip_decomp isspace (lstrip isspace s)) as [w' Hw'].
  rewrite Hw in H. apply contains_str_app_r in H.
  rewrite Hw' in H. now apply contains_str_app_l in H.
Qed.

Lemma brace_span_braced (a body b : string) :
  contains_char "{" a = false -> contains_char "}" b = false ->
  brace_span (a +:+ braced body +:+ b) = Some (braced body).
Proof.
  intros Ha Hb. unfold brace_span, find, rfind.
  assert (Hf : find_from 0 "{" (a +:+ braced body +:+ b) = len a).
  { rewrite braced_app, find_from_app by assumption. lia. }
  assert (Hr : rfind_from 0 "}" (a +:+ braced body +:+ b)
               = len a + len (braced body) - 1).
  { rewrite app_braced, rfind_from_app by (lia || assumption).
    unfold braced. rewrite !len_append. unfold len. simpl String.length.
    rewrite length_append. simpl String.length. lia. }
  rewrite Hf, Hr.
  pose proof (len_nonneg a). 
  assert (2 <= len (braced body)).
  { unfold braced, len. simpl String.length. rewrite length_append. simpl. lia. }
  destruct (Z.eqb_spec (len a) (-1)); [lia |].
  destruct (Z.ltb_spec (len a) (len a + len (braced body) - 1)); [| lia].
  simpl negb. cbv iota. cbn [andb].
  replace (len a + len (braced body) - 1 + 1) with (len a + len (braced body)) by lia.
  now rewrite slice_middle.
Qed.

(** A JSON object alone in the text, between optional whitespace, is
    recovered when it holds no fence. *)
Lemma extract_json_bare (limit : nat) (ws1 body ws2 : string)
    (d : list (string * value)) :
  github_fetcher.all_chars isspace ws1 = true ->
  github_fetcher.all_chars isspace ws2 = true ->
  contains_str "```" (braced body) = false ->
  json_loads limit (braced body) = Loaded (VDict d) ->
  _extract_json limit (ws1 +:+ braced body +:+ ws2) = Some (Ok (VDict d)).
Proof.
  intros H1 H2 Hf Hj.
  assert (Hs : strip isspace (ws1 +:+ braced body +:+ ws2) = braced body).
  { rewrite strip_braced, lstrip_all, rstrip_all by assumption.
    now rewrite append_nil_l, append_nil_r. }
  assert (Ht : fence_stripped (ws1 +:+ braced body +:+ ws2) = braced body).
  { rewrite fence_stripped_no_fence; rewrite Hs; auto. }
  now rewrite extract_json_unfold, Ht, Hj.
Qed.

Lemma re_search_fenced (tag body : string) :
  tag = "" \/ tag = "json" ->
  contains_str "```" (braced body) = false ->
  re_search fence_pattern (fenced tag (braced body)) = Some (braced body).
Proof.
  intros Htag H. pose proof (re_match_after_tag body H) as R.
  assert (M : re_match fence_pattern "" (fenced tag (braced body))
              = Some (braced body)).
  { destruct Htag as [-> | ->].
    - change (re_match fence_pattern "" (fenced "" (braced body)))
        with (re_match [RStar isspace; ROptLit nl; RGroupLazyAny;
                        ROptLit nl; RStar isspace; RLit "```"] ""
                (nl +:+ braced body +:+ nl +:+ "```")).
      exact R.
    - change (re_match fence_pattern "" (fenced "json" (braced body)))
        with (match re_match [RStar isspace; ROptLit nl; RGroupLazyAny;
                              ROptLit nl; RStar isspace; RLit "```"] ""
                      (nl +:+ braced body +:+ nl +:+ "```") with
              | Some g => Some g
              | None => re_match [RStar isspace; ROptLit nl; RGroupLazyAny;
                                  ROptLit nl; RStar isspace; RLit "```"] ""
                         ("json" +:+ nl +:+ braced body +:+ nl +:+ "```")
              end).
      now rewrite R. }
  destruct (fenced tag (braced body)); unfold re_search; fold re_search;
    now rewrite M.
Qed.

Lemma strip_fenced (tag text : string) :
  strip isspace (fenced tag text) = fenced tag text.
Proof.
  unfold fenced, strip.
  change (lstrip isspace ("```" +:+ ?x)) with ("```" +:+ x).
  replace ("```" +:+ tag +:+ nl +:+ text +:+ nl +:+ "```")
    with (("```" +:+ tag +:+ nl +:+ text +:+ nl +:+ "``") +:+ String "`" "").
  2:{ rewrite !append_assoc. reflexivity. }
  now rewrite rstrip_app_stop.
Qed.

(** A JSON object in a fenced block, with the tag json or without tag,
    is recovered when it holds no fence. *)
Lemma extract_json_fenced (limit : nat) (tag body : string)
    (d : list (string * value)) :
  tag = "" \/ tag = "json" ->
  contains_str "```" (braced body) = false ->
  json_loads limit (braced body) = Loaded (VDict d) ->
  _extract_json limit (fenced tag (braced body)) = Some (Ok (VDict d)).
Proof.
  intros Htag Hf Hj.
  assert (Ht : fence_stripped (fenced tag (braced body)) = braced body).
  { unfold fence_stripped. rewrite strip_fenced, re_search_fenced by assumption.
    apply strip_braced_id. }
  now rewrite extract_json_unfold, Ht, Hj.
Qed.

(** A JSON object between prose is recovered when the text holds no
    fence, the prose before it no opening brace, the prose after it no
    closing brace, and the text as a whole is not JSON. *)
Lemma extract_json_in_prose (limit : nat) (p1 body p2 : string)
    (d : list (string * value)) :
  contains_str "```" (p1 +:+ braced body +:+ p2) = false ->
  contains_char "{" p1 = false ->
  contains_char "}" p2 = false ->
  json_loads limit (strip isspace (p1 +:+ braced body +:+ p2)) = DecodeError ->
  json_loads limit (braced body) = Loaded (VDict d) ->
  _extract_json limit (p1 +:+ braced body +:+ p2) = Some (Ok (VDict d)).
Proof.
  intros Hf H1 H2 Hn Hj.
  pose proof (contains_str_strip _ _ Hf) as Hf'.
  assert (Ht : fence_stripped (p1 +:+ braced body +:+ p2)
               = lstrip isspace p1 +:+ braced body +:+ rstrip isspace p2).
  { rewrite fence_stripped_no_fence by assumption. apply strip_braced. }
  assert (Hb : brace_span (fence_stripped (p1 +:+ braced body +:+ p2))
               = Some (braced body)).
  { rewrite Ht. apply brace_span_braced.
    - now apply contains_char_lstrip.
    - now apply contains_char_rstrip. }
  rewrite strip_braced, <- Ht in Hn.
  now rewrite extract_json_unfold, Hn, Hb, Hj.
Qed.

(** The three embeddings at the object with the key a and the value 1. *)
Lemma extract_json_recovers_sample (n : nat) :
  _extract_json (S n) ("  " +:+ sample_object +:+ nl)
  = Some (Ok (VDict [("a", VInt 1)]))
  /\ _extract_json (S n) (fenced "json" sample_object)
     = Some (Ok (VDict [("a", VInt 1)]))
  /\ _extract_json (S n)
       ("Here is the analysis:" +:+ nl +:+ sample_object +:+ nl +:+ "End.")
     = Some (Ok (VDict [("a", VInt 1)])).
Proof.
  split; [| split].
  - apply (extract_json_bare (S n) "  " (quoted "a" +:+ ": 1") nl); reflexivity.
  - apply (extract_json_fenced (S n) "json" (quoted "a" +:+ ": 1"));
      [now right | reflexivity | reflexivity].
  - apply (extract_json_in_prose (S n) ("Here is the analysis:" +:+ nl)
             (quoted "a" +:+ ": 1") (nl +:+ "End.")); reflexivity.
Qed.

(** Where an object is not recovered.  The object [{}] after prose that
    has braces of its own: the span from the first opening to the last
    closing brace takes in the prose.  A bare object whose string value
    holds two fences: the fence pattern is searched in the whole text, not
    only at its start. *)
Lemma extract_json_misses_objects (n : nat) :
  (json_loads (S n) "{}" = Loaded (VDict [])
   /\ _extract_json (S n) ("{x} " +:+ "{}")
      = Some (Raise (LLMError UNPARSABLE 502)))
  /\ (json_loads (S n) object_with_fence = Loaded (VDict [("a", VStr "```x```")])
      /\ _extract_json (S n) object_with_fence
         = Some (Raise (LLMError UNPARSABLE 502))).
Proof. repeat split; reflexivity. Qed.

(** The exceptions of [json.loads] that [_extract_json] does not catch,
    and the texts on which the model has no answer: an integer of 4301
    digits raises [ValueError]; an object, when no nested call is left,
    and three nested arrays, when two are left, raise [RecursionError];
    an escape above U+00FF in a string is outside the model. *)
Lemma extract_json_other_outcomes (n : nat) :
  _extract_json (S n) (braced (quoted "a" +:+ ": " +:+ replicate_char 4301 "1"))
  = Some (Raise ValueError)
  /\ _extract_json 0 "{}" = Some (Raise RecursionError)
  /\ _extract_json 2 "[[[1]]]" = Some (Raise RecursionError)
  /\ _extract_json (S n) (braced (quoted "a" +:+ ": " +:+ quoted "\u2014")) = None.
Proof.
  split; [| repeat split; reflexivity].
  destruct n; vm_compute; reflexivity.
Qed.

(** C3: a text that is JSON but holds no object is returned as the value
    it denotes, where the claim has an error raised: on the text [[1]],
    bare or in a fenced block, [_extract_json] returns the list of 1, and
    on [null] it returns [None].  The function is annotated to return a
    dict and its docstring says that it extracts a JSON object. *)
Theorem extract_json_returns_non_objects (n : nat) :
  _extract_json (S n) "[1]" = Some (Ok (VList [VInt 1]))
  /\ _extract_json (S n) (fenced "json" "[1]") = Some (Ok (VList [VInt 1]))
  /\ _extract_json n "null" = Some (Ok VNone).
Proof. repeat split; reflexivity. Qed.

End Extraction.

(** ** Context assembly: the shape and the size of the result *)

Section ContextShape.

Lemma len_join_nl (l : list string) :
  l <> [] -> len (join nl l) = total_len l + Z.of_nat (length l) - 1.
Proof.
  induction l as [| x l IH]; [congruence |]. intros _.
  destruct l as [| y l].
  - unfold total_len. simpl. lia.
  - change (join nl (x :: y :: l)) with (x +:+ nl +:+ join nl (y :: l)).
    rewrite !len_append, IH by discriminate.
    change (len nl) with 1.
    change (total_len (x :: y :: l)) with (len x + total_len (y :: l)).
    change (length (x :: y :: l)) with (S (length (y :: l))). lia.
Qed.

Lemma plain_blocks_length fc (todo : list candidate) :
  (length (plain_blocks fc todo) <= length todo)%nat.
Proof.
  induction todo as [| f todo IH]; simpl; [lia |].
  destruct (fc !! path f); simpl; lia.
Qed.

Lemma file_loop_all_fit md tree fc (selected_files : list candidate) :
  total_len (leading_sections md tree) + total_len (plain_blocks fc selected_files)
    <= MAX_CONTEXT_CHARS ->
  build_sections md tree fc selected_files
  = leading_sections md tree ++ plain_blocks fc selected_files.
Proof.
  intros Hfit. rewrite build_sections_unfold.
  rewrite <- (app_nil_r selected_files) at 2.
  now rewrite file_loop_fitting.
Qed.

(** When the metadata, the tree and the blocks of all selected files with
    a body fit the budget, the context is exactly the three leading
    sections followed by one block per such file, in the order of the
    selection: nothing is cut and no notice is added. *)
Theorem build_sections_all_fit md tree fc (selected_files : list candidate) :
  total_len (leading_sections md tree) + total_len (plain_blocks fc selected_files)
    <= MAX_CONTEXT_CHARS ->
  build_sections md tree fc selected_files
  = leading_sections md tree ++ plain_blocks fc selected_files.
Proof. exact (file_loop_all_fit md tree fc selected_files). Qed.

Lemma build_sections_all_fit_witness :
  build_sections sample_metadata [] (<["main.py" := "print('hello')"]> ∅)
    [Candidate "main.py" 100 4; Candidate "b.py" 1 5]
  = leading_sections sample_metadata []
    ++ plain_blocks (<["main.py" := "print('hello')"]> ∅)
         [Candidate "main.py" 100 4; Candidate "b.py" 1 5].
Proof.
  apply build_sections_all_fit. apply Z.leb_le. vm_compute. reflexivity.
Defined.

(** In that case the length of the context is at most the budget plus one
    separator per section after the first: the three leading sections and
    one block per selected file. *)
Theorem build_context_length_when_all_fit md tree fc (selected_files : list candidate) :
  total_len (leading_sections md tree) + total_len (plain_blocks fc selected_files)
    <= MAX_CONTEXT_CHARS ->
  len (build_context md tree fc selected_files)
    <= MAX_CONTEXT_CHARS + 2 + Z.of_nat (length selected_files).
Proof.
  intros Hfit. unfold build_context.
  rewrite file_loop_all_fit by exact Hfit.
  rewrite len_join_nl by (unfold leading_sections; discriminate).
  rewrite total_len_app, length_app.
  pose proof (plain_blocks_length fc selected_files).
  assert (Hl : length (leading_sections md tree) = 3%nat) by reflexivity.
  rewrite Hl. lia.
Qed.

Lemma build_context_length_when_all_fit_witness :
  len (build_context sample_metadata [] (<["main.py" := "print('hello')"]> ∅)
         [Candidate "main.py" 100 4; Candidate "b.py" 1 5])
    <= MAX_CONTEXT_CHARS + 2 + 2.
Proof.
  apply (build_context_length_when_all_fit sample_metadata []
           (<["main.py" := "print('hello')"]> ∅)
           [Candidate "main.py" 100 4; Candidate "b.py" 1 5]).
  apply Z.leb_le. vm_compute. reflexivity.
Defined.

(** Candidates without a body leave the state of the loop as it is. *)
Lemma file_loop_no_blocks fc all pre rest sections total :
  plain_blocks fc pre = [] ->
  file_loop fc all (pre ++ rest) sections total
  = file_loop fc all rest sections total.
Proof.
  induction pre as [| f pre IH]; intros H; [reflexivity |].
  cbn [plain_blocks] in H. cbn [app file_loop].
  destruct (fc !! path f); [discriminate H | now apply IH].
Qed.

(** When a file is the first whose block does not fit the budget (the
    blocks of the files before it fit, or there are none, as when the
    metadata and the tree alone exceed the budget) and it is of tier above
    3, or of tier at most 3 with no more than 500 characters left after
    the reserve, the loop appends only the omission notice and stops. *)
Theorem build_sections_stops_at_budget md tree fc pre f rest content :
  let total := total_len (leading_sections md tree) + total_len (plain_blocks fc pre) in
  let body := truncate_file_content content MAX_FILE_LINES in
  plain_blocks fc pre = [] \/ total <= MAX_CONTEXT_CHARS ->
  fc !! path f = Some content ->
  MAX_CONTEXT_CHARS < total + len (file_block (path f) body) ->
  3 < tier f \/ MAX_CONTEXT_CHARS - total - 200 <= 500 ->
  build_sections md tree fc (pre ++ f :: rest)
  = leading_sections md tree ++ plain_blocks fc pre
    ++ [ omitted_notice (remaining_count fc (pre ++ f :: rest) (path f)) ].
Proof.
  intros total body Hfit Hbody Hover Hstop.
  assert (Hloop : file_loop fc (pre ++ f :: rest) (pre ++ f :: rest)
                    (leading_sections md tree)
                    (total_len (leading_sections md tree))
                  = file_loop fc (pre ++ f :: rest) (f :: rest)
                      (leading_sections md tree ++ plain_blocks fc pre) total).
  { destruct Hfit as [Hnone | Hfit].
    - rewrite file_loop_no_blocks by exact Hnone.
      unfold total. rewrite Hnone, app_nil_r. f_equal.
      change (total_len []) with 0. lia.
    - now rewrite file_loop_fitting by exact Hfit. }
  rewrite build_sections_unfold, Hloop.
  simpl. rewrite Hbody. fold body.
  destruct (Z.ltb_spec MAX_CONTEXT_CHARS (total + len (file_block (path f) body))); [| lia].
  destruct (Z.leb_spec (tier f) 3);
    [destruct (Z.ltb_spec 500 (MAX_CONTEXT_CHARS - total - 200)); [lia |] |];
    simpl; rewrite <- ?app_assoc; reflexivity.
Qed.

Lemma build_sections_stops_at_budget_witness :
  build_sections sample_metadata (long_path_tree (Z.to_nat 200000))
    (<["main.py" := "x"]> ∅) ([] ++ Candidate "main.py" 1 5 :: [])
  = leading_sections sample_metadata (long_path_tree (Z.to_nat 200000))
    ++ plain_blocks (<["main.py" := "x"]> ∅) []
    ++ [ omitted_notice
           (remaining_count (<["main.py" := "x"]> ∅)
              ([] ++ Candidate "main.py" 1 5 :: []) "main.py") ].
Proof.
  apply (build_sections_stops_at_budget sample_metadata
           (long_path_tree (Z.to_nat 200000)) (<["main.py" := "x"]> ∅)
           [] (Candidate "main.py" 1 5) [] "x").
  - left. reflexivity.
  - reflexivity.
  - apply Z.ltb_lt. vm_compute. reflexivity.
  - left. simpl. lia.
Defined.

Lemma build_sections_truncates_then_stops_witness :
  build_sections sample_metadata [] big_readme_contents
    ([] ++ Candidate "README.md" 250000 1 :: [Candidate "b.py" 1 5])
  = leading_sections sample_metadata [] ++ plain_blocks big_readme_contents []
    ++ [ truncated_block "README.md"
           (slice_to (MAX_CONTEXT_CHARS
                      - (total_len (leading_sections sample_metadata [])
                         + total_len (plain_blocks big_readme_contents [])) - 200)
              (truncate_file_content (replicate_char (Z.to_nat 250000) "x")
                 MAX_FILE_LINES));
         omitted_notice
           (remaining_count big_readme_contents
              ([] ++ Candidate "README.md" 250000 1 :: [Candidate "b.py" 1 5])
              "README.md") ].
Proof.
  apply (build_sections_truncates_then_stops sample_metadata [] big_readme_contents
           [] (Candidate "README.md" 250000 1) [Candidate "b.py" 1 5]
           (replicate_char (Z.to_nat 250000) "x")).
  - apply Z.leb_le. vm_compute. reflexivity.
  - reflexivity.
  - apply Z.ltb_lt. vm_compute. reflexivity.
  - simpl. lia.
  - apply Z.ltb_lt. vm_compute. reflexivity.
Defined.

Lemma take_length_le n (s : string) : (String.length (take n s) <= n)%nat.
Proof.
  revert s. induction n as [| n IH]; intros s; simpl; [lia |].
  destruct s; simpl; [lia |]. specialize (IH s). lia.
Qed.

(** The reserve of 200 characters covers the header of the cut block for
    paths of up to 163 characters: after the cut block the total is at most
    the budget minus 163 plus the length of the path. *)
Theorem truncated_block_within_reserve (path content : string) (total : Z) :
  500 < MAX_CONTEXT_CHARS - total - 200 ->
  total + len (truncated_block path
                 (slice_to (MAX_CONTEXT_CHARS - total - 200) content))
    <= MAX_CONTEXT_CHARS - 163 + len path.
Proof.
  intros Hroom. unfold truncated_block, slice_to.
  destruct (Z.leb_spec 0 (MAX_CONTEXT_CHARS - total - 200)); [| lia].
  rewrite !len_append.
  pose proof (take_length_le (Z.to_nat (MAX_CONTEXT_CHARS - total - 200)) content) as Ht.
  assert (Hc : len (take (Z.to_nat (MAX_CONTEXT_CHARS - total - 200)) content)
               <= MAX_CONTEXT_CHARS - total - 200) by (unfold len; lia).
  change (len "--- ") with 4.
  change (len " (truncated to fit budget) ---") with 30.
  change (len nl) with 1.
  lia.
Qed.

Lemma truncated_block_within_reserve_witness :
  0 + len (truncated_block "README.md"
             (slice_to (MAX_CONTEXT_CHARS - 0 - 200) "short"))
    <= MAX_CONTEXT_CHARS - 163 + len "README.md".
Proof.
  apply truncated_block_within_reserve. unfold MAX_CONTEXT_CHARS. lia.
Defined.

(** The loop in general: it appends the blocks of a prefix of what is
    left to iterate, all within the budget, and then either has reached the
    end or has met a file whose block does not fit, after which it appends
    the omission notice, with or without the cut block before it. *)
Lemma file_loop_shape fc all (todo : list candidate) sections total :
  exists pre rest tail,
    todo = pre ++ rest
    /\ file_loop fc all todo sections total = sections ++ plain_blocks fc pre ++ tail
    /\ (plain_blocks fc pre = []
        \/ total + total_len (plain_blocks fc pre) <= MAX_CONTEXT_CHARS)
    /\ ((rest = [] /\ tail = [])
        \/ exists f rest' content,
             rest = f :: rest' /\ fc !! path f = Some content
             /\ MAX_CONTEXT_CHARS
                < total + total_len (plain_blocks fc pre)
                  + len (file_block (path f)
                           (truncate_file_content content MAX_FILE_LINES))
             /\ (tail = [omitted_notice (remaining_count fc all (path f))]
                 \/ exists cut,
                      tail = [truncated_block (path f) cut;
                              omitted_notice (remaining_count fc all (path f))])).
Proof.
  revert sections total.
  induction todo as [| f todo IH]; intros sections total.
  - exists [], [], []. simpl. rewrite app_nil_r. repeat split; auto.
  - simpl. destruct (fc !! path f) as [content |] eqn:E.
    + set (block := file_block (path f) (truncate_file_content content MAX_FILE_LINES)).
      destruct (Z.ltb_spec MAX_CONTEXT_CHARS (total + len block)) as [Hover | Hfit].
      * exists [], (f :: todo). simpl.
        destruct (tier f <=? 3); [destruct (500 <? MAX_CONTEXT_CHARS - total - 200) |].
        -- eexists. split; [reflexivity |]. split; [now rewrite <- app_assoc |].
           split; [now left |]. right. exists f, todo, content.
           split; [reflexivity |]. split; [exact E |].
           split; [unfold total_len; simpl; fold block; lia |].
           right. eexists. reflexivity.
        -- eexists. split; [reflexivity |]. split; [reflexivity |].
           split; [now left |]. right. exists f, todo, content.
           split; [reflexivity |]. split; [exact E |].
           split; [unfold total_len; simpl; fold block; lia |]. now left.
        -- eexists. split; [reflexivity |]. split; [reflexivity |].
           split; [now left |]. right. exists f, todo, content.
           split; [reflexivity |]. split; [exact E |].
           split; [unfold total_len; simpl; fold block; lia |]. now left.
      * destruct (IH (sections ++ [block]) (total + len block))
          as (pre & rest & tail & Htodo & Hloop & Hbudget & Hend).
        exists (f :: pre), rest, tail. simpl. rewrite E. fold block.
        change (total_len (block :: ?l)) with (len block + total_len l).
        split; [now rewrite Htodo |].
        split; [rewrite Hloop, <- app_assoc; reflexivity |].
        split.
        { right. destruct Hbudget as [-> | Hb]; [unfold total_len; simpl |]; lia. }
        destruct Hend as [Hend | (f' & rest' & content' & Hr & Hb & Hover & Htail)];
          [now left |].
        right. exists f', rest', content'.
        split; [exact Hr |]. split; [exact Hb |]. split; [lia | exact Htail].
    + destruct (IH sections total)
        as (pre & rest & tail & Htodo & Hloop & Hbudget & Hend).
      exists (f :: pre), rest, tail. simpl. rewrite E.
      split; [now rewrite Htodo |]. auto.
Qed.

(** The context always has the same shape: the metadata, the tree and
    the header; then the blocks, each within the budget when it was
    appended, of the selected files with a body up to some point of the
    selection; then nothing if the selection is exhausted, or else the
    omission notice, with or without a cut block before it. *)
Theorem build_sections_shape md tree fc (selected_files : list candidate) :
  exists pre rest tail,
    selected_files = pre ++ rest
    /\ build_sections md tree fc selected_files
       = leading_sections md tree ++ plain_blocks fc pre ++ tail
    /\ (plain_blocks fc pre = []
        \/ total_len (leading_sections md tree ++ plain_blocks fc pre)
           <= MAX_CONTEXT_CHARS)
    /\ ((rest = [] /\ tail = [])
        \/ exists f rest',
             rest = f :: rest'
             /\ (tail = [omitted_notice (remaining_count fc selected_files (path f))]
                 \/ exists cut,
                      tail = [truncated_block (path f) cut;
                              omitted_notice
                                (remaining_count fc selected_files (path f))])).
Proof.
  rewrite build_sections_unfold.
  destruct (file_loop_shape fc selected_files selected_files
              (leading_sections md tree) (total_len (leading_sections md tree)))
    as (pre & rest & tail & Hsel & Hloop & Hbudget & Hend).
  exists pre, rest, tail. rewrite total_len_app.
  split; [exact Hsel |]. split; [exact Hloop |]. split; [exact Hbudget |].
  destruct Hend as [Hend | (f & rest' & content & Hr & _ & _ & Htail)]; [now left |].
  right. now exists f, rest'.
Qed.

End ContextShape.

(** ** File selection: tiers, completeness, independence of the order *)

Section SelectionMore.

Lemma get_tier_values (path : string) (size : Z) :
  1 <= _get_tier path size <= 6 \/ _get_tier path size = 99.
Proof.
  unfold _get_tier.
  repeat match goal with
         | |- context [if ?b then _ else _] => destruct b
         end; lia.
Qed.

(** Every candidate that [select_files] returns has a tier from 1 to 6:
    the sentinel 99 never leaves the classifier. *)
Theorem select_files_tiers (tree : list item) (c : candidate) :
  In c (select_files tree) -> 1 <= tier c <= 6.
Proof.
  intros Hin.
  assert (He : eligible tree c).
  { apply collect_candidates_eligible.
    eapply Permutation_in; [apply sort_candidates_perm | exact Hin]. }
  destruct He as (it & _ & _ & _ & _ & _ & Ht & Hne).
  destruct (get_tier_values (path c) (size c)) as [H | H]; rewrite <- Ht in H;
    [exact H | contradiction].
Qed.

Lemma select_files_tiers_witness :
  1 <= tier (Candidate "src/main.py" 1024 4) <= 6.
Proof.
  apply (select_files_tiers sample_tree). vm_compute. auto 10.
Defined.

Lemma collect_candidates_complete (tree : list item) (it : item) :
  In it tree -> item_type it = "blob" ->
  _should_skip (item_path it) = false ->
  _get_tier (item_path it) (get_size it) <> 99 ->
  In (Candidate (item_path it) (get_size it)
        (_get_tier (item_path it) (get_size it)))
     (collect_candidates tree).
Proof.
  intros Hin Hb Hs Ht. induction tree as [| x tree IH]; [contradiction |].
  simpl. destruct Hin as [-> | Hin].
  - rewrite Hb, Hs. simpl. apply Z.eqb_neq in Ht. rewrite Ht. now left.
  - specialize (IH Hin).
    destruct (negb (item_type x =? "blob")%string); [exact IH |].
    destruct (_should_skip (item_path x)); [exact IH |].
    destruct (_get_tier (item_path x) (get_size x) =? 99); [exact IH | now right].
Qed.

(** Every blob of the tree that is neither skipped nor excluded is
    selected, with its path, its size (0 when the entry has none) and its
    tier. *)
Theorem select_files_complete (tree : list item) (it : item) :
  In it tree -> item_type it = "blob" ->
  _should_skip (item_path it) = false ->
  _get_tier (item_path it) (get_size it) <> 99 ->
  In (Candidate (item_path it) (get_size it)
        (_get_tier (item_path it) (get_size it)))
     (select_files tree).
Proof.
  intros Hin Hb Hs Ht. unfold select_files.
  eapply Permutation_in; [symmetry; apply sort_candidates_perm |].
  now apply collect_candidates_complete.
Qed.

Lemma select_files_complete_witness :
  In (Candidate "package.json" 2000 2) (select_files sample_tree).
Proof.
  apply (select_files_complete sample_tree (Item "package.json" "blob" (Some 2000))).
  - simpl. auto 10.
  - reflexivity.
  - vm_compute. reflexivity.
  - vm_compute. discriminate.
Defined.

(** *** The order of the keys *)

Lemma compare_le (a b : string) : String.compare a b <> Gt <-> String.le a b.
Proof.
  unfold String.le, String.leb.
  destruct (String.compare a b); simpl; split; intros H; try tauto; congruence.
Qed.

Lemma key_le_trans (a b c : candidate) : key_le a b -> key_le b c -> key_le a c.
Proof.
  unfold key_le. intros [H1 | [E1 H1]] [H2 | [E2 H2]].
  - left. lia.
  - left. lia.
  - left. lia.
  - right. split; [lia |]. apply compare_le.
    apply compare_le in H1, H2. etransitivity; eassumption.
Qed.

Lemma key_le_antisym (a b : candidate) :
  key_le a b -> key_le b a -> path a = path b.
Proof.
  unfold key_le. intros [H1 | [E1 H1]] [H2 | [E2 H2]]; try lia.
  apply compare_le in H1, H2.
  apply (anti_symm String.le); assumption.
Qed.

Lemma sorted_all_above (a : candidate) (l : list candidate) :
  Sorted key_le (a :: l) -> forall b, In b l -> key_le a b.
Proof.
  intros Hs. apply Sorted_StronglySorted in Hs.
  - inversion Hs as [| ? ? _ Hall]; subst.
    intros b Hb. now apply (proj1 (List.Forall_forall _ _) Hall).
  - intros x y z. apply key_le_trans.
Qed.

(** Two sorted lists of candidates with the same elements and pairwise
    distinct paths are equal. *)
Lemma sorted_perm_unique (l1 l2 : list candidate) :
  Sorted key_le l1 -> Sorted key_le l2 -> Permutation l1 l2 ->
  List.NoDup (map path l1) -> l1 = l2.
Proof.
  revert l2. induction l1 as [| a l1 IH]; intros l2 S1 S2 P Hnd.
  - apply Permutation_nil in P. now subst.
  - destruct l2 as [| b l2]; [now apply Permutation_sym, Permutation_nil in P |].
    assert (Hab : a = b).
    { assert (Ha : In a (b :: l2)) by (eapply Permutation_in; [exact P | now left]).
      assert (Hb : In b (a :: l1))
        by (eapply Permutation_in; [symmetry; exact P | now left]).
      destruct Ha as [-> | Ha]; [reflexivity |].
      destruct Hb as [-> | Hb]; [reflexivity |].
      exfalso.
      pose proof (sorted_all_above _ _ S1 _ Hb) as H1.
      pose proof (sorted_all_above _ _ S2 _ Ha) as H2.
      pose proof (key_le_antisym _ _ H1 H2) as Hp.
      simpl in Hnd. apply List.NoDup_cons_iff in Hnd as [Hnotin _].
      apply Hnotin. rewrite Hp. now apply in_map. }
    subst b. f_equal. apply IH.
    + now inversion S1.
    + now inversion S2.
    + now apply Permutation_cons_inv in P.
    + simpl in Hnd. now apply List.NoDup_cons_iff in Hnd.
Qed.

Lemma collect_candidates_perm (t1 t2 : list item) :
  Permutation t1 t2 ->
  Permutation (collect_candidates t1) (collect_candidates t2).
Proof.
  induction 1 as [| x l l' _ IH | x y l | l l' l'' _ IH1 _ IH2].
  - reflexivity.
  - simpl. destruct (negb _); [exact IH |].
    destruct (_should_skip _); [exact IH |].
    destruct (_ =? 99); [exact IH | now constructor].
  - simpl.
    destruct (negb (item_type y =? "blob")%string), (negb (item_type x =? "blob")%string);
      try reflexivity;
      destruct (_should_skip (item_path y)), (_should_skip (item_path x));
      try reflexivity;
      destruct (_get_tier (item_path y) (get_size y) =? 99),
               (_get_tier (item_path x) (get_size x) =? 99);
      try reflexivity.
    apply perm_swap.
  - etransitivity; eassumption.
Qed.

(** The selection does not depend on the order in which the tree lists
    its entries, as long as their paths are pairwise distinct. *)
Theorem select_files_order_independent (t1 t2 : list item) :
  Permutation t1 t2 -> List.NoDup (map item_path t1) ->
  select_files t1 = select_files t2.
Proof.
  intros P Hnd. unfold select_files.
  apply sorted_perm_unique.
  - apply sort_candidates_sorted.
  - apply sort_candidates_sorted.
  - rewrite !sort_candidates_perm. now apply collect_candidates_perm.
  - eapply Permutation_NoDup.
    + apply Permutation_map. symmetry. apply sort_candidates_perm.
    + now apply collect_candidates_nodup.
Qed.

Lemma select_files_order_independent_witness :
  select_files sample_tree = select_files (rev sample_tree).
Proof.
  apply select_files_order_independent.
  - apply Permutation_rev.
  - simpl. repeat (constructor; [simpl; intuition discriminate |]). constructor.
Defined.

End SelectionMore.

(** ** Skip rules: excluded directories and listed extensions *)

Section SkipMore.

Lemma lower_app (a b : string) : lower (a +:+ b) = lower a +:+ lower b.
Proof.
  induction a as [| c a IH]; [reflexivity |].
  rewrite append_cons. simpl. now rewrite IH.
Qed.

(** Lower-casing neither makes nor removes a slash or a dot. *)
Lemma lower_char_slash (c : ascii) :
  Ascii.eqb "/" (lower_char c) = Ascii.eqb "/" c.
Proof. destruct c as [[] [] [] [] [] [] [] []]; reflexivity. Qed.

Lemma lower_char_dot (c : ascii) :
  Ascii.eqb "." (lower_char c) = Ascii.eqb "." c.
Proof. destruct c as [[] [] [] [] [] [] [] []]; reflexivity. Qed.

Lemma contains_slash_lower (s : string) :
  contains_char "/" (lower s) = contains_char "/" s.
Proof.
  induction s as [| c s IH]; [reflexivity |].
  cbn [lower contains_char]. now rewrite lower_char_slash, IH.
Qed.

Lemma contains_dot_lower (s : string) :
  contains_char "." (lower s) = contains_char "." s.
Proof.
  induction s as [| c s IH]; [reflexivity |].
  cbn [lower contains_char]. now rewrite lower_char_dot, IH.
Qed.

Lemma all_dots_lower (s : string) : all_dots (lower s) = all_dots s.
Proof.
  induction s as [| c s IH]; [reflexivity |].
  cbn [lower all_dots]. rewrite IH. f_equal.
  rewrite Ascii.eqb_sym, lower_char_dot. apply Ascii.eqb_sym.
Qed.

Lemma removelast_split_after x (l : list string) (s : string) :
  removelast (l ++ x :: split "/" s) = l ++ x :: removelast (split "/" s).
Proof.
  rewrite removelast_app by discriminate.
  f_equal. simpl. destruct (split "/" s) eqn:E; [now apply split_not_nil in E |].
  reflexivity.
Qed.

Lemma should_skip_directory_parts (l : list string) (d after : string) :
  mem d SKIP_DIRS = true ->
  existsb (fun part => mem part SKIP_DIRS)
    (removelast (l ++ d :: split "/" after)) = true.
Proof.
  intros Hd. rewrite removelast_split_after, existsb_app. simpl.
  rewrite Hd. now rewrite orb_true_r.
Qed.

(** A path with an excluded directory name (in any letter case) among
    its directory segments is skipped, whether the directory is the first
    segment or lies deeper, and whatever follows it. *)
Theorem should_skip_excluded_directory (before dir after : string) :
  contains_char "/" dir = false ->
  lower dir ∈ SKIP_DIRS ->
  _should_skip (dir +:+ "/" +:+ after) = true
  /\ _should_skip (before +:+ "/" +:+ dir +:+ "/" +:+ after) = true.
Proof.
  intros Hslash Hin. apply mem_true in Hin.
  assert (Hl : contains_char "/" (lower dir) = false)
    by now rewrite contains_slash_lower.
  split; unfold _should_skip.
  - rewrite !lower_app.
    change (lower "/") with "/". rewrite !append_cons, !append_nil_l.
    rewrite split_app_sep, (split_no_sep _ _ Hl).
    change ([lower dir] ++ split "/" (lower after))
      with ([] ++ lower dir :: split "/" (lower after)).
    now rewrite should_skip_directory_parts.
  - rewrite !lower_app.
    change (lower "/") with "/". rewrite !append_cons, !append_nil_l.
    rewrite !split_app_sep, (split_no_sep _ _ Hl).
    change (split "/" (lower before) ++ [lower dir] ++ split "/" (lower after))
      with (split "/" (lower before) ++ lower dir :: split "/" (lower after)).
    now rewrite should_skip_directory_parts.
Qed.

Lemma should_skip_excluded_directory_witness :
  _should_skip ("Node_Modules" +:+ "/" +:+ "lodash/index.js") = true
  /\ _should_skip ("src" +:+ "/" +:+ "Node_Modules" +:+ "/" +:+ "lodash/index.js") = true.
Proof.
  apply should_skip_excluded_directory; [reflexivity |].
  apply mem_true. vm_compute. reflexivity.
Defined.

Lemma splitext_stem_ext (stem e : string) :
  contains_char "/" stem = false -> all_dots stem = false ->
  contains_char "/" e = false -> contains_char "." e = false ->
  splitext (stem +:+ String "." e) = (stem, String "." e).
Proof.
  intros Hs Hd He1 He2. unfold splitext, rfind.
  rewrite rfind_from_none, rfind_from_app by
    (try lia; try assumption;
     rewrite contains_char_append; simpl; now rewrite Hs, He1).
  pose proof (len_nonneg stem).
  destruct (Z.ltb_spec (-1) (0 + len stem)); [| lia].
  replace (slice (-1 + 1) (0 + len stem) (stem +:+ String "." e)) with stem.
  2:{ unfold slice. simpl drop. replace (Z.to_nat (0 + len stem - (-1 + 1)))
        with (String.length stem) by (unfold len; lia).
      now rewrite take_app_length. }
  rewrite Hd. simpl.
  replace (Z.to_nat (0 + len stem)) with (String.length stem) by (unfold len; lia).
  now rewrite take_app_length, drop_app_length.
Qed.

Lemma last_split_after (l : list string) (s : string) :
  contains_char "/" s = false ->
  last_part (l ++ split "/" s) = s.
Proof.
  intros H. rewrite (split_no_sep _ _ H). unfold last_part.
  now rewrite last_last.
Qed.

(** A file whose name is a stem followed by one extension is skipped when
    the lower-cased extension is in the table, whatever the letter case in
    the path and whatever the directory; the stem must not be empty or
    made of dots only, since such a name has no extension. *)
Theorem should_skip_extension_any_case (dirs stem e : string) :
  dirs = "" \/ (exists d, dirs = d +:+ "/") ->
  contains_char "/" stem = false -> all_dots stem = false ->
  contains_char "/" e = false -> contains_char "." e = false ->
  lower (String "." e) ∈ SKIP_EXTENSIONS ->
  _should_skip (dirs +:+ stem +:+ String "." e) = true.
Proof.
  intros Hdirs Hs Hd He1 He2 Hin. apply mem_true in Hin.
  assert (Hfile : contains_char "/" (lower (stem +:+ String "." e)) = false).
  { rewrite contains_slash_lower, contains_char_append. simpl. now rewrite Hs, He1. }
  assert (Hext : snd (splitext (lower (stem +:+ String "." e))) = lower (String "." e)).
  { rewrite lower_app. change (lower (String "." e)) with (String "." (lower e)).
    rewrite splitext_stem_ext; [reflexivity | | | |].
    - now rewrite contains_slash_lower.
    - now rewrite all_dots_lower.
    - now rewrite contains_slash_lower.
    - now rewrite contains_dot_lower. }
  assert (Hlast : last_part (split "/" (lower (dirs +:+ stem +:+ String "." e)))
                  = lower (stem +:+ String "." e)).
  { destruct Hdirs as [-> | [d ->]].
    - rewrite append_nil_l. apply (last_split_after [] _ Hfile).
    - rewrite append_assoc, lower_app.
      change ("/" +:+ ?x) with (String "/" x).
      change (lower (String "/" ?x)) with (String "/" (lower x)).
      rewrite split_app_sep. now apply last_split_after. }
  unfold _should_skip. rewrite Hlast, Hext, Hin.
  destruct (existsb _ _); [reflexivity |].
  now destruct (mem _ SKIP_FILES).
Qed.

Lemma should_skip_extension_any_case_witness :
  _should_skip ("Assets/" +:+ "Logo" +:+ String "." "PNG") = true.
Proof.
  apply (should_skip_extension_any_case "Assets/" "Logo" "PNG");
    [right; now exists "Assets" | reflexivity .. |].
  apply mem_true. vm_compute. reflexivity.
Defined.

End SkipMore.

(** ** Tree formatting: the number of lines *)

Section TreeLines.

Lemma format_tree_loop_lines (n : Z) (tree : list item) (lines : list string) :
  Z.of_nat (length lines) < MAX_TREE_LINES ->
  Z.of_nat (length (format_tree_loop n tree lines)) <= MAX_TREE_LINES + 1.
Proof.
  revert lines. induction tree as [| it tree IH]; intros lines Hlen; simpl.
  - lia.
  - destruct (existsb _ _); [now apply IH |].
    destruct (mem _ SKIP_EXTENSIONS || mem _ SKIP_FILES); [now apply IH |].
    match goal with
    | |- context [lines ++ [?line]] => set (l := line)
    end.
    destruct (Z.leb_spec MAX_TREE_LINES (Z.of_nat (length (lines ++ [l])))) as [H | H].
    + rewrite !length_app in *. simpl in *. lia.
    + now apply IH.
Qed.

(** The tree listing has at most [MAX_TREE_LINES] entry lines and one
    truncation notice, however many entries the tree has. *)
Theorem format_tree_line_count (tree : list item) :
  Z.of_nat (length (format_tree_loop (Z.of_nat (length tree)) tree []))
    <= MAX_TREE_LINES + 1.
Proof. apply format_tree_loop_lines. simpl. unfold MAX_TREE_LINES. lia. Qed.

End TreeLines.

(** ** Repository URLs: supported forms, returned names, validated requests *)

Section UrlMore.

Import github_fetcher models.

Variable bracketed_netloc_ok : string -> bool.

(** *** Characters that a name cannot hold *)

Lemma name_chars_exclude d (s : string) :
  is_name_char d = false -> all_chars is_name_char s = true ->
  contains_char d s = false.
Proof.
  intros Hd. induction s as [| c s IH]; [reflexivity |].
  cbn [all_chars contains_char]. intros H.
  apply andb_true_iff in H as [Hc Hs]. rewrite (IH Hs), orb_false_r.
  destruct (Ascii.eqb_spec d c) as [-> |]; [congruence | reflexivity].
Qed.

Lemma remove_unsafe_id (s : string) :
  contains_char "009" s = false -> contains_char "013" s = false ->
  contains_char "010" s = false -> remove_unsafe s = s.
Proof.
  induction s as [| c s IH]; [reflexivity |].
  cbn [contains_char remove_unsafe]. intros H1 H2 H3.
  apply orb_false_iff in H1 as [H1 H1'], H2 as [H2 H2'], H3 as [H3 H3'].
  rewrite (Ascii.eqb_sym c "009"), (Ascii.eqb_sym c "013"), (Ascii.eqb_sym c "010").
  rewrite H1, H2, H3. cbn [orb]. now rewrite IH.
Qed.

Lemma break_at_none p (s : string) :
  all_chars (fun c => negb (p c)) s = true -> break_at p s = (s, "").
Proof.
  induction s as [| c s IH]; [reflexivity |].
  cbn [all_chars break_at]. intros H. apply andb_true_iff in H as [Hc Hs].
  apply negb_true_iff in Hc. rewrite Hc, (IH Hs). reflexivity.
Qed.

Lemma before_none c (s : string) : contains_char c s = false -> before c s = s.
Proof.
  unfold before. induction s as [| d s IH]; [reflexivity |].
  cbn [contains_char break_at]. intros H. apply orb_false_iff in H as [Hd Hs].
  rewrite Hd. specialize (IH Hs). destruct (break_at (Ascii.eqb c) s).
  simpl in *. now rewrite IH.
Qed.

(** The path of a repository: an owner, a slash, a repository name. *)
Lemma repo_path_clean d (owner repo : string) :
  is_name_char d = false -> Ascii.eqb d "/" = false ->
  all_chars is_name_char owner = true -> all_chars is_name_char repo = true ->
  contains_char d (owner +:+ String "/" repo) = false.
Proof.
  intros Hd Hs Ho Hr. rewrite contains_char_append. cbn [contains_char].
  now rewrite (name_chars_exclude d owner Hd Ho), (name_chars_exclude d repo Hd Hr), Hs.
Qed.

Lemma break_at_app_stop p (a : string) c (b : string) :
  all_chars (fun c => negb (p c)) a = true -> p c = true ->
  break_at p (a +:+ String c b) = (a, String c b).
Proof.
  intros Ha Hc. induction a as [| x a IH].
  - rewrite append_nil_l. cbn [break_at]. now rewrite Hc.
  - rewrite append_cons. cbn [all_chars break_at] in *.
    apply andb_true_iff in Ha as [Hx Ha]. apply negb_true_iff in Hx.
    now rewrite Hx, (IH Ha).
Qed.

Lemma prefix_empty (s : string) : String.prefix "" s = true.
Proof. now destruct s. Qed.

Lemma urlparse_at (url sch host rest : string) :
  lstrip is_c0_or_space url = url -> remove_unsafe url = url ->
  split_scheme url = (sch, "//" +:+ host +:+ String "/" rest) ->
  all_chars (fun c => negb (is_netloc_delim c)) host = true ->
  contains_char "[" host = false -> contains_char "]" host = false ->
  contains_char "#" rest = false -> contains_char "?" rest = false ->
  contains_char ";" rest = false ->
  urlparse bracketed_netloc_ok url
  = Some {| scheme := sch; netloc := host; url_path := String "/" rest |}.
Proof.
  intros H1 H2 H3 Hhost Hopen Hclose Hh Hq Hs.
  assert (Hpath : before "?" (before "#" (String "/" rest)) = String "/" rest).
  { rewrite (before_none "#"), (before_none "?"); trivial;
      cbn [contains_char]; now rewrite ?Hh, ?Hq. }
  unfold urlparse, urlsplit. rewrite H1, H2, H3. cbv beta iota zeta.
  change (String.prefix "//" ("//" +:+ ?x)) with (String.prefix "" x).
  rewrite prefix_empty.
  change (drop 2 ("//" +:+ ?x)) with x. cbv iota.
  rewrite (break_at_app_stop is_netloc_delim host "/" rest Hhost eq_refl).
  rewrite Hopen, Hclose. cbn [andb orb negb]. rewrite Hpath.
  cbn [scheme url_path contains_char]. rewrite Hs.
  change (Ascii.eqb ";" "/") with false. cbn [orb]. now rewrite andb_false_r.
Qed.

Lemma urlparse_github (pre rest : string) :
  In pre repo_url_prefixes ->
  remove_unsafe rest = rest ->
  contains_char "#" rest = false -> contains_char "?" rest = false ->
  contains_char ";" rest = false ->
  exists r, urlparse bracketed_netloc_ok (pre +:+ rest) = Some r
    /\ url_path r = String "/" rest
    /\ (hostname r = Some "github.com" \/ hostname r = Some "www.github.com").
Proof.
  intros Hpre Hu Hh Hq Hs.
  unfold repo_url_prefixes in Hpre. cbn [In] in Hpre.
  destruct Hpre as [<- | [<- | [<- | [<- | []]]]].
  - exists {| scheme := "https"; netloc := "github.com"; url_path := String "/" rest |}.
    split; [| split; [reflexivity | now left]].
    apply urlparse_at; trivial.
    change (remove_unsafe ("https://github.com/" +:+ rest))
      with ("https://github.com/" +:+ remove_unsafe rest). now rewrite Hu.
  - exists {| scheme := "http"; netloc := "github.com"; url_path := String "/" rest |}.
    split; [| split; [reflexivity | now left]].
    apply urlparse_at; trivial.
    change (remove_unsafe ("http://github.com/" +:+ rest))
      with ("http://github.com/" +:+ remove_unsafe rest). now rewrite Hu.
  - exists {| scheme := "https"; netloc := "www.github.com"; url_path := String "/" rest |}.
    split; [| split; [reflexivity | now right]].
    apply urlparse_at; trivial.
    change (remove_unsafe ("https://www.github.com/" +:+ rest))
      with ("https://www.github.com/" +:+ remove_unsafe rest). now rewrite Hu.
  - exists {| scheme := "http"; netloc := "www.github.com"; url_path := String "/" rest |}.
    split; [| split; [reflexivity | now right]].
    apply urlparse_at; trivial.
    change (remove_unsafe ("http://www.github.com/" +:+ rest))
      with ("http://www.github.com/" +:+ remove_unsafe rest). now rewrite Hu.
Qed.

(** *** Trimming a string that ends in a name *)

Lemma name_char_not_space (c : ascii) :
  is_name_char c = true -> isspace c = false.
Proof.
  destruct c as [[] [] [] [] [] [] [] []]; intros H; try reflexivity;
    vm_compute in H; discriminate H.
Qed.

Lemma name_char_not_slash (c : ascii) :
  is_name_char c = true -> Ascii.eqb "/" c = false.
Proof.
  intros H. destruct (Ascii.eqb_spec "/" c) as [<- |]; [discriminate H | reflexivity].
Qed.

Lemma rev_string_nonempty (s : string) : s <> "" -> rev_string s <> "".
Proof.
  intros Hs E. apply Hs. rewrite <- (rev_string_involutive s), E. reflexivity.
Qed.

Lemma rstrip_keep p (a s : string) :
  (forall c, is_name_char c = true -> p c = false) ->
  s <> "" -> all_chars is_name_char s = true ->
  rstrip p (a +:+ s) = a +:+ s.
Proof.
  intros Hp Hs Hall. unfold rstrip. rewrite rev_string_app.
  pose proof (rev_string_nonempty s Hs) as Hne.
  rewrite <- all_chars_rev in Hall.
  destruct (rev_string s) as [| c r] eqn:E; [congruence |].
  cbn [all_chars] in Hall. apply andb_true_iff in Hall as [Hc _].
  rewrite append_cons. cbn [lstrip]. rewrite (Hp c Hc).
  rewrite <- append_cons, <- E, <- rev_string_app. apply rev_string_involutive.
Qed.

Lemma lstrip_app_all p (a b : string) :
  all_chars p a = true -> lstrip p (a +:+ b) = lstrip p b.
Proof.
  induction a as [| c a IH]; [now rewrite append_nil_l |].
  cbn [all_chars]. intros H. apply andb_true_iff in H as [Hc Ha].
  rewrite append_cons. cbn [lstrip]. now rewrite Hc, IH.
Qed.

Lemma rstrip_app_all p (a b : string) :
  all_chars p b = true -> rstrip p (a +:+ b) = rstrip p a.
Proof.
  intros H. unfold rstrip. rewrite rev_string_app, lstrip_app_all; [reflexivity |].
  now rewrite all_chars_rev.
Qed.

(** What [url.strip().rstrip("/")] leaves of a string that starts with a
    letter and ends in a name, with or without a slash after it. *)
Lemma normalise_name_end c (t s tail : string) :
  isspace c = false -> s <> "" -> all_chars is_name_char s = true ->
  tail = "" \/ tail = "/" ->
  rstrip (Ascii.eqb "/") (strip isspace (String c t +:+ s +:+ tail))
  = String c t +:+ s.
Proof.
  intros Hc Hs Hall Htail. unfold strip.
  rewrite append_cons. cbn [lstrip]. rewrite Hc, <- append_cons.
  destruct Htail as [-> | ->].
  - rewrite append_nil_r, !rstrip_keep; auto using name_char_not_space, name_char_not_slash.
  - rewrite <- append_assoc.
    rewrite (rstrip_app_stop isspace _ "/" "" eq_refl).
    change (rstrip isspace "") with "".
    rewrite (rstrip_app_all (Ascii.eqb "/") _ "/" eq_refl).
    apply rstrip_keep; auto using name_char_not_slash.
Qed.

(** *** The suffix [.git] *)

Lemma prefix_app_sep (p a : string) c (b : string) :
  contains_char c p = false ->
  String.prefix p (a +:+ String c b) = String.prefix p a.
Proof.
  revert a. induction p as [| x p IH]; intros a H.
  - now rewrite !prefix_empty.
  - cbn [contains_char] in H. apply orb_false_iff in H as [Hx Hp].
    destruct a as [| y a].
    + rewrite append_nil_l. cbn [String.prefix].
      destruct (ascii_dec x c) as [-> |]; [now rewrite Ascii.eqb_refl in Hx | reflexivity].
    + rewrite append_cons. cbn [String.prefix].
      destruct (ascii_dec x y); [now apply IH | reflexivity].
Qed.

Lemma endswith_after_slash (a s : string) :
  endswith ".git" (a +:+ String "/" s) = endswith ".git" s.
Proof.
  unfold endswith. rewrite rev_string_app, (rev_string_cons "/" s), append_assoc.
  change (String "/" "" +:+ rev_string a) with (String "/" (rev_string a)).
  now apply prefix_app_sep.
Qed.

Lemma endswith_app (p a : string) : endswith p (a +:+ p) = true.
Proof.
  unfold endswith. rewrite rev_string_app.
  induction (rev_string p) as [| c r IH]; [apply prefix_empty |].
  rewrite append_cons. cbn [String.prefix].
  destruct (ascii_dec c c); [exact IH | congruence].
Qed.

Lemma prefix_decomp (p s : string) :
  String.prefix p s = true -> s = p +:+ drop (String.length p) s.
Proof.
  revert s. induction p as [| c p IH]; intros s H; [reflexivity |].
  destruct s as [| d s]; [discriminate H |].
  cbn [String.prefix] in H. destruct (ascii_dec c d) as [-> |]; [| discriminate H].
  rewrite append_cons. cbn [String.length drop]. now rewrite <- (IH s H).
Qed.

Lemma endswith_decomp (p s : string) :
  endswith p s = true -> exists r, s = r +:+ p.
Proof.
  unfold endswith. intros H. apply prefix_decomp in H.
  exists (rev_string (drop (String.length (rev_string p)) (rev_string s))).
  rewrite <- (rev_string_involutive p) at 2. rewrite <- rev_string_app, <- H.
  now rewrite rev_string_involutive.
Qed.

Lemma slice_to_drop_suffix (a : string) :
  slice_to (-4) (a +:+ ".git") = a.
Proof.
  unfold slice_to. change (0 <=? -4) with false. cbv iota.
  rewrite length_append. change (String.length ".git") with 4%nat.
  change (Z.to_nat (- -4)) with 4%nat.
  replace (String.length a + 4 - 4)%nat with (String.length a) by lia.
  apply take_app_length.
Qed.

(** *** From the trimmed URL to the result *)

Lemma prefix_head (pre : string) :
  In pre repo_url_prefixes -> exists t, pre = String "h" t.
Proof.
  unfold repo_url_prefixes. cbn [In].
  intros [<- | [<- | [<- | [<- | []]]]]; eexists; reflexivity.
Qed.

Lemma nonempty_eqb (s : string) : s <> "" -> String.eqb s "" = false.
Proof. destruct s; [congruence | reflexivity]. Qed.

Lemma filter_nonempty_cons (s : string) (l : list string) :
  s <> "" ->
  filter (fun p => negb (String.eqb p "")) (s :: l)
  = s :: filter (fun p => negb (String.eqb p "")) l.
Proof.
  intros Hs. apply filter_cons_True. now rewrite (nonempty_eqb s Hs).
Qed.

Lemma name_pattern_match_names (s : string) :
  s <> "" -> all_chars is_name_char s = true -> name_pattern_match s = true.
Proof.
  intros Hs H. unfold name_pattern_match. destruct s; [congruence |].
  now rewrite H.
Qed.

Lemma strip_slashes_path (owner s : string) :
  owner <> "" -> all_chars is_name_char owner = true ->
  lstrip (Ascii.eqb "/") (String "/" (owner +:+ s)) = owner +:+ s.
Proof.
  intros Ho Hall. cbn [lstrip]. change (Ascii.eqb "/" "/") with true. cbv iota.
  destruct owner as [| c o]; [congruence |].
  cbn [all_chars] in Hall. apply andb_true_iff in Hall as [Hc _].
  rewrite append_cons. cbn [lstrip]. now rewrite (name_char_not_slash c Hc).
Qed.

Lemma parse_github_url_trimmed (url pre owner repo : string) :
  (let u := rstrip (Ascii.eqb "/") (strip isspace url) in
   if endswith ".git" u then slice_to (-4) u else u)
  = pre +:+ owner +:+ String "/" repo ->
  In pre repo_url_prefixes ->
  owner <> "" -> all_chars is_name_char owner = true ->
  all_chars is_name_char repo = true ->
  parse_github_url bracketed_netloc_ok url
  = if String.eqb repo "" then Raise (GitHubFetchError NO_OWNER_REPO 400)
    else Ok (owner, repo).
Proof.
  intros Hu Hpre Ho Hao Har. cbv zeta in Hu.
  unfold parse_github_url. cbv zeta. rewrite Hu.
  destruct (urlparse_github pre (owner +:+ String "/" repo) Hpre)
    as (r & Hr & Hp & Hh).
  - apply remove_unsafe_id; now apply repo_path_clean.
  - now apply repo_path_clean.
  - now apply repo_path_clean.
  - now apply repo_path_clean.
  - rewrite Hr, Hp.
    replace (negb (bool_decide (hostname r = Some "github.com")
                   || bool_decide (hostname r = Some "www.github.com")))
      with false.
    2:{ destruct Hh as [-> | ->]; reflexivity. }
    unfold strip. rewrite (strip_slashes_path owner _ Ho Hao).
    pose proof (name_chars_exclude "/" owner eq_refl Hao) as Hso.
    pose proof (name_chars_exclude "/" repo eq_refl Har) as Hsr.
    destruct repo as [| c repo'].
    + rewrite (rstrip_app_all (Ascii.eqb "/") owner "/" eq_refl).
      replace (rstrip (Ascii.eqb "/") owner) with owner.
      2:{ rewrite <- (append_nil_l owner) at 2.
          rewrite rstrip_keep; auto using name_char_not_slash. }
      rewrite (split_no_sep _ _ Hso), (filter_nonempty_cons owner [] Ho).
      reflexivity.
    + replace (owner +:+ String "/" (String c repo'))
        with ((owner +:+ "/") +:+ String c repo') by now rewrite append_assoc.
      rewrite (rstrip_keep (Ascii.eqb "/") (owner +:+ "/") (String c repo')
                 name_char_not_slash ltac:(discriminate) Har).
      rewrite append_assoc. change ("/" +:+ ?x) with (String "/" x).
      rewrite split_app_sep, (split_no_sep _ _ Hso), (split_no_sep _ _ Hsr).
      cbn [app]. rewrite (filter_nonempty_cons owner _ Ho).
      rewrite (filter_nonempty_cons (String c repo') []) by discriminate.
      change (String.eqb (String c repo') "") with false. cbv iota.
      rewrite (name_pattern_match_names owner Ho Hao).
      rewrite (name_pattern_match_names (String c repo')); [reflexivity | discriminate | assumption].
Qed.

(** Each form of URL that the docstring lists is parsed to its owner and
    repository: scheme http or https, host github.com or www.github.com,
    then the two names, with or without [.git] and a final slash. *)
Theorem parse_github_url_supported_forms (pre owner repo suffix : string) :
  In pre repo_url_prefixes -> In suffix repo_url_suffixes ->
  owner <> "" -> repo <> "" ->
  all_chars is_name_char owner = true -> all_chars is_name_char repo = true ->
  endswith ".git" repo = false ->
  parse_github_url bracketed_netloc_ok
    (pre +:+ owner +:+ "/" +:+ repo +:+ suffix) = Ok (owner, repo).
Proof.
  intros Hpre Hsuf Ho Hr Hao Har Hgit.
  change ("/" +:+ ?x) with (String "/" x).
  rewrite (parse_github_url_trimmed _ pre owner repo); trivial.
  - now rewrite (nonempty_eqb repo Hr).
  - cbv zeta. destruct (prefix_head pre Hpre) as [t ->].
    assert (Hkeep : forall tail, tail = "" \/ tail = "/" ->
              rstrip (Ascii.eqb "/")
                (strip isspace (String "h" t +:+ owner +:+ String "/" (repo +:+ tail)))
              = String "h" t +:+ owner +:+ String "/" repo).
    { intros tail Htail.
      replace (String "h" t +:+ owner +:+ String "/" (repo +:+ tail))
        with (String "h" (t +:+ owner +:+ "/") +:+ repo +:+ tail)
        by (rewrite !append_cons, !append_assoc; reflexivity).
      rewrite normalise_name_end; trivial.
      rewrite !append_cons, !append_assoc; reflexivity. }
    assert (Hdrop : forall tail, tail = "" \/ tail = "/" ->
              rstrip (Ascii.eqb "/")
                (strip isspace
                   (String "h" t +:+ owner +:+ String "/" (repo +:+ ".git" +:+ tail)))
              = (String "h" t +:+ owner +:+ String "/" repo) +:+ ".git").
    { intros tail Htail.
      replace (String "h" t +:+ owner +:+ String "/" (repo +:+ ".git" +:+ tail))
        with (String "h" (t +:+ owner +:+ String "/" repo) +:+ ".git" +:+ tail)
        by (rewrite !append_cons, !append_assoc; reflexivity).
      rewrite normalise_name_end; trivial; try discriminate. }
    unfold repo_url_suffixes in Hsuf. cbn [In] in Hsuf.
    destruct Hsuf as [<- | [<- | [<- | [<- | []]]]].
    + rewrite (Hkeep "") by now left.
      rewrite <- append_assoc, endswith_after_slash, Hgit. reflexivity.
    + rewrite (Hkeep "/") by now right.
      rewrite <- append_assoc, endswith_after_slash, Hgit. reflexivity.
    + specialize (Hdrop "" (or_introl eq_refl)). rewrite append_nil_r in Hdrop.
      rewrite Hdrop. now rewrite endswith_app, slice_to_drop_suffix.
    + specialize (Hdrop "/" (or_intror eq_refl)).
      change (".git" +:+ "/") with ".git/" in Hdrop.
      rewrite Hdrop. now rewrite endswith_app, slice_to_drop_suffix.
Qed.

(** *** No line feed reaches the names *)

Lemma remove_unsafe_no_LF (s : string) :
  contains_char LF (remove_unsafe s) = false.
Proof.
  induction s as [| c s IH]; [reflexivity |].
  cbn [remove_unsafe].
  destruct (Ascii.eqb c "009" || Ascii.eqb c "013" || Ascii.eqb c "010") eqn:E;
    [exact IH |].
  cbn [contains_char]. rewrite IH, orb_false_r.
  apply orb_false_iff in E as [_ E]. now rewrite Ascii.eqb_sym.
Qed.

Lemma contains_char_drop c n (s : string) :
  contains_char c s = false -> contains_char c (drop n s) = false.
Proof.
  revert s. induction n as [| n IH]; intros s H; [exact H |].
  destruct s as [| d s]; [reflexivity |].
  cbn [contains_char drop] in *. apply orb_false_iff in H as [_ H]. now apply IH.
Qed.

Lemma contains_char_take c n (s : string) :
  contains_char c s = false -> contains_char c (take n s) = false.
Proof.
  revert s. induction n as [| n IH]; intros s H; [now destruct s |].
  destruct s as [| d s]; [reflexivity |].
  cbn [contains_char take] in *. apply orb_false_iff in H as [Hd H].
  now rewrite Hd, IH.
Qed.

Lemma contains_char_break_at c p (s : string) :
  contains_char c s = false ->
  contains_char c (fst (break_at p s)) = false
  /\ contains_char c (snd (break_at p s)) = false.
Proof.
  induction s as [| d s IH]; [now split |].
  intros H. cbn [break_at]. destruct (p d); [now split |].
  cbn [contains_char] in H. apply orb_false_iff in H as [Hd H].
  destruct (IH H) as [H1 H2]. destruct (break_at p s) as [a b].
  cbn [fst snd contains_char] in *. now rewrite Hd, H1.
Qed.

Lemma contains_char_before c d (s : string) :
  contains_char c s = false -> contains_char c (before d s) = false.
Proof. intros H. now apply contains_char_break_at. Qed.

Lemma split_scheme_no_LF (url : string) :
  contains_char LF url = false ->
  contains_char LF (snd (split_scheme url)) = false.
Proof.
  intros H. unfold split_scheme. destruct url as [| c0 u]; [reflexivity |].
  destruct (_ && _); [| exact H].
  now apply contains_char_drop.
Qed.

Lemma strip_params_no_LF (url : string) :
  contains_char LF url = false -> contains_char LF (strip_params url) = false.
Proof.
  intros H. unfold strip_params. rewrite contains_char_append.
  rewrite contains_char_take by exact H.
  now rewrite contains_char_before by now apply contains_char_drop.
Qed.

Lemma urlparse_path_no_LF (url : string) r :
  urlparse bracketed_netloc_ok url = Some r ->
  contains_char LF (url_path r) = false.
Proof.
  unfold urlparse, urlsplit.
  pose proof (split_scheme_no_LF _ (remove_unsafe_no_LF (lstrip is_c0_or_space url))) as H.
  destruct (split_scheme _) as [sch u]. cbn [snd] in H.
  assert (Hrest : contains_char LF
            (snd (if String.prefix "//" u then break_at is_netloc_delim (drop 2 u)
                  else ("", u))) = false).
  { destruct (String.prefix "//" u); [| exact H].
    now apply contains_char_break_at, contains_char_drop. }
  destruct (if String.prefix "//" u then _ else _) as [nl' u'].
  cbn [snd] in Hrest.
  destruct (_ || _); [discriminate |]. destruct (_ && _); [discriminate |].
  assert (Hp : contains_char LF (before "?" (before "#" u')) = false)
    by now apply contains_char_before, contains_char_before.
  cbn [scheme url_path netloc].
  destruct (_ && _); intros E; injection E as <-; cbn [url_path];
    [now apply strip_params_no_LF | exact Hp].
Qed.

Lemma split_absent d sep (s : string) :
  contains_char d s = false ->
  List.Forall (fun x => contains_char d x = false) (split sep s).
Proof.
  induction s as [| c s IH]; intros H; cbn [split]; [repeat constructor |].
  cbn [contains_char] in H. apply orb_false_iff in H as [Hc H].
  specialize (IH H).
  destruct (Ascii.eqb c sep); [constructor; [reflexivity | exact IH] |].
  destruct (split sep s) as [| piece rest].
  - repeat constructor. cbn [contains_char]. now rewrite Hc.
  - inversion IH; subst. constructor; [| assumption].
    cbn [contains_char]. now rewrite Hc.
Qed.

Lemma name_pattern_match_no_LF (s : string) :
  name_pattern_match s = true -> contains_char LF s = false ->
  s <> "" /\ all_chars is_name_char s = true.
Proof.
  unfold name_pattern_match. destruct s as [| c s]; [discriminate |].
  intros H HLF. split; [discriminate |].
  apply orb_true_iff in H as [H | H]; [exact H |].
  apply andb_true_iff in H as [H _]. apply andb_true_iff in H as [H _].
  apply endswith_decomp in H as [r Hr]. rewrite Hr, contains_char_append in HLF.
  apply orb_false_iff in HLF as [_ HLF]. discriminate HLF.
Qed.

(** Unless [urlparse] raises, the function raises its own error, with
    status 400, or returns two names made of word characters, dots and
    hyphens only: the line feed that [$] would let through at the end of a
    name cannot occur, since [urlsplit] removes line feeds. *)
Theorem parse_github_url_when_parsed (url : string) :
  parse_github_url bracketed_netloc_ok url <> Raise ValueError ->
  (exists msg,
     parse_github_url bracketed_netloc_ok url = Raise (GitHubFetchError msg 400))
  \/ (exists owner repo,
        parse_github_url bracketed_netloc_ok url = Ok (owner, repo)
        /\ owner <> "" /\ repo <> ""
        /\ all_chars is_name_char owner = true
        /\ all_chars is_name_char repo = true).
Proof.
  unfold parse_github_url. cbv zeta.
  set (u := if endswith ".git" _ then _ else _).
  destruct (urlparse bracketed_netloc_ok u) as [r |] eqn:Hr; [| congruence].
  intros _. apply urlparse_path_no_LF in Hr.
  destruct (negb _); [left; eauto |].
  pose proof (split_absent LF "/" _
                (contains_char_rstrip LF (Ascii.eqb "/") _
                   (contains_char_lstrip LF (Ascii.eqb "/") _ Hr))) as Hall.
  fold (strip (Ascii.eqb "/") (url_path r)) in Hall.
  assert (Hf : forall x,
             x ∈ filter (fun p => negb (String.eqb p ""))
                   (split "/" (strip (Ascii.eqb "/") (url_path r))) ->
             contains_char LF x = false).
  { intros x Hx. apply list_elem_of_filter in Hx as [_ Hx].
    apply list_elem_of_In in Hx. revert x Hx. now apply List.Forall_forall. }
  destruct (filter _ _) as [| owner [| repo rest]]; [left; eauto | left; eauto |].
  destruct (negb (name_pattern_match owner) || negb (name_pattern_match repo)) eqn:E;
    [left; eauto |].
  apply orb_false_iff in E as [Eo Er]. apply negb_false_iff in Eo, Er.
  right. exists owner, repo.
  destruct (name_pattern_match_no_LF owner Eo) as [? ?];
    [apply Hf; set_solver |].
  destruct (name_pattern_match_no_LF repo Er) as [? ?];
    [apply Hf; set_solver |].
  tauto.
Qed.

(** *** The request validator *)

Lemma star_greedy_some p k (s g : string) :
  star_greedy p k s = Some g ->
  exists a b, s = a +:+ b /\ all_chars p a = true /\ k b = Some g.
Proof.
  induction s as [| c s IH]; cbn [star_greedy]; intros H.
  - now exists "", "".
  - destruct (p c) eqn:Hc; [| now exists "", (String c s)].
    destruct (star_greedy p k s) as [g' |] eqn:E; [| now exists "", (String c s)].
    injection H as ->. destruct (IH eq_refl) as (a & b & -> & Ha & Hk).
    exists (String c a), b. cbn [all_chars]. now rewrite Hc, Ha.
Qed.

Lemma plus_greedy_some p k (s g : string) :
  plus_greedy p k s = Some g ->
  exists a b, s = a +:+ b /\ a <> "" /\ all_chars p a = true /\ k b = Some g.
Proof.
  unfold plus_greedy. destruct s as [| c s]; [discriminate |].
  destruct (p c) eqn:Hc; [| discriminate]. intros H.
  apply star_greedy_some in H as (a & b & -> & Ha & Hk).
  exists (String c a), b. cbn [all_chars]. rewrite Hc, Ha.
  repeat split; trivial. discriminate.
Qed.

Lemma lit_some l k (s g : string) :
  lit l k s = Some g -> exists b, s = l +:+ b /\ k b = Some g.
Proof.
  unfold lit. destruct (String.prefix l s) eqn:E; [| discriminate].
  intros H. exists (drop (String.length l) s). split; [now apply prefix_decomp | exact H].
Qed.

Lemma opt_lit_some l k (s g : string) :
  opt_lit l k s = Some g ->
  exists b, (s = l +:+ b \/ s = b) /\ k b = Some g.
Proof.
  unfold opt_lit. destruct (lit l k s) as [g' |] eqn:E.
  - intros H. injection H as ->. apply lit_some in E as (b & -> & Hk).
    exists b. split; [now left | exact Hk].
  - intros H. exists s. split; [now right | exact H].
Qed.

Lemma at_end_some (s g : string) : at_end s = Some g -> s = "" \/ s = nl.
Proof.
  unfold at_end. destruct (String.eqb_spec s "") as [-> |]; [now left |].
  destruct (String.eqb_spec s nl) as [-> |]; [now right | discriminate].
Qed.

Lemma url_pattern_shape (s : string) :
  url_pattern_match s = true ->
  exists pre owner repo tail,
    (pre = "https://github.com/" \/ pre = "http://github.com/")
    /\ s = pre +:+ owner +:+ String "/" (repo +:+ tail)
    /\ owner <> "" /\ all_chars is_name_char owner = true
    /\ repo <> "" /\ all_chars is_name_char repo = true
    /\ (tail = "" \/ tail = "/" \/ tail = nl \/ tail = String "/" nl).
Proof.
  unfold url_pattern_match.
  destruct (lit "http" _ s) as [g |] eqn:E; [intros _ | discriminate].
  apply lit_some in E as (s1 & -> & E).
  apply opt_lit_some in E as (s2 & Hs2 & E).
  apply lit_some in E as (s3 & -> & E).
  apply plus_greedy_some in E as (owner & s4 & -> & Ho & Hao & E).
  apply lit_some in E as (s5 & -> & E).
  apply plus_greedy_some in E as (repo & s6 & -> & Hr & Har & E).
  apply opt_lit_some in E as (s7 & Hs7 & E).
  apply at_end_some in E.
  assert (Htail : s6 = "" \/ s6 = "/" \/ s6 = nl \/ s6 = String "/" nl).
  { destruct Hs7 as [-> | ->], E as [-> | ->]; auto. }
  destruct Hs2 as [-> | ->].
  - exists "https://github.com/", owner, repo, s6. repeat split; auto.
  - exists "http://github.com/", owner, repo, s6. repeat split; auto.
Qed.

Lemma lstrip_head p (s : string) c (t : string) :
  lstrip p s = String c t -> p c = false.
Proof.
  induction s as [| d s IH]; [discriminate |].
  cbn [lstrip]. destruct (p d) eqn:E; [exact IH |].
  intros H. injection H as <- _. exact E.
Qed.

Lemma rstrip_last p (s a : string) c :
  rstrip p s = a +:+ String c "" -> p c = false.
Proof.
  unfold rstrip. intros H. apply (f_equal rev_string) in H.
  rewrite rev_string_involutive, rev_string_app in H.
  now apply lstrip_head in H.
Qed.

(** A URL that the request validator accepts never makes
    [parse_github_url] fail in [urlparse] or on the host: what the
    validator returns is a prefix for github.com, an owner and a
    repository name, and it is parsed to the owner and the name without a
    final [.git]; only the name [.git] itself is turned down, with status
    400. *)
Theorem validated_url_is_parsed (v u : string) :
  validate_github_url v = Ok u ->
  exists owner repo,
    (u = "https://github.com/" +:+ owner +:+ "/" +:+ repo
     \/ u = "http://github.com/" +:+ owner +:+ "/" +:+ repo)
    /\ owner <> "" /\ all_chars is_name_char owner = true
    /\ repo <> "" /\ all_chars is_name_char repo = true
    /\ parse_github_url bracketed_netloc_ok u
       = if String.eqb repo ".git"
         then Raise (GitHubFetchError NO_OWNER_REPO 400)
         else Ok (owner, if endswith ".git" repo then slice_to (-4) repo else repo).
Proof.
  unfold validate_github_url.
  destruct (url_pattern_match (strip isspace v)) eqn:E; [| discriminate].
  cbn [negb]. intros H. injection H as <-.
  apply url_pattern_shape in E
    as (pre & owner & repo & tail & Hpre & Hs & Ho & Hao & Hr & Har & Htail).
  assert (Hin : In pre repo_url_prefixes).
  { destruct Hpre as [-> | ->]; [now left | right; now left]. }
  destruct (prefix_head pre Hin) as [t Ht].
  assert (Htail' : tail = "" \/ tail = "/").
  { destruct Htail as [-> | [-> | [-> | ->]]]; auto; exfalso.
    - unfold strip in Hs.
      replace (pre +:+ owner +:+ String "/" (repo +:+ nl))
        with ((pre +:+ owner +:+ String "/" repo) +:+ String LF "") in Hs
        by (rewrite !append_assoc, ?append_cons, ?append_assoc; reflexivity).
      apply rstrip_last in Hs. discriminate Hs.
    - unfold strip in Hs.
      replace (pre +:+ owner +:+ String "/" (repo +:+ String "/" nl))
        with ((pre +:+ owner +:+ String "/" (repo +:+ "/")) +:+ String LF "") in Hs
        by (rewrite !append_assoc, ?append_cons, ?append_assoc; reflexivity).
      apply rstrip_last in Hs. discriminate Hs. }
  assert (Hu : rstrip (Ascii.eqb "/") (strip isspace v)
               = pre +:+ owner +:+ String "/" repo).
  { rewrite Hs. destruct Htail' as [-> | ->].
    - rewrite append_nil_r.
      replace (pre +:+ owner +:+ String "/" repo)
        with ((pre +:+ owner +:+ "/") +:+ repo)
        by (rewrite !append_assoc; reflexivity).
      apply rstrip_keep; auto using name_char_not_slash.
    - replace (pre +:+ owner +:+ String "/" (repo +:+ "/"))
        with (((pre +:+ owner +:+ "/") +:+ repo) +:+ "/")
        by (rewrite !append_assoc; reflexivity).
      rewrite (rstrip_app_all (Ascii.eqb "/") _ "/" eq_refl).
      rewrite rstrip_keep; auto using name_char_not_slash.
      rewrite !append_assoc; reflexivity. }
  rewrite Hu. exists owner, repo.
  split; [destruct Hpre as [-> | ->]; auto |].
  repeat (split; [assumption |]).
  assert (Hnorm : rstrip (Ascii.eqb "/")
                    (strip isspace (pre +:+ owner +:+ String "/" repo))
                  = pre +:+ owner +:+ String "/" repo).
  { rewrite Ht.
    replace (String "h" t +:+ owner +:+ String "/" repo)
      with (String "h" (t +:+ owner +:+ "/") +:+ repo +:+ "")
      by (rewrite append_nil_r, !append_cons, !append_assoc; reflexivity).
    rewrite normalise_name_end; auto.
    rewrite append_nil_r. reflexivity. }
  destruct (endswith ".git" repo) eqn:Hgit.
  - apply endswith_decomp in Hgit as [r ->].
    rewrite all_chars_app in Har. apply andb_true_iff in Har as [Har _].
    rewrite (parse_github_url_trimmed _ pre owner r); trivial.
    + rewrite slice_to_drop_suffix. destruct r as [| c r]; [reflexivity |].
      destruct (String.eqb_spec (String c r +:+ ".git") ".git") as [E |];
        [| reflexivity].
      apply (f_equal String.length) in E. rewrite length_append in E.
      cbn [String.length] in E. lia.
    + cbv zeta. rewrite Hnorm.
      replace (pre +:+ owner +:+ String "/" (r +:+ ".git"))
        with ((pre +:+ owner +:+ String "/" r) +:+ ".git")
        by (rewrite !append_assoc, ?append_cons; reflexivity).
      now rewrite endswith_app, slice_to_drop_suffix.
  - rewrite (parse_github_url_trimmed _ pre owner repo); trivial.
    + rewrite (nonempty_eqb repo Hr).
      destruct (String.eqb_spec repo ".git") as [-> |]; [discriminate Hgit | reflexivity].
    + cbv zeta. rewrite Hnorm.
      rewrite <- append_assoc, endswith_after_slash, Hgit. reflexivity.
Qed.

End UrlMore.

Lemma parse_github_url_supported_forms_witness :
  github_fetcher.parse_github_url (fun _ => false)
    ("https://github.com/" +:+ "psf" +:+ "/" +:+ "requests" +:+ ".git/")
  = Ok ("psf", "requests").
Proof.
  apply (parse_github_url_supported_forms (fun _ => false));
    try reflexivity; try discriminate.
  - now left.
  - unfold repo_url_suffixes. cbn [In]. tauto.
Defined.

Lemma parse_github_url_when_parsed_witness :
  (exists msg,
     github_fetcher.parse_github_url (fun _ => false) "https://github.com/owner/repo.git"
     = Raise (GitHubFetchError msg 400))
  \/ (exists owner repo,
        github_fetcher.parse_github_url (fun _ => false) "https://github.com/owner/repo.git"
        = Ok (owner, repo)
        /\ owner <> "" /\ repo <> ""
        /\ github_fetcher.all_chars github_fetcher.is_name_char owner = true
        /\ github_fetcher.all_chars github_fetcher.is_name_char repo = true).
Proof.
  apply (parse_github_url_when_parsed (fun _ => false)). vm_compute. discriminate.
Defined.

Lemma validated_url_is_parsed_witness :
  exists owner repo,
    ("https://github.com/psf/requests" = "https://github.com/" +:+ owner +:+ "/" +:+ repo
     \/ "https://github.com/psf/requests" = "http://github.com/" +:+ owner +:+ "/" +:+ repo)
    /\ owner <> "" /\ github_fetcher.all_chars github_fetcher.is_name_char owner = true
    /\ repo <> "" /\ github_fetcher.all_chars github_fetcher.is_name_char repo = true
    /\ github_fetcher.parse_github_url (fun _ => false) "https://github.com/psf/requests"
       = if String.eqb repo ".git"
         then Raise (GitHubFetchError github_fetcher.NO_OWNER_REPO 400)
         else Ok (owner, if endswith ".git" repo then slice_to (-4) repo else repo).
Proof.
  apply (validated_url_is_parsed (fun _ => false) "  https://github.com/psf/requests/ ").
  vm_compute. reflexivity.
Defined.

(** ** Validation: what an accepted response holds *)

Section ValidationMore.

Import llm_client.

Variable float_truthy : string -> bool.
Variable float_str : string -> string.

Lemma lstrip_stops p (s : string) :
  lstrip p s = "" \/ exists c t, lstrip p s = String c t /\ p c = false.
Proof.
  induction s as [| c s IH]; [now left |].
  cbn [lstrip]. destruct (p c) eqn:E; [exact IH |].
  right. now exists c, s.
Qed.

Lemma lstrip_idempotent p (s : string) : lstrip p (lstrip p s) = lstrip p s.
Proof.
  destruct (lstrip_stops p s) as [-> | (c & t & -> & Hc)]; [reflexivity |].
  cbn [lstrip]. now rewrite Hc.
Qed.

Lemma rstrip_idempotent p (s : string) : rstrip p (rstrip p s) = rstrip p s.
Proof.
  unfold rstrip. now rewrite rev_string_involutive, lstrip_idempotent.
Qed.

Lemma rstrip_cons_stop p c (t : string) :
  p c = false -> rstrip p (String c t) = String c (rstrip p t).
Proof. intros H. exact (rstrip_app_stop p "" c t H). Qed.

(** Trimming a trimmed string changes nothing. *)
Lemma strip_idempotent p (s : string) : strip p (strip p s) = strip p s.
Proof.
  unfold strip.
  destruct (lstrip_stops p s) as [-> | (c & t & -> & Hc)]; [reflexivity |].
  rewrite (rstrip_cons_stop p c t Hc). cbn [lstrip]. rewrite Hc.
  rewrite (rstrip_cons_stop p c _ Hc). now rewrite rstrip_idempotent.
Qed.

(** Whatever [_validate_response] returns has a summary and a structure
    that are not empty and carry no white space at either end, and they
    are the trimmed fields of the response. *)
Theorem validate_response_returns_trimmed_texts
    (data : list (string * value)) (r : summary) :
  _validate_response float_truthy float_str data = Ok r ->
  (exists s, dict_get "summary" data = VStr s
             /\ summary_text r = strip isspace s)
  /\ (exists t, dict_get "structure" data = VStr t
                /\ structure r = strip isspace t)
  /\ summary_text r <> "" /\ structure r <> ""
  /\ strip isspace (summary_text r) = summary_text r
  /\ strip isspace (structure r) = structure r.
Proof.
  unfold _validate_response.
  destruct (nonblank_str (dict_get "summary" data)) as [s |] eqn:Hs;
    [| discriminate].
  destruct (dict_get "technologies" data) as [| | | | | l |]; try discriminate.
  destruct (nonblank_str (dict_get "structure" data)) as [t |] eqn:Ht;
    [| discriminate].
  intros H. injection H as <-. cbn [summary_text structure].
  apply nonblank_str_some in Hs as [Hs Hs'], Ht as [Ht Ht'].
  rewrite !strip_idempotent. eauto 10.
Qed.

Lemma technologies_of_strings (l : list string) :
  List.Forall (fun x => x <> "") l ->
  map (py_str float_str) (filter (py_truthy float_truthy) (map VStr l)) = l.
Proof.
  induction 1 as [| x l Hx _ IH]; [reflexivity |].
  cbn [map]. rewrite filter_cons_True.
  - cbn [map py_str]. now rewrite IH.
  - cbn [py_truthy]. destruct x; [congruence | exact I].
Qed.

(** A response with the three fields as asked for is accepted: the two
    texts are trimmed, and a list of technologies that are non-empty
    strings is returned as it is. *)
Theorem validate_response_accepts_well_formed
    (data : list (string * value)) (s t : string) (l : list string) :
  dict_get "summary" data = VStr s -> strip isspace s <> "" ->
  dict_get "technologies" data = VList (map VStr l) ->
  List.Forall (fun x => x <> "") l ->
  dict_get "structure" data = VStr t -> strip isspace t <> "" ->
  _validate_response float_truthy float_str data
  = Ok (Summary (strip isspace s) l (strip isspace t)).
Proof.
  intros Hs Hs' Hl Hl' Ht Ht'. unfold _validate_response.
  rewrite Hs, Hl, Ht. cbn [nonblank_str].
  rewrite (proj2 (String.eqb_neq _ _) Hs'), (proj2 (String.eqb_neq _ _) Ht').
  now rewrite technologies_of_strings.
Qed.

End ValidationMore.

Lemma validate_response_returns_trimmed_texts_witness :
  (exists s, llm_client.dict_get "summary" response_with_falsy_technologies = llm_client.VStr s
             /\ llm_client.summary_text (llm_client.Summary "a" ["x"; "y"] "b") = strip isspace s)
  /\ (exists t, llm_client.dict_get "structure" response_with_falsy_technologies = llm_client.VStr t
                /\ llm_client.structure (llm_client.Summary "a" ["x"; "y"] "b") = strip isspace t)
  /\ llm_client.summary_text (llm_client.Summary "a" ["x"; "y"] "b") <> ""
  /\ llm_client.structure (llm_client.Summary "a" ["x"; "y"] "b") <> ""
  /\ strip isspace (llm_client.summary_text (llm_client.Summary "a" ["x"; "y"] "b"))
     = llm_client.summary_text (llm_client.Summary "a" ["x"; "y"] "b")
  /\ strip isspace (llm_client.structure (llm_client.Summary "a" ["x"; "y"] "b"))
     = llm_client.structure (llm_client.Summary "a" ["x"; "y"] "b").
Proof.
  apply (validate_response_returns_trimmed_texts (fun _ => true) (fun s => s)). reflexivity.
Defined.

Lemma validate_response_accepts_well_formed_witness :
  llm_client._validate_response (fun _ => true) (fun s => s)
    [("summary", llm_client.VStr " A web framework. ");
     ("technologies", llm_client.VList (map llm_client.VStr ["Python"; "FastAPI"]));
     ("structure", llm_client.VStr "Code in app/.")]
  = Ok (llm_client.Summary (strip isspace " A web framework. ") ["Python"; "FastAPI"]
          (strip isspace "Code in app/.")).
Proof.
  apply (validate_response_accepts_well_formed (fun _ => true) (fun s => s));
    try reflexivity; try (vm_compute; discriminate).
  repeat constructor; discriminate.
Defined.

(** ** Extraction: white space around the answer *)

Section ExtractionMore.

Import llm_client.

Variable recursion_limit : nat.

Lemma strip_app_space p (s w : string) :
  github_fetcher.all_chars p w = true -> strip p (s +:+ w) = strip p s.
Proof.
  intros Hw. unfold strip. induction s as [| c s IH].
  - rewrite append_nil_l, (lstrip_all p w Hw). reflexivity.
  - rewrite append_cons. cbn [lstrip]. destruct (p c); [exact IH |].
    rewrite <- append_cons. now apply rstrip_app_all.
Qed.

Lemma strip_outer p (w1 s w2 : string) :
  github_fetcher.all_chars p w1 = true -> github_fetcher.all_chars p w2 = true ->
  strip p (w1 +:+ s +:+ w2) = strip p s.
Proof.
  intros H1 H2. rewrite <- append_assoc, (strip_app_space p _ w2 H2).
  unfold strip. now rewrite lstrip_app_all.
Qed.

(** White space before and after the answer of the model changes nothing
    in what [_extract_json] returns or raises. *)
Theorem extract_json_ignores_outer_space (w1 text w2 : string) :
  github_fetcher.all_chars isspace w1 = true ->
  github_fetcher.all_chars isspace w2 = true ->
  _extract_json recursion_limit (w1 +:+ text +:+ w2)
  = _extract_json recursion_limit text.
Proof.
  intros H1 H2. unfold _extract_json. cbv zeta.
  now rewrite (strip_outer isspace w1 text w2 H1 H2).
Qed.

End ExtractionMore.

Lemma extract_json_ignores_outer_space_witness :
  llm_client._extract_json 1000 ((" " +:+ nl) +:+ "{}" +:+ nl)
  = llm_client._extract_json 1000 "{}".
Proof. apply (extract_json_ignores_outer_space 1000); reflexivity. Defined.

(** ** Tree formatting and the skip rules *)

Section TreeSkip.








End TreeSkip.

(** ** Fetching in batches *)

Section Batches.

Import github_fetcher.

Variable fetch_file_content : string -> option string.

Lemma combine_map_fetch (batch : list string) :
  combine batch (map fetch_file_content batch) = map (fun fp => (fp, fetch_file_content fp)) batch.
Proof.
  induction batch as [| fp batch IH]; [reflexivity |].
  cbn [map combine]. now rewrite IH.
Qed.

Lemma store_contents_app (l1 l2 : list (string * option string)) results :
  store_contents (l1 ++ l2) results
  = store_contents l2 (store_contents l1 results).
Proof.
  revert results. induction l1 as [| [fp [c |]] l1 IH]; intros results;
    [reflexivity | apply IH | apply IH].
Qed.

Lemma batches_loop_from (a m : nat) (file_paths : list string) results :
  batches_loop fetch_file_content
    (map (fun k => (k * batch_size)%nat) (seq a m)) file_paths results
  = store_contents
      (map (fun fp => (fp, fetch_file_content fp)) (firstn (m * batch_size) (skipn (a * batch_size) file_paths)))
      results.
Proof.
  revert a results. induction m as [| m IH]; intros a results; [reflexivity |].
  cbn [seq map batches_loop]. rewrite IH, combine_map_fetch, <- store_contents_app.
  rewrite <- map_app. do 2 f_equal.
  replace (S a * batch_size)%nat with (batch_size + a * batch_size)%nat by lia.
  rewrite <- skipn_skipn.
  replace (S m * batch_size)%nat with (batch_size + m * batch_size)%nat by lia.
  apply take_take_drop.
Qed.

(** The batches cover the paths, each once and in order: the loop stores
    what one pass over all the paths would. *)
Lemma fetch_files_content_one_pass (file_paths : list string) :
  fetch_files_content fetch_file_content file_paths
  = store_contents (map (fun fp => (fp, fetch_file_content fp)) file_paths) ∅.
Proof.
  unfold fetch_files_content, range_step. rewrite batches_loop_from.
  change (skipn (0 * batch_size) file_paths) with file_paths.
  rewrite firstn_all2; [reflexivity |].
  unfold batch_size.
  pose proof (Nat.div_mod_eq (length file_paths + 10 - 1) 10).
  pose proof (Nat.mod_upper_bound (length file_paths + 10 - 1) 10 ltac:(lia)).
  lia.
Qed.

Lemma store_contents_lookup (l : list string) results (fp : string) :
  store_contents (map (fun fp => (fp, fetch_file_content fp)) l) results !! fp
  = if bool_decide (fp ∈ l)
    then match fetch_file_content fp with
         | Some content => Some content
         | None => results !! fp
         end
    else results !! fp.
Proof.
  revert results. induction l as [| x l IH]; intros results; [reflexivity |].
  cbn [map store_contents].
  destruct (decide (fp = x)) as [-> | Hne].
  - rewrite (bool_decide_eq_true_2 (x ∈ x :: l)) by set_solver.
    destruct (fetch_file_content x) as [c |]; rewrite IH.
    + rewrite lookup_insert. destruct (decide (x = x)); [| congruence].
      now destruct (bool_decide _).
    + now destruct (bool_decide _).
  - assert (Hiff : bool_decide (fp ∈ x :: l) = bool_decide (fp ∈ l))
      by (apply bool_decide_ext; rewrite list_elem_of_In; cbn [In];
          rewrite <- list_elem_of_In; intuition congruence).
    rewrite Hiff.
    destruct (fetch_file_content x) as [c |]; rewrite IH; [| reflexivity].
    rewrite lookup_insert_ne by congruence. reflexivity.
Qed.

(** The result maps each of the paths whose content could be fetched to
    that content, and nothing else, however the paths fall into batches. *)
Theorem fetch_files_content_lookup (file_paths : list string) (fp : string) :
  fetch_files_content fetch_file_content file_paths !! fp
  = if bool_decide (fp ∈ file_paths) then fetch_file_content fp else None.
Proof.
  rewrite fetch_files_content_one_pass, store_contents_lookup.
  rewrite lookup_empty. now destruct (fetch_file_content fp).
Qed.

End Batches.

(** ** Letter case in the skip rules and the tiers *)

Section LetterCase.

Lemma lower_char_idempotent (c : ascii) : lower_char (lower_char c) = lower_char c.
Proof. destruct c as [[] [] [] [] [] [] [] []]; reflexivity. Qed.

Lemma lower_idempotent (s : string) : lower (lower s) = lower s.
Proof.
  induction s as [| c s IH]; [reflexivity |].
  cbn [lower]. now rewrite lower_char_idempotent, IH.
Qed.

Lemma rfind_from_lower i (s : string) :
  rfind_from i "/" (lower s) = rfind_from i "/" s.
Proof.
  revert i. induction s as [| c s IH]; intros i; [reflexivity |].
  cbn [lower rfind_from]. now rewrite IH, lower_char_slash.
Qed.

Lemma drop_lower n (s : string) : drop n (lower s) = lower (drop n s).
Proof.
  revert s. induction n as [| n IH]; intros s; [reflexivity |].
  destruct s as [| c s]; [reflexivity |]. cbn [lower drop]. apply IH.
Qed.

Lemma basename_lower (p : string) : basename (lower p) = lower (basename p).
Proof.
  unfold basename, rfind. now rewrite rfind_from_lower, drop_lower.
Qed.

(** Whether a path is skipped, and its tier, do not depend on the letter
    case of the path. *)
Theorem skip_and_tier_ignore_case (p : string) (size : Z) :
  _should_skip (lower p) = _should_skip p
  /\ _get_tier (lower p) size = _get_tier p size.
Proof.
  split.
  - unfold _should_skip. now rewrite lower_idempotent.
  - unfold _get_tier.
    now rewrite basename_lower, lower_idempotent, contains_slash_lower.
Qed.

End LetterCase.

(** ** The scanner of JSON: every call is on a shorter text *)

Section Scanner.

Import llm_client.

Lemma skip_ws_length (s : string) :
  (String.length (skip_ws s) <= String.length s)%nat.
Proof.
  unfold skip_ws. induction s as [| c s IH]; [reflexivity |].
  cbn [lstrip]. destruct (is_json_ws c); cbn [String.length]; lia.
Qed.

Lemma drop_length n (s : string) :
  String.length (drop n s) = (String.length s - n)%nat.
Proof.
  revert s. induction n as [| n IH]; intros s; [cbn; lia |].
  destruct s as [| c s]; [reflexivity |]. cbn [drop String.length]. apply IH.
Qed.

Lemma prefix_length (p s : string) :
  String.prefix p s = true -> (String.length p <= String.length s)%nat.
Proof.
  intros H. apply prefix_decomp in H.
  apply (f_equal String.length) in H. rewrite length_append in H. lia.
Qed.

Lemma scanstring_shorter_within (n : nat) (s str r : string) :
  (String.length s <= n)%nat ->
  scanstring s = Parsed str r -> (String.length r < String.length s)%nat.
Proof.
  revert s str r. induction n as [| n IH]; intros s str r Hn.
  - destruct s; [discriminate | cbn in Hn; lia].
  - destruct s as [| c rest]; [discriminate |].
    cbn [scanstring]. cbn [String.length] in Hn.
    destruct (Ascii.eqb c DQ); [intros [= <- <-]; cbn; lia |].
    destruct (Ascii.eqb c BACKSLASH).
    + destruct rest as [| e rest']; [discriminate |].
      destruct (Ascii.eqb e "u").
      * destruct rest' as [| h1 [| h2 [| h3 [| h4 rest'']]]]; try discriminate.
        destruct (hex4 h1 h2 h3 h4) as [m |]; [| discriminate].
        destruct (m <=? 255)%N; [| discriminate].
        destruct (scanstring rest'') as [str' r' | | | | |] eqn:E; try discriminate.
        intros [= <- <-]. apply IH in E; cbn [String.length] in *; lia.
      * destruct (escape_char e); [| discriminate].
        destruct (scanstring rest') as [str' r' | | | | |] eqn:E; try discriminate.
        intros [= <- <-]. apply IH in E; cbn [String.length] in *; lia.
    + destruct (code c <? 32)%N; [discriminate |].
      destruct (scanstring rest) as [str' r' | | | | |] eqn:E; try discriminate.
      intros [= <- <-]. apply IH in E; cbn [String.length] in *; lia.
Qed.

Lemma scanstring_shorter (s str r : string) :
  scanstring s = Parsed str r -> (String.length r < String.length s)%nat.
Proof. now apply (scanstring_shorter_within (String.length s)). Qed.

Lemma scanstring_has_fuel (s : string) : scanstring s <> NoFuel.
Proof.
  assert (H : forall n s, (String.length s <= n)%nat -> scanstring s <> NoFuel).
  { clear s. induction n as [| n IH]; intros s Hn.
    - destruct s; [discriminate | cbn in Hn; lia].
    - destruct s as [| c rest]; [discriminate |].
      cbn [scanstring]. cbn [String.length] in Hn.
      destruct (Ascii.eqb c DQ); [discriminate |].
      destruct (Ascii.eqb c BACKSLASH).
      + destruct rest as [| e rest']; [discriminate |].
        destruct (Ascii.eqb e "u").
        * destruct rest' as [| h1 [| h2 [| h3 [| h4 rest'']]]]; try discriminate.
          destruct (hex4 h1 h2 h3 h4) as [m |]; [| discriminate].
          destruct (m <=? 255)%N; [| discriminate].
          assert (E : scanstring rest'' <> NoFuel)
            by (apply IH; cbn [String.length] in Hn; lia).
          destruct (scanstring rest''); cbn [cons_char]; congruence.
        * destruct (escape_char e); [| discriminate].
          assert (E : scanstring rest' <> NoFuel)
            by (apply IH; cbn [String.length] in Hn; lia).
          destruct (scanstring rest'); cbn [cons_char]; congruence.
      + destruct (code c <? 32)%N; [discriminate |].
        assert (E : scanstring rest <> NoFuel) by (apply IH; lia).
        destruct (scanstring rest); cbn [cons_char]; congruence. }
  now apply (H (String.length s)).
Qed.

Lemma take_digits_length (s : string) :
  (String.length (snd (take_digits s)) <= String.length s)%nat.
Proof.
  induction s as [| c s IH]; [reflexivity |].
  cbn [take_digits]. destruct (is_digit c); [| reflexivity].
  destruct (take_digits s). cbn [snd String.length] in *. lia.
Qed.

Lemma scan_int_part_shorter (s ds r : string) :
  scan_int_part s = Some (ds, r) -> (String.length r < String.length s)%nat.
Proof.
  unfold scan_int_part. destruct s as [| c s]; [discriminate |].
  destruct (Ascii.eqb c "0"); [intros [= <- <-]; cbn; lia |].
  destruct (between 49 57 c); [| discriminate].
  pose proof (take_digits_length s). destruct (take_digits s).
  intros [= <- <-]. cbn [snd String.length] in *. lia.
Qed.

Lemma scan_frac_length (s : string) :
  (String.length (snd (scan_frac s)) <= String.length s)%nat.
Proof.
  unfold scan_frac. destruct s as [| c s]; [reflexivity |].
  destruct (Ascii.eqb c "."); [| reflexivity].
  pose proof (take_digits_length s). destruct (take_digits s) as [[| d ds] r];
    cbn [snd String.length] in *; lia.
Qed.

Lemma scan_exp_length (s : string) :
  (String.length (snd (scan_exp s)) <= String.length s)%nat.
Proof.
  unfold scan_exp. destruct s as [| e s]; [reflexivity |].
  destruct (Ascii.eqb e "e" || Ascii.eqb e "E"); [| reflexivity].
  destruct s as [| g t]; [cbn; lia |].
  destruct (Ascii.eqb g "+" || Ascii.eqb g "-").
  - pose proof (take_digits_length t).
    destruct (take_digits t) as [[| d ds] r]; cbn [snd String.length] in *; lia.
  - pose proof (take_digits_length (String g t)).
    destruct (take_digits (String g t)) as [[| d ds] r];
      cbn [snd String.length] in *; lia.
Qed.

Lemma scan_number_shorter (s : string) v r :
  scan_number s = Some (Parsed v r) -> (String.length r < String.length s)%nat.
Proof.
  unfold scan_number.
  set (p := match s with
            | String c t => if Ascii.eqb c "-" then (true, t) else (false, s)
            | EmptyString => (false, s)
            end).
  assert (Hp : (String.length (snd p) <= String.length s)%nat).
  { subst p. destruct s as [| c t]; [reflexivity |].
    destruct (Ascii.eqb c "-"); cbn [snd String.length]; lia. }
  destruct p as [neg s1]. cbn [snd] in Hp.
  destruct (scan_int_part s1) as [[int_part s2] |] eqn:E; [| discriminate].
  apply scan_int_part_shorter in E.
  pose proof (scan_frac_length s2) as Hf. destruct (scan_frac s2) as [frac s3].
  pose proof (scan_exp_length s3) as He. destruct (scan_exp s3) as [exp s4].
  cbn [snd] in *.
  destruct frac, exp; try (intros [= <- <-]; lia).
  destruct (int_max_str_digits <? _)%nat; [discriminate | intros [= <- <-]; lia].
Qed.

Lemma scan_number_has_fuel (s : string) : scan_number s <> Some NoFuel.
Proof.
  unfold scan_number.
  destruct (match s with
            | String c t => if Ascii.eqb c "-" then (true, t) else (false, s)
            | EmptyString => (false, s)
            end) as [neg s1].
  destruct (scan_int_part s1) as [[int_part s2] |]; [| discriminate].
  destruct (scan_frac s2) as [frac s3]. destruct (scan_exp s3) as [exp s4].
  destruct frac, exp; try discriminate.
  destruct (int_max_str_digits <? _)%nat; discriminate.
Qed.

Ltac trim_ws x :=
  let H := fresh "Hws" in
  let E := fresh "Ews" in
  pose proof (skip_ws_length x) as H;
  destruct (skip_ws x) as [| ? ?] eqn:E;
  cbn [String.length] in H.

(** What a call of the scanner leaves is shorter than its text, and a
    budget of twice the length of the text, and two, is never used up. *)
Lemma scanner_calls (fuel : nat) :
  (forall depth s,
     (forall v r, scan_once fuel depth s = Parsed v r ->
                  (String.length r < String.length s)%nat)
     /\ ((2 * String.length s + 1 <= fuel)%nat ->
         scan_once fuel depth s <> NoFuel))
  /\ (forall depth pairs s,
        (forall v r, object_items fuel depth pairs s = Parsed v r ->
                     (String.length r < String.length s)%nat)
        /\ ((2 * String.length s + 2 <= fuel)%nat ->
            object_items fuel depth pairs s <> NoFuel))
  /\ (forall depth values s,
        (forall v r, array_items fuel depth values s = Parsed v r ->
                     (String.length r < String.length s)%nat)
        /\ ((2 * String.length s + 2 <= fuel)%nat ->
            array_items fuel depth values s <> NoFuel)).
Proof.
  induction fuel as [| fuel (IHs & IHo & IHa)].
  { repeat split; try discriminate; intros; lia. }
  split; [| split].
  - intros depth s. destruct s as [| c rest];
      [split; [discriminate | intros _; discriminate] |].
    cbn [scan_once String.length].
    destruct (Ascii.eqb c DQ).
    { pose proof (scanstring_has_fuel rest) as Hf.
      destruct (scanstring rest) as [str r0 | | | | |] eqn:E;
        (split; [try discriminate | intros _; congruence]).
      intros v r [= <- <-]. apply scanstring_shorter in E. lia. }
    destruct (Ascii.eqb c "{").
    { destruct depth as [| depth]; [split; [discriminate | intros _; discriminate] |].
      trim_ws rest; [split; [discriminate | intros _; discriminate] |].
      destruct (Ascii.eqb _ "}");
        [split; [intros v r [= <- <-]; lia | intros _; discriminate] |].
      destruct (Ascii.eqb _ DQ); [| split; [discriminate | intros _; discriminate]].
      destruct (IHo depth [] s) as [Hsh Hfu].
      split; [intros v r E; apply Hsh in E; lia | intros Hn; apply Hfu; lia]. }
    destruct (Ascii.eqb c "[").
    { destruct depth as [| depth]; [split; [discriminate | intros _; discriminate] |].
      trim_ws rest; [split; [discriminate | intros _; discriminate] |].
      destruct (Ascii.eqb _ "]");
        [split; [intros v r [= <- <-]; lia | intros _; discriminate] |].
      destruct (IHa depth [] (String a s)) as [Hsh Hfu].
      split; [intros v r E; apply Hsh in E; cbn [String.length] in E; lia
             | intros Hn; apply Hfu; cbn [String.length]; lia]. }
    assert (Hlit : forall (lit : string) (w : value) n,
              String.prefix lit (String c rest) = true ->
              n = String.length lit -> (0 < n)%nat ->
              (forall v r, Parsed w (drop n (String c rest)) = Parsed v r ->
                           (String.length r < S (String.length rest))%nat)).
    { intros lit w n Hp -> Hpos v r [= <- <-].
      apply prefix_length in Hp. rewrite drop_length.
      cbn [String.length] in *. lia. }
    destruct (String.prefix "null" (String c rest)) eqn:E1;
      [split; [apply (Hlit "null"); auto; cbn; lia | intros _; discriminate] |].
    destruct (String.prefix "true" (String c rest)) eqn:E2;
      [split; [apply (Hlit "true"); auto; cbn; lia | intros _; discriminate] |].
    destruct (String.prefix "false" (String c rest)) eqn:E3;
      [split; [apply (Hlit "false"); auto; cbn; lia | intros _; discriminate] |].
    destruct (scan_number (String c rest)) as [p |] eqn:En.
    { split.
      - intros v r ->. apply scan_number_shorter in En. cbn [String.length] in En. lia.
      - intros _ ->. now apply scan_number_has_fuel in En. }
    destruct (String.prefix "NaN" (String c rest)) eqn:E4;
      [split; [apply (Hlit "NaN"); auto; cbn; lia | intros _; discriminate] |].
    destruct (String.prefix "Infinity" (String c rest)) eqn:E5;
      [split; [apply (Hlit "Infinity"); auto; cbn; lia | intros _; discriminate] |].
    destruct (String.prefix "-Infinity" (String c rest)) eqn:E6;
      [split; [apply (Hlit "-Infinity"); auto; cbn; lia | intros _; discriminate] |].
    split; [discriminate | intros _; discriminate].
  - intros depth pairs s. cbn [object_items].
    pose proof (scanstring_has_fuel s) as Hf.
    destruct (scanstring s) as [key r0 | | | | |] eqn:E;
      try (split; [discriminate | intros _; congruence]).
    apply scanstring_shorter in E.
    trim_ws r0; [split; [discriminate | intros _; discriminate] |].
    destruct (Ascii.eqb _ ":"); [| split; [discriminate | intros _; discriminate]].
    pose proof (skip_ws_length s0) as Hv.
    destruct (IHs depth (skip_ws s0)) as [Hsh Hfu].
    destruct (scan_once fuel depth (skip_ws s0)) as [v0 r2 | | | | |] eqn:Ev;
      try (split; [discriminate | intros Hn; try discriminate; apply Hfu; lia]).
    specialize (Hsh v0 r2 eq_refl).
    trim_ws r2; [split; [discriminate | intros _; discriminate] |].
    destruct (Ascii.eqb _ "}");
      [split; [intros v r [= <- <-]; lia | intros _; discriminate] |].
    destruct (Ascii.eqb _ ","); [| split; [discriminate | intros _; discriminate]].
    trim_ws s1; [split; [discriminate | intros _; discriminate] |].
    destruct (Ascii.eqb _ DQ); [| split; [discriminate | intros _; discriminate]].
    destruct (IHo depth (dict_set key v0 pairs) s2) as [Hsh' Hfu'].
    split; [intros v r Er; apply Hsh' in Er; lia | intros Hn; apply Hfu'; lia].
  - intros depth values s. cbn [array_items].
    destruct (IHs depth s) as [Hsh Hfu].
    destruct (scan_once fuel depth s) as [v0 r0 | | | | |] eqn:Ev;
      try (split; [discriminate | intros Hn; try discriminate; apply Hfu; lia]).
    specialize (Hsh v0 r0 eq_refl).
    trim_ws r0; [split; [discriminate | intros _; discriminate] |].
    destruct (Ascii.eqb _ "]");
      [split; [intros v r [= <- <-]; lia | intros _; discriminate] |].
    destruct (Ascii.eqb _ ","); [| split; [discriminate | intros _; discriminate]].
    pose proof (skip_ws_length s0) as Hn'.
    destruct (IHa depth (values ++ [v0]) (skip_ws s0)) as [Hsh' Hfu'].
    split; [intros v r Er; apply Hsh' in Er; lia | intros Hn; apply Hfu'; lia].
Qed.

(** [json_loads] never comes to the end of the model's budget: it has no
    answer only on a string with a character above U+00FF. *)
Lemma json_loads_has_fuel (limit : nat) (text : string) :
  scan_once (2 * String.length text + 2) limit (skip_ws text) <> NoFuel.
Proof.
  apply (scanner_calls (2 * String.length text + 2)).
  pose proof (skip_ws_length text). lia.
Qed.

End Scanner.
